(** * Cricbuzz LiveStats: the ETL core of pages/4_SQL_Analytics.py

    A shallow embedding of the fetch layer ([api_get],
    [CricbuzzAPIClient.make_api_request]), the normalising helpers
    ([_to_int], [_to_date], [_short], ...), the upsert layer
    ([upsert_team], [upsert_player], [get_or_create_venue],
    [upsert_series], [upsert_match_basic], [insert_batting_score], ...)
    and the bulk loader [load_teams_and_players], followed by the
    properties the specification states about them and by further
    properties of the same code.

    Modelling conventions.
    - A JSON payload is a [pyval]; a Python dict is an association list
      (first binding wins, order kept).
    - Python [int] is [Z]; Python [float] is IEEE binary64, Rocq's
      primitive [float].
    - A Python [str] is a [string]; one [ascii] stands for one character,
      so text is limited to the characters below 256.  [isdigit()] is the
      ASCII one: it leaves out the three superscript digits, which
      [int()] refuses, so that both callers end as in Python.  CPython's
      cap on the decimal length of an [int] is left out.
    - Exceptions are values of [exn]; a function that can raise returns a
      [result]; code that touches the database, the network, the clock or
      the console runs in the monad [M] over [World].
    - The relational store keeps every table as the list of its rows in
      insertion order.  Primary keys, unique keys, AUTO_INCREMENT and the
      declared foreign keys are enforced as MySQL/InnoDB does; column
      widths, implicit type conversion and collations are not modelled
      (a value is stored as it is passed, text is compared exactly). *)

From Stdlib Require Import ZArith String Ascii List Bool Lia Floats DecimalString DecimalPos.
From stdpp Require Import base tactics option list strings.

Set Warnings "-register-all".
Open Scope string_scope.
Open Scope Z_scope.

(** ** Python values *)

Inductive pyval : Type :=
| VNone
| VBool (b : bool)
| VInt (n : Z)
| VFloat (f : float)
| VStr (s : string)
| VList (l : list pyval)
| VDict (d : list (string * pyval)).

Abbreviation dict := (list (string * pyval)).

Inductive request_error : Type :=
| ConnectionError
| Timeout
| HTTPError (status : Z).

Inductive db_error : Type :=
| IntegrityError
| ProgrammingError.

(** The exception classes the modelled code can meet.  All of them derive
    from Python's [Exception]; [RequestError] is
    [requests.RequestException], [DbError] is [mysql.connector.Error]. *)
Inductive exn : Type :=
| ValueError
| TypeError
| AttributeError
| OverflowError
| ZeroDivisionError
| OSError
| KeyError
| IndexError
| RuntimeError (msg : string)
| RequestError (e : request_error)
| DbError (e : db_error).

Inductive result (A : Type) : Type :=
| Ok (a : A)
| Raise (e : exn).
Arguments Ok {A} a.
Arguments Raise {A} e.

Definition rbind {A B} (r : result A) (k : A -> result B) : result B :=
  match r with
  | Ok a => k a
  | Raise e => Raise e
  end.

Notation "'let?' x ':=' c 'in' k" := (rbind c (fun x => k))
  (at level 10, x name, c at level 100, k at level 200).

(** [try: ... except Exception: default] around a pure computation. *)
Definition or_default {A} (r : result A) (default : A) : A :=
  match r with
  | Ok a => a
  | Raise _ => default
  end.

(** ** Characters and strings *)

(** Whitespace removed by [str.strip()]: the characters below 256 for
    which [str.isspace()] holds (tab to carriage return, the four
    separators, space, next line and no-break space). *)
Definition is_py_space (c : ascii) : bool :=
  let n := nat_of_ascii c in
  ((9 <=? n) && (n <=? 13) || (28 <=? n) && (n <=? 32)
   || (n =? 133) || (n =? 160))%nat.

(** Whitespace skipped around a number by [int()] and [float()]: the same
    without the four separators. *)
Definition is_num_space (c : ascii) : bool :=
  let n := nat_of_ascii c in
  ((9 <=? n) && (n <=? 13) || (n =? 32) || (n =? 133) || (n =? 160))%nat.

Definition is_ascii_digit (c : ascii) : bool :=
  let n := nat_of_ascii c in ((48 <=? n) && (n <=? 57))%nat.

Definition digit_value (c : ascii) : Z := Z.of_nat (nat_of_ascii c) - 48.

Fixpoint string_to_list (s : string) : list ascii :=
  match s with
  | EmptyString => []
  | String c s' => c :: string_to_list s'
  end.

Fixpoint list_to_string (l : list ascii) : string :=
  match l with
  | [] => EmptyString
  | c :: l' => String c (list_to_string l')
  end.

Fixpoint lstrip (space : ascii -> bool) (l : list ascii) : list ascii :=
  match l with
  | c :: l' => if space c then lstrip space l' else l
  | [] => []
  end.

Definition strip_list (space : ascii -> bool) (l : list ascii) : list ascii :=
  rev (lstrip space (rev (lstrip space l))).

(** [s.strip()] *)
Definition py_strip (s : string) : string :=
  list_to_string (strip_list is_py_space (string_to_list s)).

(** [s.isdigit()] *)
Definition py_isdigit (s : string) : bool :=
  match string_to_list s with
  | [] => false
  | l => forallb is_ascii_digit l
  end.

(** [s[:n]] for [0 <= n] *)
Fixpoint string_take (n : nat) (s : string) : string :=
  match n, s with
  | S n', String c s' => String c (string_take n' s')
  | _, _ => EmptyString
  end.

(** [s[i]] as an option ([None] is Python's IndexError) *)
Definition string_nth (i : nat) (s : string) : option ascii := String.get i s.

Definition char_eqb (a b : ascii) : bool := Ascii.eqb a b.

(** [needle in s] *)
Fixpoint py_contains (needle s : string) : bool :=
  String.prefix needle s ||
  match s with
  | EmptyString => false
  | String _ s' => py_contains needle s'
  end.

Definition lower_char (c : ascii) : ascii :=
  let n := nat_of_ascii c in
  if ((65 <=? n) && (n <=? 90))%nat then ascii_of_nat (n + 32) else c.

(** [s.lower()] *)
Fixpoint py_lower (s : string) : string :=
  match s with
  | EmptyString => EmptyString
  | String c s' => String (lower_char c) (py_lower s')
  end.

(** [str(n)] for an [int] *)
Definition Z_to_string (z : Z) : string := NilZero.string_of_int (Z.to_int z).

(** The digits of an integer literal accepted by [int(s)]: decimal digits,
    single underscores allowed between two digits only. *)
Fixpoint parse_digits (acc : Z) (prev_digit : bool) (l : list ascii) : option Z :=
  match l with
  | [] => if prev_digit then Some acc else None
  | c :: l' =>
      if is_ascii_digit c then parse_digits (acc * 10 + digit_value c) true l'
      else if char_eqb c "_" then
        if prev_digit then parse_digits acc false l' else None
      else None
  end.

(** [int(s)] for a string: surrounding whitespace, an optional sign, digits. *)
Definition int_of_string (s : string) : result Z :=
  match strip_list is_num_space (string_to_list s) with
  | [] => Raise ValueError
  | c :: l =>
      if char_eqb c "-" then
        match parse_digits 0 false l with
        | Some n => Ok (- n)
        | None => Raise ValueError
        end
      else if char_eqb c "+" then
        match parse_digits 0 false l with
        | Some n => Ok n
        | None => Raise ValueError
        end
      else
        match parse_digits 0 false (c :: l) with
        | Some n => Ok n
        | None => Raise ValueError
        end
  end.

(** ** Floats (IEEE binary64) *)

(** [float(n)]: the nearest double, ties to even. *)
Definition Z_to_float (z : Z) : float :=
  SF2Prim (binary_normalize prec emax z 0 false).

Definition float_of_int (z : Z) : result float :=
  let f := Z_to_float z in
  if is_infinity f then Raise OverflowError else Ok f.

(** [int(f)]: truncation towards zero. *)
Definition int_of_float (f : float) : result Z :=
  match Prim2SF f with
  | S754_zero _ => Ok 0
  | S754_finite s m e =>
      let v := if 0 <=? e then Z.pos m * 2 ^ e else Z.pos m / 2 ^ (- e) in
      Ok (if s then - v else v)
  | S754_infinity _ => Raise OverflowError
  | S754_nan => Raise ValueError
  end.

(** The double nearest to the rational [a / b] ([b <> 0]), ties to even;
    an infinity past the largest double. *)
Definition nearest_float (a b : Z) : float :=
  let sign := xorb (a <? 0) (b <? 0) in
  match Z.abs a with
  | Z.pos ma =>
      let '(mz, ez, lz) :=
        SFdiv_core_binary prec emax (Z.pos ma) 0 (Z.abs b) 0 in
      SF2Prim (binary_round_aux prec emax sign mz ez lz)
  | _ => SF2Prim (S754_zero (b <? 0))
  end.

(** [a / b] on two ints: the correctly rounded quotient. *)
Definition py_truediv (a b : Z) : result float :=
  if b =? 0 then Raise ZeroDivisionError
  else
    let f := nearest_float a b in
    if is_infinity f then Raise OverflowError else Ok f.

(** Nearest integer to [num / den] ([0 < den]), ties to even. *)
Definition round_half_even (num den : Z) : Z :=
  let q := num / den in
  let r := num mod den in
  match 2 * r ?= den with
  | Lt => q
  | Gt => q + 1
  | Eq => if Z.even q then q else q + 1
  end.

(** [round(x, 2)]: the double nearest to the decimal with two fractional
    digits nearest to the exact value of [x] (ties to even both times). *)
Definition py_round2 (x : float) : result float :=
  match Prim2SF x with
  | S754_finite s m e =>
      let n :=
        if 0 <=? e then Z.pos m * 2 ^ e * 100
        else round_half_even (Z.pos m * 100) (2 ^ (- e)) in
      if n =? 0 then Ok (SF2Prim (S754_zero s))
      else py_truediv (if s then - n else n) 100
  | _ => Ok x
  end.

Definition float_truthy (f : float) : bool := negb (PrimFloat.eqb f 0%float).

(** ** Built-ins supplied by the Python runtime and the C library

    [float(s)] on a string, [str()]/[repr()] of floats and containers and
    [time.strftime("%Y-%m-%d", time.gmtime(x))] are taken as given: the
    last one answers [None] where the platform raises (OverflowError,
    OSError or ValueError for a timestamp or a year out of range). *)
Class PyRuntime : Type := {
  float_of_string : string -> result float;
  py_repr : pyval -> string;
  strftime_ymd_gmtime : Z -> option string
}.

(** ** Truth, [or], [dict.get], [int()], [float()], [str()] *)

Definition truthy (v : pyval) : bool :=
  match v with
  | VNone => false
  | VBool b => b
  | VInt n => negb (n =? 0)
  | VFloat f => float_truthy f
  | VStr s => negb (String.eqb s EmptyString)
  | VList l => match l with [] => false | _ => true end
  | VDict d => match d with [] => false | _ => true end
  end.

(** [a or b] *)
Definition py_or (a b : pyval) : pyval := if truthy a then a else b.
Infix "|||" := py_or (at level 50, left associativity).

Fixpoint dict_lookup (d : dict) (k : string) : option pyval :=
  match d with
  | [] => None
  | (k', v) :: d' => if String.eqb k' k then Some v else dict_lookup d' k
  end.

(** [d.get(k)] *)
Definition dict_get (d : dict) (k : string) : pyval :=
  match dict_lookup d k with
  | Some v => v
  | None => VNone
  end.

(** [d.get(k, default)] *)
Definition dict_get_default (d : dict) (k : string) (default : pyval) : pyval :=
  match dict_lookup d k with
  | Some v => v
  | None => default
  end.

(** [k in d] *)
Definition dict_has (d : dict) (k : string) : bool :=
  match dict_lookup d k with
  | Some _ => true
  | None => false
  end.

(** [v.get(k)] on an arbitrary value: only a dict has the method. *)
Definition py_get (v : pyval) (k : string) : result pyval :=
  match v with
  | VDict d => Ok (dict_get d k)
  | _ => Raise AttributeError
  end.

Definition as_dict (v : pyval) : result dict :=
  match v with
  | VDict d => Ok d
  | _ => Raise AttributeError
  end.

Definition is_dict (v : pyval) : bool :=
  match v with VDict _ => true | _ => false end.

Definition is_none (v : pyval) : bool :=
  match v with VNone => true | _ => false end.

Definition is_str (v : pyval) : bool :=
  match v with VStr _ => true | _ => false end.

(** [a or b] where evaluating [b] may raise *)
Definition py_or_else (a : pyval) (b : result pyval) : result pyval :=
  if truthy a then Ok a else b.

(** [v.get(k, default)] *)
Definition py_get_default (v : pyval) (k : string) (default : pyval) : result pyval :=
  match v with
  | VDict d => Ok (dict_get_default d k default)
  | _ => Raise AttributeError
  end.

(** The items a [for] loop draws from a value. *)
Definition py_iter (v : pyval) : result (list pyval) :=
  match v with
  | VList l => Ok l
  | VDict d => Ok (map (fun kv => VStr (fst kv)) d)
  | VStr s => Ok (map (fun c => VStr (String c EmptyString)) (string_to_list s))
  | _ => Raise TypeError
  end.

(** [len(v)] *)
Definition py_len (v : pyval) : result Z :=
  match v with
  | VList l => Ok (Z.of_nat (length l))
  | VDict d => Ok (Z.of_nat (length d))
  | VStr s => Ok (Z.of_nat (String.length s))
  | _ => Raise TypeError
  end.

(** [v[0]] *)
Definition py_first (v : pyval) : result pyval :=
  match v with
  | VList (x :: _) => Ok x
  | VList [] => Raise IndexError
  | VStr (String c _) => Ok (VStr (String c EmptyString))
  | VStr EmptyString => Raise IndexError
  | VDict _ => Raise KeyError
  | _ => Raise TypeError
  end.

Definition opt_int (o : option Z) : pyval :=
  match o with Some n => VInt n | None => VNone end.

Definition opt_str (o : option string) : pyval :=
  match o with Some s => VStr s | None => VNone end.

(** [a or b] on [Optional[int]] *)
Definition opt_or (a b : option Z) : option Z :=
  match a with
  | Some n => if n =? 0 then b else a
  | None => b
  end.

(** [int(v)] *)
Definition py_int (v : pyval) : result Z :=
  match v with
  | VNone => Raise TypeError
  | VBool b => Ok (if b then 1 else 0)
  | VInt n => Ok n
  | VFloat f => int_of_float f
  | VStr s => int_of_string s
  | VList _ => Raise TypeError
  | VDict _ => Raise TypeError
  end.

Section Runtime.
Context `{RT : PyRuntime}.

(** [float(v)] *)
Definition py_float (v : pyval) : result float :=
  match v with
  | VNone => Raise TypeError
  | VBool b => Ok (if b then 1%float else 0%float)
  | VInt n => float_of_int n
  | VFloat f => Ok f
  | VStr s => float_of_string s
  | VList _ => Raise TypeError
  | VDict _ => Raise TypeError
  end.

(** [str(v)] *)
Definition py_str (v : pyval) : string :=
  match v with
  | VNone => "None"
  | VBool b => if b then "True" else "False"
  | VInt n => Z_to_string n
  | VStr s => s
  | _ => py_repr v
  end.

End Runtime.

(** ** The relational store *)

Inductive sqlval : Type :=
| SNull
| SInt (n : Z)
| SFloat (f : float)
| SStr (s : string).

(** Conversion of a statement parameter by the connector: containers have
    no SQL counterpart. *)
Definition to_sql (v : pyval) : result sqlval :=
  match v with
  | VNone => Ok SNull
  | VBool b => Ok (SInt (if b then 1 else 0))
  | VInt n => Ok (SInt n)
  | VFloat f => Ok (SFloat f)
  | VStr s => Ok (SStr s)
  | VList _ => Raise (DbError ProgrammingError)
  | VDict _ => Raise (DbError ProgrammingError)
  end.

Definition sql_string (o : option string) : sqlval :=
  match o with Some s => SStr s | None => SNull end.

(** [teams(team_id PRIMARY KEY, name, short_name, country)] *)
Record team_row : Type := {
  team_id : Z;
  team_name : sqlval;
  team_short_name : sqlval;
  team_country : sqlval
}.

(** [players(player_id PRIMARY KEY, name, role, bat_style, bowl_style,
    team_id REFERENCES teams, country)] *)
Record player_row : Type := {
  player_id : Z;
  player_name : sqlval;
  player_role : sqlval;
  player_bat_style : sqlval;
  player_bowl_style : sqlval;
  player_team_id : option Z;
  player_country : sqlval
}.

(** [series(series_id PRIMARY KEY, name, host_country, match_type,
    start_date, end_date, total_matches)] *)
Record series_row : Type := {
  series_id : Z;
  series_name : sqlval;
  series_host_country : sqlval;
  series_match_type : sqlval;
  series_start_date : option string;
  series_end_date : option string;
  series_total_matches : sqlval
}.

(** [venues(venue_id PRIMARY KEY AUTO_INCREMENT, name, city, country,
    capacity, UNIQUE (name, city, country))] *)
Record venue_row : Type := {
  venue_id : Z;
  venue_name : sqlval;
  venue_city : sqlval;
  venue_country : sqlval;
  venue_capacity : option Z
}.

(** [matches(match_id PRIMARY KEY, series_id REFERENCES series,
    team1_id, team2_id REFERENCES teams, match_date, venue_id REFERENCES
    venues, winner_id, win_margin, victory_type, toss_winner_id,
    toss_decision, match_format, description)] *)
Record match_row : Type := {
  match_id : Z;
  match_series_id : option Z;
  match_team1_id : option Z;
  match_team2_id : option Z;
  match_date : option string;
  match_venue_id : option Z;
  match_winner_id : option Z;
  match_win_margin : sqlval;
  match_victory_type : option string;
  match_toss_winner_id : option Z;
  match_toss_decision : sqlval;
  match_format : sqlval;
  match_description : sqlval
}.

(** [batting_stats(id PRIMARY KEY AUTO_INCREMENT, match_id REFERENCES
    matches, player_id REFERENCES players, team_id, runs, balls, fours,
    sixes, strike_rate, innings_no, batting_pos, is_out)]: the
    declaration has no other key. *)
Record batting_row : Type := {
  bat_id : Z;
  bat_match_id : Z;
  bat_player_id : Z;
  bat_team_id : sqlval;
  bat_runs : Z;
  bat_balls : Z;
  bat_fours : Z;
  bat_sixes : Z;
  bat_strike_rate : option float;
  bat_innings_no : Z;
  bat_batting_pos : option Z;
  bat_is_out : option Z
}.

(** [bowling_stats(id PRIMARY KEY AUTO_INCREMENT, match_id REFERENCES
    matches, player_id REFERENCES players, team_id, overs, maidens, runs,
    wickets, economy, innings_no)] *)
Record bowling_row : Type := {
  bowl_id : Z;
  bowl_match_id : Z;
  bowl_player_id : Z;
  bowl_team_id : sqlval;
  bowl_overs : option float;
  bowl_maidens : Z;
  bowl_runs : Z;
  bowl_wickets : Z;
  bowl_economy : option float;
  bowl_innings_no : Z
}.

(** [fielding_stats(id PRIMARY KEY AUTO_INCREMENT, match_id REFERENCES
    matches, player_id REFERENCES players, catches, stumpings)] *)
Record fielding_row : Type := {
  field_id : Z;
  field_match_id : Z;
  field_player_id : Z;
  field_catches : Z;
  field_stumpings : Z
}.

(** A table with an AUTO_INCREMENT key carries its counter. *)
Record DB : Type := {
  teams : list team_row;
  players : list player_row;
  series : list series_row;
  venues : list venue_row;
  venues_auto : Z;
  matches : list match_row;
  batting_stats : list batting_row;
  batting_auto : Z;
  bowling_stats : list bowling_row;
  bowling_auto : Z;
  fielding_stats : list fielding_row;
  fielding_auto : Z
}.

Definition empty_db : DB := {|
  teams := []; players := []; series := []; venues := []; venues_auto := 1;
  matches := []; batting_stats := []; batting_auto := 1;
  bowling_stats := []; bowling_auto := 1;
  fielding_stats := []; fielding_auto := 1
|}.

(** [INSERT ... ON DUPLICATE KEY UPDATE ...]: when the new row collides
    with a stored row on a primary or unique key ([conflict]), that row is
    updated in place by the assignments of the UPDATE clause ([update new
    old]); otherwise the new row is added. *)
Fixpoint insert_on_duplicate_key_update {R : Type}
    (conflict : R -> R -> bool) (update : R -> R -> R)
    (new : R) (tbl : list R) : list R :=
  match tbl with
  | [] => [new]
  | old :: tbl' =>
      if conflict new old then update new old :: tbl'
      else old :: insert_on_duplicate_key_update conflict update new tbl'
  end.

Definition has_team (d : DB) (id : Z) : bool :=
  existsb (fun r => team_id r =? id) (teams d).
Definition has_player (d : DB) (id : Z) : bool :=
  existsb (fun r => player_id r =? id) (players d).
Definition has_series (d : DB) (id : Z) : bool :=
  existsb (fun r => series_id r =? id) (series d).
Definition has_venue (d : DB) (id : Z) : bool :=
  existsb (fun r => venue_id r =? id) (venues d).
Definition has_match (d : DB) (id : Z) : bool :=
  existsb (fun r => match_id r =? id) (matches d).

(** A foreign key accepts NULL and any value present in the parent table. *)
Definition fk_ok (present : Z -> bool) (ref : option Z) : bool :=
  match ref with
  | None => true
  | Some id => present id
  end.

Definition set_teams (t : list team_row) (d : DB) : DB :=
  {| teams := t; players := players d; series := series d;
     venues := venues d; venues_auto := venues_auto d; matches := matches d;
     batting_stats := batting_stats d; batting_auto := batting_auto d;
     bowling_stats := bowling_stats d; bowling_auto := bowling_auto d;
     fielding_stats := fielding_stats d; fielding_auto := fielding_auto d |}.

Definition set_players (t : list player_row) (d : DB) : DB :=
  {| teams := teams d; players := t; series := series d;
     venues := venues d; venues_auto := venues_auto d; matches := matches d;
     batting_stats := batting_stats d; batting_auto := batting_auto d;
     bowling_stats := bowling_stats d; bowling_auto := bowling_auto d;
     fielding_stats := fielding_stats d; fielding_auto := fielding_auto d |}.

Definition set_series (t : list series_row) (d : DB) : DB :=
  {| teams := teams d; players := players d; series := t;
     venues := venues d; venues_auto := venues_auto d; matches := matches d;
     batting_stats := batting_stats d; batting_auto := batting_auto d;
     bowling_stats := bowling_stats d; bowling_auto := bowling_auto d;
     fielding_stats := fielding_stats d; fielding_auto := fielding_auto d |}.

Definition set_venues (t : list venue_row) (auto : Z) (d : DB) : DB :=
  {| teams := teams d; players := players d; series := series d;
     venues := t; venues_auto := auto; matches := matches d;
     batting_stats := batting_stats d; batting_auto := batting_auto d;
     bowling_stats := bowling_stats d; bowling_auto := bowling_auto d;
     fielding_stats := fielding_stats d; fielding_auto := fielding_auto d |}.

Definition set_matches (t : list match_row) (d : DB) : DB :=
  {| teams := teams d; players := players d; series := series d;
     venues := venues d; venues_auto := venues_auto d; matches := t;
     batting_stats := batting_stats d; batting_auto := batting_auto d;
     bowling_stats := bowling_stats d; bowling_auto := bowling_auto d;
     fielding_stats := fielding_stats d; fielding_auto := fielding_auto d |}.

Definition set_batting (t : list batting_row) (auto : Z) (d : DB) : DB :=
  {| teams := teams d; players := players d; series := series d;
     venues := venues d; venues_auto := venues_auto d; matches := matches d;
     batting_stats := t; batting_auto := auto;
     bowling_stats := bowling_stats d; bowling_auto := bowling_auto d;
     fielding_stats := fielding_stats d; fielding_auto := fielding_auto d |}.

Definition set_bowling (t : list bowling_row) (auto : Z) (d : DB) : DB :=
  {| teams := teams d; players := players d; series := series d;
     venues := venues d; venues_auto := venues_auto d; matches := matches d;
     batting_stats := batting_stats d; batting_auto := batting_auto d;
     bowling_stats := t; bowling_auto := auto;
     fielding_stats := fielding_stats d; fielding_auto := fielding_auto d |}.

Definition set_fielding (t : list fielding_row) (auto : Z) (d : DB) : DB :=
  {| teams := teams d; players := players d; series := series d;
     venues := venues d; venues_auto := venues_auto d; matches := matches d;
     batting_stats := batting_stats d; batting_auto := batting_auto d;
     bowling_stats := bowling_stats d; bowling_auto := bowling_auto d;
     fielding_stats := t; fielding_auto := auto |}.

(** ** The world the program runs in *)

Record response : Type := {
  status_code : Z;
  text : string;
  (** the value of [resp.json()], [None] when the body is not JSON *)
  json : option pyval
}.

Inductive http_outcome : Type :=
| NetFail (e : request_error)
| Resp (r : response).

(** Lines written by [print]. *)
Inductive log_msg : Type :=
| LogInvalidJSON (url : string) (preview : string)
| LogApiFailed (retries : Z) (url : string)
| LogRetrying (e : request_error) (wait_ms : Z)
| LogSkipTeams
| LogSkipPlayers (team : Z)
| LogMcenterFailed (mid : Z) (e : exn).

(** Messages shown by [st.error] and [st.warning]. *)
Inductive ui_msg : Type :=
| UiRateLimit (endpoint : string)
| UiNotFound (endpoint : string)
| UiHttpError (endpoint : string) (status : Z)
| UiException (endpoint : string) (e : exn).

Record World : Type := {
  (** the connection's view of the store, and what is committed *)
  db : DB;
  committed : DB;
  (** the module global [API_CALLS] *)
  API_CALLS : Z;
  (** how many HTTP requests left the process *)
  requests_sent : nat;
  (** [st.session_state["api_trace"]] *)
  api_trace : list (Z * string * option dict);
  console : list log_msg;
  ui : list ui_msg;
  (** [time.time()] in milliseconds; it advances in [time.sleep] *)
  clock : Z;
  (** the fields of the [CricbuzzAPIClient] instance *)
  last_api_call : Z;
  call_count : Z
}.

Definition with_db (f : DB -> DB) (w : World) : World :=
  {| db := f (db w); committed := committed w; API_CALLS := API_CALLS w;
     requests_sent := requests_sent w; api_trace := api_trace w;
     console := console w; ui := ui w; clock := clock w;
     last_api_call := last_api_call w; call_count := call_count w |}.

Definition with_committed (c : DB) (w : World) : World :=
  {| db := db w; committed := c; API_CALLS := API_CALLS w;
     requests_sent := requests_sent w; api_trace := api_trace w;
     console := console w; ui := ui w; clock := clock w;
     last_api_call := last_api_call w; call_count := call_count w |}.

Definition with_fetch (calls : Z) (sent : nat)
    (trace : list (Z * string * option dict)) (w : World) : World :=
  {| db := db w; committed := committed w; API_CALLS := calls;
     requests_sent := sent; api_trace := trace;
     console := console w; ui := ui w; clock := clock w;
     last_api_call := last_api_call w; call_count := call_count w |}.

Definition with_console (c : list log_msg) (w : World) : World :=
  {| db := db w; committed := committed w; API_CALLS := API_CALLS w;
     requests_sent := requests_sent w; api_trace := api_trace w;
     console := c; ui := ui w; clock := clock w;
     last_api_call := last_api_call w; call_count := call_count w |}.

Definition with_ui (u : list ui_msg) (w : World) : World :=
  {| db := db w; committed := committed w; API_CALLS := API_CALLS w;
     requests_sent := requests_sent w; api_trace := api_trace w;
     console := console w; ui := u; clock := clock w;
     last_api_call := last_api_call w; call_count := call_count w |}.

Definition with_client (now last count : Z) (w : World) : World :=
  {| db := db w; committed := committed w; API_CALLS := API_CALLS w;
     requests_sent := requests_sent w; api_trace := api_trace w;
     console := console w; ui := ui w; clock := now;
     last_api_call := last; call_count := count |}.

Definition initial_world : World := {|
  db := empty_db; committed := empty_db; API_CALLS := 0; requests_sent := 0;
  api_trace := []; console := []; ui := []; clock := 0;
  last_api_call := 0; call_count := 0
|}.

(** State and exceptions: a raised exception keeps the effects made so far. *)
Definition M (A : Type) : Type := World -> result A * World.

Definition ret {A} (a : A) : M A := fun w => (Ok a, w).

Definition raise {A} (e : exn) : M A := fun w => (Raise e, w).

Definition bind {A B} (c : M A) (k : A -> M B) : M B :=
  fun w =>
    match c w with
    | (Ok a, w') => k a w'
    | (Raise e, w') => (Raise e, w')
    end.

Notation "'let*' x ':=' c 'in' k" := (bind c (fun x => k))
  (at level 10, x name, c at level 100, k at level 200).
Notation "c ';;' k" := (bind c (fun _ => k))
  (at level 100, k at level 200, right associativity).

Definition lift {A} (r : result A) : M A := fun w => (r, w).

(** [try: c except ...: h e] *)
Definition try_except {A} (c : M A) (h : exn -> M A) : M A :=
  fun w =>
    match c w with
    | (Ok a, w') => (Ok a, w')
    | (Raise e, w') => h e w'
    end.

Definition print (m : log_msg) : M unit :=
  fun w => (Ok tt, with_console (console w ++ [m]) w).

Definition st_message (m : ui_msg) : M unit :=
  fun w => (Ok tt, with_ui (ui w ++ [m]) w).

(** [time.sleep(ms / 1000)]: a negative duration raises ValueError. *)
Definition sleep (ms : Z) : M unit :=
  fun w =>
    if ms <? 0 then (Raise ValueError, w)
    else (Ok tt, with_client (clock w + ms) (last_api_call w) (call_count w) w).

(** [conn.commit()] *)
Definition commit : M unit := fun w => (Ok tt, with_committed (db w) w).

(** [for x in l: body x] *)
Fixpoint for_each {A} (l : list A) (body : A -> M unit) : M unit :=
  match l with
  | [] => ret tt
  | x :: l' => body x ;; for_each l' body
  end.

(** What does not change from one run of the program to the next call:
    the environment variables read at import and the remote server, which
    answers a request from its URL, its query parameters and the number of
    requests it has seen. *)
Record Deployment : Type := {
  RAPIDAPI_KEY : option string;
  RAPIDAPI_HOST : option string;
  MAX_CALLS : Z;
  http : string -> option dict -> nat -> http_outcome
}.

(** ** The program *)

Section Program.
Context `{RT : PyRuntime} (D : Deployment).

(** *** HTTP fetch layer (pages/4_SQL_Analytics.py) *)

(** [requests.get(url, headers=..., params=params, timeout=...)] *)
Definition requests_get (url : string) (params : option dict) : M response :=
  fun w =>
    let w' := with_fetch (API_CALLS w) (S (requests_sent w)) (api_trace w) w in
    match http D url params (requests_sent w) with
    | NetFail e => (Raise (RequestError e), w')
    | Resp r => (Ok r, w')
    end.

(** [resp.raise_for_status()] *)
Definition raise_for_status (r : response) : M unit :=
  if (400 <=? status_code r) && (status_code r <? 600)
  then raise (RequestError (HTTPError (status_code r)))
  else ret tt.

Definition newline_to_space (c : ascii) : ascii :=
  if char_eqb c "010" then " "%char else c.

Fixpoint replace_newlines (s : string) : string :=
  match s with
  | EmptyString => EmptyString
  | String c s' => String (newline_to_space c) (replace_newlines s')
  end.

(** [not RAPIDAPI_KEY] *)
Definition key_missing : bool :=
  match RAPIDAPI_KEY D with
  | None => true
  | Some k => String.eqb k EmptyString
  end.

(** The body of the [try] in [api_get]: one request. *)
Definition api_get_try (url : string) (params : option dict) : M pyval :=
  let* resp := requests_get url params in
  (fun w =>
     let calls := API_CALLS w + 1 in
     (Ok tt, with_fetch calls (requests_sent w)
               (api_trace w ++ [(calls, url, params)]) w)) ;;
  raise_for_status resp ;;
  match json resp with
  | Some j => ret j
  | None =>
      print (LogInvalidJSON url (replace_newlines (string_take 200 (text resp)))) ;;
      ret VNone
  end.

(** The [while True] loop of [api_get], entered with the current value of
    [attempt].  The loop leaves through a [return] or an exception; its
    only way round is the [except requests.RequestException] branch with
    [attempt <= retries], which can be taken [retries - attempt] more
    times, so [left] counts those and [api_get] starts it at [retries]. *)
Fixpoint api_get_loop (left : nat) (url : string) (params : option dict)
    (retries backoff_ms attempt : Z) : M pyval :=
  try_except (api_get_try url params)
    (fun e =>
       match e with
       | RequestError re =>
           let attempt := attempt + 1 in
           if attempt >? retries then
             print (LogApiFailed retries url) ;; ret VNone
           else
             let wait := backoff_ms * attempt in
             print (LogRetrying re wait) ;;
             sleep wait ;;
             match left with
             | S left' => api_get_loop left' url params retries backoff_ms attempt
             | O => ret VNone
             end
       | _ => raise e
       end).

Definition api_get_with (url : string) (params : option dict)
    (retries backoff_ms : Z) : M pyval :=
  fun w =>
    if key_missing then
      (Raise (RuntimeError "RAPIDAPI_KEY is not set in environment."), w)
    else if API_CALLS w >=? MAX_CALLS D then
      (Raise (RuntimeError
                ("Stopped: API calls reached safety cap "
                   ++ Z_to_string (MAX_CALLS D) ++ ".")), w)
    else api_get_loop (Z.to_nat retries) url params retries backoff_ms 0 w.

(** [api_get(url, params)] with the defaults [retries=5], [backoff=0.8]. *)
Definition api_get (url : string) (params : option dict) : M pyval :=
  api_get_with url params 5 800.

Definition extract_teams : M pyval :=
  api_get "https://cricbuzz-cricket.p.rapidapi.com/teams/v1/international" None.

Definition extract_players (team_id : Z) : M pyval :=
  api_get ("https://cricbuzz-cricket.p.rapidapi.com/teams/v1/"
             ++ Z_to_string team_id ++ "/players") None.

Definition extract_player_profile (player_id : Z) : M pyval :=
  api_get ("https://cricbuzz-cricket.p.rapidapi.com/stats/v1/player/"
             ++ Z_to_string player_id) None.

Definition extract_match_info (match_id : Z) : M pyval :=
  api_get ("https://cricbuzz-cricket.p.rapidapi.com/mcenter/v1/"
             ++ Z_to_string match_id) None.

(** *** The API client of the pages (utils/api_client.py) *)

Definition max_calls_per_minute : Z := 60.

(** [CricbuzzAPIClient.check_rate_limit] *)
Definition check_rate_limit : M unit :=
  fun w =>
    let current_time := clock w in
    let '(count, last) :=
      if current_time - last_api_call w >=? 60000
      then (0, current_time) else (call_count w, last_api_call w) in
    let '(now, count, last) :=
      if count >=? max_calls_per_minute then
        let wait_time := 60000 - (current_time - last) in
        if wait_time >? 0
        then (current_time + wait_time, 0, current_time + wait_time)
        else (current_time, count, last)
      else (current_time, count, last) in
    (Ok tt, with_client now last (count + 1) w).

Definition base_url : string :=
  "https://" ++ match RAPIDAPI_HOST D with Some h => h | None => "None" end.

(** [CricbuzzAPIClient.make_api_request] *)
Definition make_api_request (endpoint : string) (params : option dict) : M pyval :=
  check_rate_limit ;;
  try_except
    (let url := base_url ++ "/" ++ endpoint in
     let* response := requests_get url params in
     if status_code response =? 429 then
       st_message (UiRateLimit endpoint) ;; ret VNone
     else if status_code response =? 404 then
       st_message (UiNotFound endpoint) ;; ret VNone
     else if status_code response >=? 400 then
       st_message (UiHttpError endpoint (status_code response)) ;; ret VNone
     else
       match json response with
       | Some j => ret j
       | None => raise ValueError
       end)
    (fun e => st_message (UiException endpoint e) ;; ret VNone).

(** *** Tiny helpers *)

(** [_to_int(x, default)] *)
Definition _to_int (x : pyval) (default : option Z) : option Z :=
  match x with
  | VNone => default
  | VStr EmptyString => default
  | _ => match py_int x with
         | Ok n => Some n
         | Raise _ => default
         end
  end.

(** [_short(text, n)] *)
Definition _short (text : pyval) (n : nat) : option string :=
  match text with
  | VNone => None
  | _ => Some (string_take n (py_str text))
  end.

(** The two lines shared by both numeric branches of [_to_date]:
    [if x > 10_000_000_000: x //= 1000] and the formatting of
    [time.gmtime(x)]. *)
Definition epoch_to_date (x : Z) : option string :=
  strftime_ymd_gmtime (if x >? 10000000000 then x / 1000 else x).

(** [len(s) >= 10 and s[4] == '-' and s[7] == '-'] *)
Definition iso_like (s : string) : bool :=
  (10 <=? String.length s)%nat
  && match string_nth 4 s with Some c => char_eqb c "-" | None => false end
  && match string_nth 7 s with Some c => char_eqb c "-" | None => false end.

(** [_to_date(value)]; the [try ... except Exception: pass] turns every
    exception of the body into the final [return None]. *)
Definition _to_date (value : pyval) : option string :=
  match value with
  | VNone => None
  | VBool _ | VInt _ | VFloat _ =>
      match py_int value with
      | Ok x => epoch_to_date x
      | Raise _ => None
      end
  | _ =>
      let s := py_str value in
      if iso_like s then Some (string_take 10 s)
      else if py_isdigit s then
        match int_of_string s with
        | Ok x => epoch_to_date x
        | Raise _ => None
        end
      else None
  end.

(** *** Upserts *)

Definition sql_eq (a b : sqlval) : bool :=
  match a, b with
  | SInt x, SInt y => x =? y
  | SStr x, SStr y => String.eqb x y
  | SFloat x, SFloat y => PrimFloat.eqb x y
  | _, _ => false
  end.

(** [COALESCE(v, '')] *)
Definition coalesce_empty (v : sqlval) : sqlval :=
  match v with SNull => SStr EmptyString | _ => v end.

(** [SELECT team_id FROM teams WHERE name = %s OR short_name = %s LIMIT 1] *)
Definition resolve_team_id (name : pyval) : M (option Z) :=
  if negb (truthy name) then ret None
  else
    let* p := lift (to_sql name) in
    fun w =>
      (Ok (option_map team_id
             (find (fun r => sql_eq (team_name r) p || sql_eq (team_short_name r) p)
                   (teams (db w)))), w).

Definition team_conflict (new old : team_row) : bool := team_id new =? team_id old.

Definition team_update (new old : team_row) : team_row :=
  {| team_id := team_id old;
     team_name := team_name new;
     team_short_name := team_short_name new;
     team_country := team_country new |}.

(** [upsert_team(conn, team)] *)
Definition upsert_team (team : dict) : M unit :=
  let* team_id := lift (py_int (dict_get team "teamId" ||| dict_get team "id" ||| VInt 0)) in
  if team_id =? 0 then ret tt
  else
    let name := dict_get team "teamName" ||| dict_get team "name" in
    let sname := dict_get team "teamSName" ||| dict_get team "shortName"
                 ||| dict_get team "sName" in
    let country := dict_get team "country" ||| name in
    let* p_name := lift (to_sql name) in
    let* p_sname := lift (to_sql sname) in
    let* p_country := lift (to_sql country) in
    fun w =>
      (Ok tt,
       with_db (fun d =>
         set_teams (insert_on_duplicate_key_update team_conflict team_update
                      {| team_id := team_id; team_name := p_name;
                         team_short_name := p_sname; team_country := p_country |}
                      (teams d)) d) w).

Definition player_conflict (new old : player_row) : bool :=
  player_id new =? player_id old.

Definition player_update (new old : player_row) : player_row :=
  {| player_id := player_id old;
     player_name := player_name new;
     player_role := player_role new;
     player_bat_style := player_bat_style new;
     player_bowl_style := player_bowl_style new;
     player_team_id := player_team_id new;
     player_country := player_country new |}.

(** [upsert_player(conn, player, team_id, enrich)] *)
Definition upsert_player (player : dict) (team_id : Z) (enrich : option pyval) : M unit :=
  let* pid := lift (py_int (dict_get player "id" ||| dict_get player "playerId" ||| VInt 0)) in
  if pid =? 0 then ret tt
  else
    let* enrich :=
      match enrich with
      | Some e => ret e
      | None => let* prof := extract_player_profile pid in ret (prof ||| VDict [])
      end in
    let* name := lift (
      py_or_else (dict_get player "name")
        (let? n := py_get enrich "name" in
         Ok (n ||| dict_get player "fullName" ||| dict_get player "batName"
               ||| VStr ("Player " ++ Z_to_string pid)))) in
    let* role := lift (
      py_or_else (dict_get player "role" ||| dict_get player "playingRole")
        (py_get enrich "role")) in
    let* bat := lift (
      py_or_else (dict_get player "bat" ||| dict_get player "battingStyle")
        (py_get enrich "bat")) in
    let* bowl := lift (
      py_or_else (dict_get player "bowl" ||| dict_get player "bowlingStyle")
        (py_get enrich "bowl")) in
    let* country := lift (
      py_or_else (dict_get player "intlTeam" ||| dict_get player "teamName")
        (py_get enrich "intlTeam")) in
    let* p_name := lift (to_sql name) in
    let* p_role := lift (to_sql role) in
    let* p_bat := lift (to_sql bat) in
    let* p_bowl := lift (to_sql bowl) in
    let* p_country := lift (to_sql country) in
    (fun w =>
       if has_team (db w) team_id then
         (Ok tt,
          with_db (fun d =>
            set_players (insert_on_duplicate_key_update player_conflict player_update
                           {| player_id := pid; player_name := p_name;
                              player_role := p_role; player_bat_style := p_bat;
                              player_bowl_style := p_bowl;
                              player_team_id := Some team_id;
                              player_country := p_country |}
                           (players d)) d) w)
       else (Raise (DbError IntegrityError), w)) ;;
    commit.

Definition remove_commas (s : string) : string :=
  list_to_string (filter (fun c => negb (char_eqb c ",")) (string_to_list s)).

(** The local [safe_capacity] of [get_or_create_venue]. *)
Definition safe_capacity (val : pyval) : option Z :=
  match val with
  | VNone => None
  | _ =>
      let val := py_strip (remove_commas (py_str val)) in
      if String.eqb val EmptyString || String.eqb val "-" || String.eqb val "N/A"
         || String.eqb val "NA" || String.eqb val "null"
      then None
      else match int_of_string val with
           | Ok n => Some n
           | Raise _ => None
           end
  end.

(** [WHERE name=%s AND COALESCE(city,'')=COALESCE(%s,'') AND
    COALESCE(country,'')=COALESCE(%s,'')] *)
Definition venue_matches (name city country : sqlval) (r : venue_row) : bool :=
  sql_eq (venue_name r) name
  && sql_eq (coalesce_empty (venue_city r)) (coalesce_empty city)
  && sql_eq (coalesce_empty (venue_country r)) (coalesce_empty country).

(** [GREATEST(COALESCE(capacity,0), COALESCE(%s,0))] *)
Definition greatest_capacity (stored new : option Z) : Z :=
  Z.max (default 0 stored) (default 0 new).

(** [UPDATE venues SET capacity = ... WHERE venue_id=%s] *)
Definition update_capacity (vid : Z) (capacity : option Z) (r : venue_row) : venue_row :=
  if venue_id r =? vid then
    {| venue_id := venue_id r; venue_name := venue_name r;
       venue_city := venue_city r; venue_country := venue_country r;
       venue_capacity := Some (greatest_capacity (venue_capacity r) capacity) |}
  else r.

(** [UNIQUE KEY uniq_venue (name, city, country)]: NULL never collides. *)
Definition uniq_venue (name city country : sqlval) (r : venue_row) : bool :=
  sql_eq (venue_name r) name && sql_eq (venue_city r) city
  && sql_eq (venue_country r) country.

(** [get_or_create_venue(conn, name, city, country, capacity)] *)
Definition get_or_create_venue (name city country capacity : pyval) : M (option Z) :=
  if negb (truthy name) then ret None
  else
    let capacity := safe_capacity capacity in
    let* p_name := lift (to_sql name) in
    let* p_city := lift (to_sql city) in
    let* p_country := lift (to_sql country) in
    fun w =>
      match find (venue_matches p_name p_city p_country) (venues (db w)) with
      | Some row =>
          let vid := venue_id row in
          (Ok (Some vid),
           with_db (fun d =>
             set_venues (map (update_capacity vid capacity) (venues d))
                        (venues_auto d) d) w)
      | None =>
          if existsb (uniq_venue p_name p_city p_country) (venues (db w))
          then (Raise (DbError IntegrityError), w)
          else
            let vid := venues_auto (db w) in
            (Ok (Some vid),
             with_db (fun d =>
               set_venues (venues d ++
                             [{| venue_id := vid; venue_name := p_name;
                                 venue_city := p_city; venue_country := p_country;
                                 venue_capacity := capacity |}])
                          (vid + 1) d) w)
      end.

(** The search for [first_match] in [upsert_series]: the first bucket that
    is a dict with a non-empty ["matchDetailsMap"]["match"]. *)
Fixpoint find_first_match (buckets : list pyval) : result pyval :=
  match buckets with
  | [] => Ok VNone
  | bucket :: rest =>
      match bucket with
      | VDict b =>
          match dict_lookup b "matchDetailsMap" with
          | Some mdm =>
              let? ms := py_get_default mdm "match" (VList []) in
              if truthy ms then
                let? m0 := py_first ms in
                py_get m0 "matchInfo"
              else find_first_match rest
          | None => find_first_match rest
          end
      | _ => find_first_match rest
      end
  end.

(** [sum(len(bucket.get("matchDetailsMap", {}).get("match", []))
        for bucket in md if isinstance(bucket, dict))] *)
Fixpoint count_matches (buckets : list pyval) : result Z :=
  match buckets with
  | [] => Ok 0
  | bucket :: rest =>
      match bucket with
      | VDict b =>
          let? ms := py_get_default (dict_get_default b "matchDetailsMap" (VDict []))
                       "match" (VList []) in
          let? n := py_len ms in
          let? k := count_matches rest in
          Ok (n + k)
      | _ => count_matches rest
      end
  end.

(** The part of [upsert_series] that derives host country, match type and
    total matches from the first match. *)
Definition series_details (s : dict) : result (pyval * pyval * pyval) :=
  let host_country := dict_get s "hostCountry" in
  let match_type := dict_get s "matchType" in
  let total_matches := dict_get s "totalMatches" in
  let md := dict_get s "matchDetails" ||| VList [] in
  if truthy md then
    let? buckets := py_iter md in
    let? first_match := find_first_match buckets in
    let? hm :=
      if truthy first_match then
        let? vinfo := py_get_default first_match "venueInfo" (VDict []) in
        let? host_country :=
          if truthy host_country then Ok host_country
          else
            let? c := py_get vinfo "country" in
            py_or_else c (py_get vinfo "city") in
        let? match_type :=
          if truthy match_type then Ok match_type
          else py_get first_match "matchFormat" in
        Ok (host_country, match_type)
      else Ok (host_country, match_type) in
    let? total_matches :=
      if truthy total_matches then Ok total_matches
      else let? n := count_matches buckets in Ok (VInt n) in
    Ok (fst hm, snd hm, total_matches)
  else Ok (host_country, match_type, total_matches).

Definition series_conflict (new old : series_row) : bool :=
  series_id new =? series_id old.

Definition series_update (new old : series_row) : series_row :=
  {| series_id := series_id old;
     series_name := series_name new;
     series_host_country := series_host_country new;
     series_match_type := series_match_type new;
     series_start_date := series_start_date new;
     series_end_date := series_end_date new;
     series_total_matches := series_total_matches new |}.

(** [upsert_series(conn, s)] *)
Definition upsert_series (s : dict) : M unit :=
  let* sid := lift (py_int (dict_get s "seriesId" ||| dict_get s "id" ||| VInt 0)) in
  if sid =? 0 then ret tt
  else
    let name := dict_get s "seriesName" ||| dict_get s "name" in
    let* det := lift (series_details s) in
    let '(host_country, match_type, total_matches) := det in
    let* p_name := lift (to_sql name) in
    let* p_host := lift (to_sql host_country) in
    let* p_type := lift (to_sql match_type) in
    let* p_total := lift (to_sql total_matches) in
    let start_date := _to_date (dict_get s "seriesStartDt" ||| dict_get s "startDt") in
    let end_date := _to_date (dict_get s "seriesEndDt" ||| dict_get s "endDt") in
    fun w =>
      (Ok tt,
       with_db (fun d =>
         set_series (insert_on_duplicate_key_update series_conflict series_update
                       {| series_id := sid; series_name := p_name;
                          series_host_country := p_host;
                          series_match_type := p_type;
                          series_start_date := start_date;
                          series_end_date := end_date;
                          series_total_matches := p_total |}
                       (series d)) d) w).

(** The result fields of a match that the match-center fetch may fill in. *)
Record result_fields : Type := {
  winner_id : option Z;
  toss_winner_id : option Z;
  toss_decision : pyval;
  win_margin : pyval;
  victory_type : option string
}.

(** [any(x is None for x in [winner_id, toss_winner_id, toss_decision,
    win_margin, victory_type])] *)
Definition need_mcenter (f : result_fields) : bool :=
  is_none (opt_int (winner_id f)) || is_none (opt_int (toss_winner_id f))
  || is_none (toss_decision f) || is_none (win_margin f)
  || is_none (opt_str (victory_type f)).

(** Assignments executed one after the other inside a [try]: the first one
    that raises stops the block, the earlier ones stay. *)
Fixpoint run_steps {S : Type} (steps : list (S -> result S)) (s : S) : S * option exn :=
  match steps with
  | [] => (s, None)
  | step :: rest =>
      match step s with
      | Ok s' => run_steps rest s'
      | Raise e => (s, Some e)
      end
  end.

Definition truthy_int (o : option Z) : bool := truthy (opt_int o).

(** The assignments of the enrichment block of [upsert_match_basic], given
    the match header [hdr] (a dict), [toss_block] and [res]. *)
Definition enrich_steps (hdr : dict) : list (result_fields -> result result_fields) :=
  let toss_block := dict_get hdr "tossResults" ||| VDict [] in
  let res := dict_get hdr "result" ||| VDict [] in
  [ (fun f =>
       Ok {| winner_id := opt_or (winner_id f) (_to_int (dict_get hdr "winningTeamId") None);
             toss_winner_id := toss_winner_id f; toss_decision := toss_decision f;
             win_margin := win_margin f; victory_type := victory_type f |});
    (fun f =>
       let? t :=
         if truthy_int (toss_winner_id f) then Ok (toss_winner_id f)
         else
           let? a := py_get toss_block "tossWinnerId" in
           let? x := py_or_else a (py_get toss_block "winnerId") in
           Ok (_to_int x None) in
       Ok {| winner_id := winner_id f; toss_winner_id := t;
             toss_decision := toss_decision f;
             win_margin := win_margin f; victory_type := victory_type f |});
    (fun f =>
       let? d :=
         py_or_else (toss_decision f)
           (let? a := py_get toss_block "decision" in
            py_or_else a (py_get toss_block "tossDecision")) in
       Ok {| winner_id := winner_id f; toss_winner_id := toss_winner_id f;
             toss_decision := d;
             win_margin := win_margin f; victory_type := victory_type f |});
    (fun f =>
       let? wm :=
         py_or_else (win_margin f)
           (let? a := py_get res "resultMargin" in
            py_or_else a (py_get res "margin")) in
       Ok {| winner_id := winner_id f; toss_winner_id := toss_winner_id f;
             toss_decision := toss_decision f;
             win_margin := wm; victory_type := victory_type f |});
    (fun f =>
       let? vt :=
         py_or_else (opt_str (victory_type f))
           (let? a := py_get res "resultType" in
            let? b := py_or_else a (py_get res "victoryType") in
            Ok (b ||| dict_get hdr "status")) in
       Ok {| winner_id := winner_id f; toss_winner_id := toss_winner_id f;
             toss_decision := toss_decision f;
             win_margin := win_margin f; victory_type := _short vt 50 |}) ].

(** The body of the enrichment [try] after the fetch returned [mc]. *)
Definition mcenter_enrich (mc : pyval) (f : result_fields) : result_fields * option exn :=
  match py_get (mc ||| VDict []) "matchHeader" with
  | Raise e => (f, Some e)
  | Ok h =>
      match h ||| VDict [] with
      | VDict hdr => run_steps (enrich_steps hdr) f
      | _ => (f, Some AttributeError)
      end
  end.

(** The fields read from the list object before any enrichment. *)
Definition match_list_fields (m : dict) : result result_fields :=
  let winner_id :=
    match dict_get m "matchWinner" with
    | VDict mw => _to_int (dict_get mw "teamId") None
    | _ =>
        if truthy_int (_to_int (dict_get m "winnerTeamId") None)
        then _to_int (dict_get m "winnerTeamId") None
        else None
    end in
  let toss := dict_get m "tossResults" ||| dict_get m "toss" ||| VDict [] in
  let? tw := py_get toss "tossWinnerId" in
  let? tw := py_or_else tw (py_get toss "winnerId") in
  let toss_winner_id := _to_int tw None in
  let? td := py_get toss "decision" in
  let? toss_decision := py_or_else td (py_get toss "tossDecision") in
  let result := dict_get m "result" ||| VDict [] in
  let? rm := py_get result "resultMargin" in
  let? rm := py_or_else rm (py_get result "margin") in
  let win_margin := rm ||| dict_get m "winMargin" in
  let? rt := py_get result "resultType" in
  let? rt := py_or_else rt (py_get result "victoryType") in
  let victory_type := _short (rt ||| dict_get m "status") 50 in
  Ok {| winner_id := winner_id; toss_winner_id := toss_winner_id;
        toss_decision := toss_decision; win_margin := win_margin;
        victory_type := victory_type |}.

(** [if isinstance(win_margin, str) and win_margin.strip().isdigit():
        win_margin = int(win_margin.strip())] *)
Definition coerce_margin (win_margin : pyval) : pyval :=
  match win_margin with
  | VStr s =>
      if py_isdigit (py_strip s) then
        match int_of_string (py_strip s) with
        | Ok n => VInt n
        | Raise _ => win_margin
        end
      else win_margin
  | _ => win_margin
  end.

Definition match_conflict (new old : match_row) : bool :=
  match_id new =? match_id old.

Definition match_update (new old : match_row) : match_row :=
  {| match_id := match_id old;
     match_series_id := match_series_id new;
     match_team1_id := match_team1_id new;
     match_team2_id := match_team2_id new;
     match_date := match_date new;
     match_venue_id := match_venue_id new;
     match_winner_id := match_winner_id new;
     match_win_margin := match_win_margin new;
     match_victory_type := match_victory_type new;
     match_toss_winner_id := match_toss_winner_id new;
     match_toss_decision := match_toss_decision new;
     match_format := match_format new;
     match_description := match_description new |}.

(** The final [cur.execute] of [upsert_match_basic]. *)
Definition execute_upsert_match (row : match_row) : M unit :=
  fun w =>
    if fk_ok (has_series (db w)) (match_series_id row)
       && fk_ok (has_team (db w)) (match_team1_id row)
       && fk_ok (has_team (db w)) (match_team2_id row)
       && fk_ok (has_venue (db w)) (match_venue_id row)
    then
      (Ok tt,
       with_db (fun d =>
         set_matches (insert_on_duplicate_key_update match_conflict match_update
                        row (matches d)) d) w)
    else (Raise (DbError IntegrityError), w).

(** The [try ... except Exception as e: print(...)] block of
    [upsert_match_basic] that queries the match center. *)
Definition query_mcenter (mid : Z) (f : result_fields) : M result_fields :=
  try_except
    (let* mc := extract_match_info mid in
     match mcenter_enrich mc f with
     | (f', None) => ret f'
     | (f', Some e) => print (LogMcenterFailed mid e) ;; ret f'
     end)
    (fun e => print (LogMcenterFailed mid e) ;; ret f).

(** [upsert_match_basic(conn, m, series_id)] *)
Definition upsert_match_basic (m : dict) (series_id : option Z) : M unit :=
  match _to_int (dict_get m "matchId" ||| dict_get m "id") None with
  | None => ret tt
  | Some mid =>
      if mid =? 0 then ret tt
      else
        (* Teams *)
        let t1 := dict_get m "team1" ||| VDict [] ||| VDict [] in
        let t2 := dict_get m "team2" ||| VDict [] ||| VDict [] in
        let* x1 := lift (let? a := py_get t1 "teamId" in py_or_else a (py_get t1 "id")) in
        let team1_id := default 0 (_to_int x1 (Some 0)) in
        let* x2 := lift (let? a := py_get t2 "teamId" in py_or_else a (py_get t2 "id")) in
        let team2_id := default 0 (_to_int x2 (Some 0)) in
        (if team1_id =? 0 then ret tt
         else let* d1 := lift (as_dict t1) in upsert_team d1) ;;
        (if team2_id =? 0 then ret tt
         else let* d2 := lift (as_dict t2) in upsert_team d2) ;;
        (* Venue *)
        let vinfo := dict_get m "venueInfo" ||| dict_get m "venue" ||| VDict [] in
        let* vg := lift (py_get vinfo "ground") in
        let* venue_name := lift (py_or_else vg (py_get vinfo "name")) in
        let* venue_city := lift (py_get vinfo "city") in
        let* venue_country := lift (py_get vinfo "country") in
        let* capacity := lift (py_get vinfo "capacity") in
        let* venue_id := get_or_create_venue venue_name venue_city venue_country capacity in
        (* Dates *)
        let mdate := _to_date (dict_get m "matchDate" ||| dict_get m "startDate"
                                 ||| dict_get m "startTime") in
        (* Winner / Toss / Result *)
        let* f := lift (match_list_fields m) in
        let mformat := dict_get m "matchFormat" ||| dict_get m "format" in
        let desc := dict_get m "matchDescription" ||| dict_get m "matchDesc"
                    ||| dict_get m "seriesName" ||| dict_get m "status" in
        (* If any of these are missing, query mcenter *)
        let* f := if need_mcenter f then query_mcenter mid f else ret f in
        let win_margin := coerce_margin (win_margin f) in
        let* p_margin := lift (to_sql win_margin) in
        let* p_decision := lift (to_sql (toss_decision f)) in
        let* p_format := lift (to_sql mformat) in
        let* p_desc := lift (to_sql desc) in
        execute_upsert_match
          {| match_id := mid; match_series_id := series_id;
             match_team1_id := Some team1_id; match_team2_id := Some team2_id;
             match_date := mdate; match_venue_id := venue_id;
             match_winner_id := winner_id f; match_win_margin := p_margin;
             match_victory_type := victory_type f;
             match_toss_winner_id := toss_winner_id f;
             match_toss_decision := p_decision;
             match_format := p_format; match_description := p_desc |}
  end.

(** The local [safe_int] and [safe_float] of the fact inserts. *)
Definition safe_int (val : pyval) (default : option Z) : option Z :=
  match py_int val with
  | Ok n => Some n
  | Raise _ => default
  end.

Definition safe_float (val : pyval) (default : option float) : option float :=
  match py_float val with
  | Ok x => Some x
  | Raise _ => default
  end.

(** [round((runs / balls) * 100, 2)] *)
Definition computed_strike_rate (runs balls : Z) : result float :=
  let? q := py_truediv runs balls in
  py_round2 (q * 100)%float.

(** [v.lower()]: a method of [str] only *)
Definition py_lower_of (v : pyval) : result string :=
  match v with
  | VStr s => Ok (py_lower s)
  | _ => Raise AttributeError
  end.

(** The tri-state dismissal flag of [insert_batting_score]. *)
Definition batting_is_out (b : dict) : result (option Z) :=
  if dict_has b "isOut" then
    Ok (Some (if truthy (dict_get b "isOut") then 1 else 0))
  else
    let? out_desc := py_lower_of (dict_get b "outDesc" ||| VStr EmptyString) in
    Ok (if py_contains "not out" out_desc then Some 0
        else if negb (String.eqb out_desc EmptyString) then Some 1 else None).

(** [ON DUPLICATE KEY] can only fire on a declared key: for the three
    fact tables that is the AUTO_INCREMENT [id] alone. *)
Definition batting_conflict (new old : batting_row) : bool := bat_id new =? bat_id old.

Definition batting_update (new old : batting_row) : batting_row :=
  {| bat_id := bat_id old; bat_match_id := bat_match_id old;
     bat_player_id := bat_player_id old; bat_team_id := bat_team_id old;
     bat_runs := bat_runs new; bat_balls := bat_balls new;
     bat_fours := bat_fours new; bat_sixes := bat_sixes new;
     bat_strike_rate := bat_strike_rate new;
     bat_innings_no := bat_innings_no old;
     bat_batting_pos := bat_batting_pos new; bat_is_out := bat_is_out new |}.

(** [insert_batting_score(conn, mid, innings_no, team_id, b, order)] *)
Definition insert_batting_score (mid innings_no : Z) (team_id : pyval)
    (b : dict) (order : option Z) : M unit :=
  let* pid := lift (py_int (dict_get b "playerId" ||| dict_get b "id" ||| VInt 0)) in
  if pid =? 0 then ret tt
  else
    let runs := default 0 (safe_int (dict_get b "runs") (Some 0)) in
    let balls := default 0 (safe_int (dict_get b "balls" ||| dict_get b "ballsFaced") (Some 0)) in
    let fours := default 0 (safe_int (dict_get b "fours") (Some 0)) in
    let sixes := default 0 (safe_int (dict_get b "sixes") (Some 0)) in
    (* Strike rate (API or calculate manually) *)
    let sr := safe_float (dict_get b "strkrate" ||| dict_get b "strikeRate"
                            ||| dict_get b "sr") None in
    let* sr :=
      match sr with
      | None =>
          if balls >? 0 then let* x := lift (computed_strike_rate runs balls) in ret (Some x)
          else ret None
      | Some _ => ret sr
      end in
    (* Resolve team_id if missing *)
    let team_id :=
      if truthy team_id then team_id
      else opt_int (safe_int (dict_get b "teamId") (Some 0)) in
    let* team_id :=
      if truthy team_id then ret team_id
      else
        let* t := resolve_team_id (dict_get b "teamName" ||| dict_get b "team") in
        ret (opt_int t) in
    (* Batting position *)
    let pos :=
      match order with
      | Some _ => order
      | None => safe_int (dict_get b "battingOrder" ||| dict_get b "order") None
      end in
    (* Out / not out detection *)
    let* is_out := lift (batting_is_out b) in
    let* p_team := lift (to_sql team_id) in
    fun w =>
      if has_match (db w) mid && has_player (db w) pid then
        (Ok tt,
         with_db (fun d =>
           set_batting
             (insert_on_duplicate_key_update batting_conflict batting_update
                {| bat_id := batting_auto d; bat_match_id := mid;
                   bat_player_id := pid; bat_team_id := p_team;
                   bat_runs := runs; bat_balls := balls;
                   bat_fours := fours; bat_sixes := sixes;
                   bat_strike_rate := sr; bat_innings_no := innings_no;
                   bat_batting_pos := pos; bat_is_out := is_out |}
                (batting_stats d))
             (batting_auto d + 1) d) w)
      else (Raise (DbError IntegrityError), w).

Definition bowling_conflict (new old : bowling_row) : bool := bowl_id new =? bowl_id old.

Definition bowling_update (new old : bowling_row) : bowling_row :=
  {| bowl_id := bowl_id old; bowl_match_id := bowl_match_id old;
     bowl_player_id := bowl_player_id old; bowl_team_id := bowl_team_id old;
     bowl_overs := bowl_overs new; bowl_maidens := bowl_maidens new;
     bowl_runs := bowl_runs new; bowl_wickets := bowl_wickets new;
     bowl_economy := bowl_economy new; bowl_innings_no := bowl_innings_no old |}.

(** [insert_bowling_figures(conn, mid, innings_no, team_id, bw)] *)
Definition insert_bowling_figures (mid innings_no : Z) (team_id : pyval)
    (bw : dict) : M unit :=
  let* pid := lift (py_int (dict_get bw "playerId" ||| dict_get bw "id" ||| VInt 0)) in
  if pid =? 0 then ret tt
  else
    let overs := safe_float (dict_get bw "overs" ||| dict_get bw "o") (Some 0%float) in
    let maidens := default 0 (safe_int (dict_get bw "maidens" ||| dict_get bw "m") (Some 0)) in
    let runs := default 0 (safe_int (dict_get bw "runs" ||| dict_get bw "r") (Some 0)) in
    let wkts := default 0 (safe_int (dict_get bw "wickets" ||| dict_get bw "w") (Some 0)) in
    let econ := safe_float (dict_get bw "economy" ||| dict_get bw "eco") None in
    let* p_team := lift (to_sql team_id) in
    fun w =>
      if has_match (db w) mid && has_player (db w) pid then
        (Ok tt,
         with_db (fun d =>
           set_bowling
             (insert_on_duplicate_key_update bowling_conflict bowling_update
                {| bowl_id := bowling_auto d; bowl_match_id := mid;
                   bowl_player_id := pid; bowl_team_id := p_team;
                   bowl_overs := overs; bowl_maidens := maidens;
                   bowl_runs := runs; bowl_wickets := wkts;
                   bowl_economy := econ; bowl_innings_no := innings_no |}
                (bowling_stats d))
             (bowling_auto d + 1) d) w)
      else (Raise (DbError IntegrityError), w).

Definition fielding_conflict (new old : fielding_row) : bool :=
  field_id new =? field_id old.

Definition fielding_update (new old : fielding_row) : fielding_row :=
  {| field_id := field_id old; field_match_id := field_match_id old;
     field_player_id := field_player_id old;
     field_catches := field_catches new; field_stumpings := field_stumpings new |}.

(** [insert_fielding(conn, mid, pid, catches, stumpings)] *)
Definition insert_fielding (mid pid : Z) (catches stumpings : pyval) : M unit :=
  if pid =? 0 then ret tt
  else
    fun w =>
      if has_match (db w) mid && has_player (db w) pid then
        (Ok tt,
         with_db (fun d =>
           set_fielding
             (insert_on_duplicate_key_update fielding_conflict fielding_update
                {| field_id := fielding_auto d; field_match_id := mid;
                   field_player_id := pid;
                   field_catches := default 0 (safe_int catches (Some 0));
                   field_stumpings := default 0 (safe_int stumpings (Some 0)) |}
                (fielding_stats d))
             (fielding_auto d + 1) d) w)
      else (Raise (DbError IntegrityError), w).

(** *** Partnerships derived from the batting order *)

Record pair_state : Type := {
  partnerships : list pyval;
  current_pair : list pyval;
  runs_accum : Z;
  balls_accum : Z
}.

Definition partnership (p1 p2 : pyval) (runs balls : Z) : pyval :=
  VDict [("player1Id", p1); ("player2Id", p2);
         ("runs", VInt runs); ("balls", VInt balls)].

(** One turn of the [for b in batsmen] loop. *)
Definition pair_step (st : pair_state) (b : pyval) : result pair_state :=
  let? pid := py_get b "id" in
  let? r := py_get b "runs" in
  let? runs := py_int (r ||| VInt 0) in
  let? bl := py_get b "balls" in
  let? balls := py_int (bl ||| VInt 0) in
  let current_pair := (current_pair st ++ [pid])%list in
  let runs_accum := runs_accum st + runs in
  let balls_accum := balls_accum st + balls in
  if (length current_pair =? 2)%nat then
    Ok {| partnerships :=
            (partnerships st ++
              [partnership (nth 0 current_pair VNone) (nth 1 current_pair VNone)
                           runs_accum balls_accum])%list;
          current_pair := [nth 1 current_pair VNone];
          runs_accum := 0; balls_accum := 0 |}
  else
    Ok {| partnerships := partnerships st; current_pair := current_pair;
          runs_accum := runs_accum; balls_accum := balls_accum |}.

Fixpoint pair_loop (st : pair_state) (batsmen : list pyval) : result pair_state :=
  match batsmen with
  | [] => Ok st
  | b :: rest => let? st' := pair_step st b in pair_loop st' rest
  end.

(** [derive_partnerships_from_batsmen(batsmen)] *)
Definition derive_partnerships_from_batsmen (batsmen : list pyval) : result (list pyval) :=
  let? st := pair_loop {| partnerships := []; current_pair := [];
                          runs_accum := 0; balls_accum := 0 |} batsmen in
  Ok (partnerships st).

(** *** High-level load *)

(** [[x.get("team") or x for x in items]] *)
Fixpoint unwrap_teams (items : list pyval) : result (list pyval) :=
  match items with
  | [] => Ok []
  | x :: rest =>
      let? t := py_get x "team" in
      let? ts := unwrap_teams rest in
      Ok ((t ||| x) :: ts)
  end.

(** The team objects found in the answer of the teams endpoint. *)
Definition teams_of (data : pyval) : result pyval :=
  match data with
  | VDict d =>
      if dict_has d "list" then
        let? items := py_iter (dict_get_default d "list" (VList [])) in
        let? ts := unwrap_teams items in
        Ok (VList ts)
      else if dict_has d "teams" then Ok (dict_get_default d "teams" (VList []))
      else Ok (VList [])
  | _ => Ok (VList [])
  end.

(** The body of [for (team_id,) in cur.fetchall()]. *)
Definition load_players_of (team_id : Z) : M unit :=
  let* pdata := extract_players team_id in
  if negb (truthy pdata) then print (LogSkipPlayers team_id)
  else
    let plist :=
      match pdata with
      | VDict d => dict_get d "player" ||| dict_get d "players" ||| VList []
      | _ => VList []
      end in
    let* ps := lift (py_iter plist) in
    for_each ps (fun p => let* pd := lift (as_dict p) in upsert_player pd team_id None) ;;
    commit.

(** [load_teams_and_players(conn)]; [SELECT team_id FROM teams] returns the
    rows in the order the table keeps them. *)
Definition load_teams_and_players : M unit :=
  let* data := extract_teams in
  if negb (truthy data) then print LogSkipTeams
  else
    let* team_list := lift (teams_of data) in
    let* ts := lift (py_iter team_list) in
    for_each ts (fun t => let* td := lift (as_dict t) in upsert_team td) ;;
    commit ;;
    let* ids := (fun w => (Ok (map team_id (teams (db w))), w)) in
    for_each ids load_players_of.

End Program.

(** ** More of the API client (utils/api_client.py) *)

Section ApiClient.
Context `{RT : PyRuntime} (D : Deployment).

(** [CricbuzzAPIClient.search_players]:
    [data.get('player', []) if data else []] *)
Definition search_players (search_term : pyval) : M pyval :=
  let endpoint := "stats/v1/player/search" in
  let params := Some [("plrN", search_term)] in
  let* data := make_api_request D endpoint params in
  if truthy data then lift (py_get_default data "player" (VList []))
  else ret (VList []).

End ApiClient.

(** ** A reference runtime: CPython on Linux/glibc

    Concrete versions of the three built-ins of [PyRuntime], to run the
    program on examples. *)

Module CPython.

(** A possibly empty group of digits (single underscores between digits):
    its value and its number of digits. *)
Definition digit_group (l : list ascii) : option (Z * Z) :=
  match l with
  | [] => Some (0, 0)
  | _ =>
      match parse_digits 0 false l with
      | Some n => Some (n, Z.of_nat (length (filter is_ascii_digit l)))
      | None => None
      end
  end.

Fixpoint split_at (p : ascii -> bool) (l : list ascii) : list ascii * option (list ascii) :=
  match l with
  | [] => ([], None)
  | c :: l' =>
      if p c then ([], Some l')
      else let '(a, b) := split_at p l' in (c :: a, b)
  end.

Definition signed_digits (l : list ascii) : option Z :=
  match l with
  | [] => None
  | c :: l' =>
      if char_eqb c "-" then option_map Z.opp (parse_digits 0 false l')
      else if char_eqb c "+" then parse_digits 0 false l'
      else parse_digits 0 false l
  end.

(** An unsigned decimal literal [digits[.digits][e[+-]digits]]. *)
Definition unsigned_float (l : list ascii) : result float :=
  let '(mant, expo) := split_at (fun c => char_eqb c "e" || char_eqb c "E") l in
  let '(ip, fp) := split_at (fun c => char_eqb c ".") mant in
  match digit_group ip, digit_group (default [] fp),
        match expo with Some e => signed_digits e | None => Some 0 end with
  | Some (iv, id), Some (fv, fd), Some ex =>
      if (id + fd =? 0) then Raise ValueError
      else
        let n := iv * 10 ^ fd + fv in
        let k := ex - fd in
        Ok (if 0 <=? k then nearest_float (n * 10 ^ k) 1
            else nearest_float n (10 ^ (- k)))
  | _, _, _ => Raise ValueError
  end.

(** [float(s)] *)
Definition float_of_string (s : string) : result float :=
  match strip_list is_num_space (string_to_list s) with
  | [] => Raise ValueError
  | c :: l =>
      let neg := char_eqb c "-" in
      let body := if neg || char_eqb c "+" then l else c :: l in
      let word := py_lower (list_to_string body) in
      let? x :=
        if String.eqb word "inf" || String.eqb word "infinity" then Ok infinity
        else if String.eqb word "nan" then Ok nan
        else unsigned_float body in
      Ok (if neg then (- x)%float else x)
  end.

(** The decimal digits of a natural number. *)
Definition digits_of (n : Z) : string := Z_to_string n.

Fixpoint zeros (n : nat) : string :=
  match n with
  | O => EmptyString
  | S n' => String "0" (zeros n')
  end.

Fixpoint strip_trailing_zeros_rev (l : list ascii) : list ascii :=
  match l with
  | c :: l' => if char_eqb c "0" then strip_trailing_zeros_rev l' else l
  | [] => []
  end.

(** The largest [k] with [10^k * den <= num], searched upwards from [k0]. *)
Fixpoint floor_log10 (fuel : nat) (k : Z) (num den : Z) : Z :=
  match fuel with
  | O => k
  | S fuel' =>
      let up := k + 1 in
      let fits := if 0 <=? up then 10 ^ up * den <=? num
                  else den <=? num * 10 ^ (- up) in
      if fits then floor_log10 fuel' up num den else k
  end.

(** [c * 10^k] as a double. *)
Definition decimal_to_float (c k : Z) : float :=
  if 0 <=? k then nearest_float (c * 10 ^ k) 1 else nearest_float c (10 ^ (- k)).

(** The shortest decimal [c * 10^k] that reads back as the positive double
    [x = num / den]; of two of the same length the closer one. *)
Fixpoint shortest_digits (todo : nat) (n : Z) (x : float) (e10 num den : Z) : Z * Z :=
  let k := e10 - n + 1 in
  let lo := if 0 <=? k then num / (den * 10 ^ k) else num * 10 ^ (- k) / den in
  let hi := lo + 1 in
  let ok c := PrimFloat.eqb (decimal_to_float c k) x in
  (* twice the distance to x, scaled by den * 10^max(k,0) / 10^min(k,0) *)
  let lo_closer :=
    if 0 <=? k then 2 * num <=? (lo + hi) * (den * 10 ^ k)
    else 2 * num * 10 ^ (- k) <=? (lo + hi) * den in
  match todo with
  | O => (lo, k)
  | S todo' =>
      if ok lo && ok hi then (if lo_closer then (lo, k) else (hi, k))
      else if ok lo then (lo, k)
      else if ok hi then (hi, k)
      else shortest_digits todo' (n + 1) x e10 num den
  end.

Definition exponent_text (e : Z) : string :=
  let a := Z.abs e in
  (if e <? 0 then "e-" else "e+") ++ (if a <? 10 then "0" else EmptyString) ++ digits_of a.

(** [repr(x)] for a positive finite double. *)
Definition repr_positive (x : float) (m : positive) (e : Z) : string :=
  let num := if 0 <=? e then Z.pos m * 2 ^ e else Z.pos m in
  let den := if 0 <=? e then 1 else 2 ^ (- e) in
  let e10 := floor_log10 700 (-400) num den in
  let '(c, k) := shortest_digits 17 1 x e10 num den in
  let ds := rev (strip_trailing_zeros_rev (rev (string_to_list (digits_of c)))) in
  let k := k + Z.of_nat (length (string_to_list (digits_of c))) - Z.of_nat (length ds) in
  let n := Z.of_nat (length ds) in
  (* the value is 0.ds * 10^decpt *)
  let decpt := k + n in
  if (-4 <? decpt) && (decpt <=? 16) then
    if decpt <=? 0 then "0." ++ zeros (Z.to_nat (- decpt)) ++ list_to_string ds
    else if n <=? decpt then
      list_to_string ds ++ zeros (Z.to_nat (decpt - n)) ++ ".0"
    else
      list_to_string (take (Z.to_nat decpt) ds) ++ "."
        ++ list_to_string (drop (Z.to_nat decpt) ds)
  else
    match ds with
    | [] => "0.0"
    | d :: rest =>
        String d (match rest with [] => EmptyString | _ => "." ++ list_to_string rest end)
          ++ exponent_text (decpt - 1)
    end.

(** [repr(x)] for a float *)
Definition repr_float (x : float) : string :=
  match Prim2SF x with
  | S754_zero s => if s then "-0.0" else "0.0"
  | S754_infinity s => if s then "-inf" else "inf"
  | S754_nan => "nan"
  | S754_finite s m e =>
      (if s then "-" else EmptyString) ++ repr_positive (abs x) m e
  end.

Definition hex_digit (n : nat) : ascii :=
  ascii_of_nat (if (n <? 10)%nat then 48 + n else 87 + n).

Definition escape_char (quote : ascii) (c : ascii) : string :=
  let n := nat_of_ascii c in
  if char_eqb c "\" then "\\"
  else if char_eqb c quote then String "\" (String quote EmptyString)
  else if (n =? 10)%nat then "\n"
  else if (n =? 13)%nat then "\r"
  else if (n =? 9)%nat then "\t"
  else if ((n <? 32) || (n =? 127))%nat then
    "\x" ++ String (hex_digit (n / 16)) (String (hex_digit (n mod 16)) EmptyString)
  else String c EmptyString.

(** [repr(s)] for a str *)
Definition repr_string (s : string) : string :=
  let l := string_to_list s in
  let dquote : ascii := ascii_of_nat 34 in
  let quote : ascii :=
    if existsb (fun c => char_eqb c "'") l
       && negb (existsb (fun c => char_eqb c dquote) l)
    then dquote else "'"%char in
  String quote (String.concat EmptyString (map (escape_char quote) l))
    ++ String quote EmptyString.

Fixpoint join (sep : string) (l : list string) : string :=
  match l with
  | [] => EmptyString
  | [x] => x
  | x :: rest => x ++ sep ++ join sep rest
  end.

(** [repr(v)] *)
Fixpoint repr (v : pyval) : string :=
  match v with
  | VNone => "None"
  | VBool b => if b then "True" else "False"
  | VInt n => Z_to_string n
  | VFloat f => repr_float f
  | VStr s => repr_string s
  | VList l => "[" ++ join ", " (map repr l) ++ "]"
  | VDict d =>
      "{" ++ join ", " (map (fun kv => repr_string (fst kv) ++ ": " ++ repr (snd kv)) d)
        ++ "}"
  end.

(** Days since 1970-01-01 to the proleptic Gregorian (year, month, day). *)
Definition civil_from_days (days : Z) : Z * Z * Z :=
  let z := days + 719468 in
  let era := z / 146097 in
  let doe := z - era * 146097 in
  let yoe := (doe - doe / 1460 + doe / 36524 - doe / 146096) / 365 in
  let doy := doe - (365 * yoe + yoe / 4 - yoe / 100) in
  let mp := (5 * doy + 2) / 153 in
  let d := doy - (153 * mp + 2) / 5 + 1 in
  let m := if mp <? 10 then mp + 3 else mp - 9 in
  (yoe + era * 400 + (if m <=? 2 then 1 else 0), m, d).

Definition two_digits (n : Z) : string :=
  (if n <? 10 then "0" else EmptyString) ++ Z_to_string n.

(** [time.strftime("%Y-%m-%d", time.gmtime(x))]: [gmtime] fails when the
    year does not fit the C [int] field [tm_year]; glibc prints the year
    with as many digits as it has. *)
Definition strftime_ymd_gmtime (x : Z) : option string :=
  let '(y, m, d) := civil_from_days (x / 86400) in
  if (- 2147483648 <=? y - 1900) && (y - 1900 <=? 2147483647) then
    Some (Z_to_string y ++ "-" ++ two_digits m ++ "-" ++ two_digits d)
  else None.

End CPython.

#[export] Instance cpython : PyRuntime := {|
  float_of_string := CPython.float_of_string;
  py_repr := CPython.repr;
  strftime_ymd_gmtime := CPython.strftime_ymd_gmtime
|}.

(** ** Specification-side definitions and example data *)

(** What [derive_partnerships_from_batsmen] reads from one batsman:
    [b.get("id")], [int(b.get("runs") or 0)], [int(b.get("balls") or 0)]. *)
Definition batsman_entry (b : pyval) : result (pyval * Z * Z) :=
  let? pid := py_get b "id" in
  let? r := py_get b "runs" in
  let? runs := py_int (r ||| VInt 0) in
  let? bl := py_get b "balls" in
  let? balls := py_int (bl ||| VInt 0) in
  Ok (pid, runs, balls).

Fixpoint batsman_entries (batsmen : list pyval) : result (list (pyval * Z * Z)) :=
  match batsmen with
  | [] => Ok []
  | b :: rest =>
      let? e := batsman_entry b in
      let? es := batsman_entries rest in
      Ok (e :: es)
  end.

(** The pairs of the specification: after the opening pair, every further
    batsman closes a pair with the previous one, and the pair carries the
    newcomer's runs and balls only. *)
Fixpoint later_pairs (prev : pyval) (rest : list (pyval * Z * Z)) : list pyval :=
  match rest with
  | [] => []
  | (pid, runs, balls) :: rest' =>
      partnership prev pid runs balls :: later_pairs pid rest'
  end.

Definition spec_partnerships (entries : list (pyval * Z * Z)) : list pyval :=
  match entries with
  | (p1, r1, b1) :: (p2, r2, b2) :: rest =>
      partnership p1 p2 (r1 + r2) (b1 + b2) :: later_pairs p2 rest
  | _ => []
  end.

Definition batsman (id runs balls : Z) : pyval :=
  VDict [("id", VInt id); ("runs", VInt runs); ("balls", VInt balls)].

(** Four batsmen with runs [30,20,10,5] and balls [40,30,20,10]. *)
Definition four_batsmen : list pyval :=
  [batsman 1 30 40; batsman 2 20 30; batsman 3 10 20; batsman 4 5 10].

(** A key a payload does not supply, or supplies as 0. *)
Definition absent_or_zero (d : dict) (k : string) : Prop :=
  dict_lookup d k = None \/ dict_lookup d k = Some (VInt 0).

(** The identifier a team, player or series payload resolves to:
    [int(d.get(k1) or d.get(k2) or 0)].  It is 0 when both keys are
    missing or carry a falsy value (null, 0, 0.0, false, the empty text or
    an empty container) and when the first truthy value reads as zero
    (["0"], a fraction below one). *)
Definition resolved_id (d : dict) (k1 k2 : string) : result Z :=
  py_int (dict_get d k1 ||| dict_get d k2 ||| VInt 0).

(** The identifier a match payload resolves to:
    [_to_int(m.get("matchId") or m.get("id"))], [None] when there is none
    or it cannot be read as a number. *)
Definition resolved_match_id (m : dict) : option Z :=
  _to_int (dict_get m "matchId" ||| dict_get m "id") None.

(** No stored entity carries the identifier 0. *)
Definition no_zero_ids (d : DB) : Prop :=
  Forall (fun r => team_id r <> 0) (teams d)
  /\ Forall (fun r => player_id r <> 0) (players d)
  /\ Forall (fun r => series_id r <> 0) (series d)
  /\ Forall (fun r => match_id r <> 0) (matches d).

(** A string of the shape YYYY-MM-DD: ten characters, digits around two
    dashes. *)
Definition is_ymd (s : string) : bool :=
  match string_to_list s with
  | [y1; y2; y3; y4; d1; m1; m2; d2; a1; a2] =>
      forallb is_ascii_digit [y1; y2; y3; y4; m1; m2; a1; a2]
      && char_eqb d1 "-" && char_eqb d2 "-"
  | _ => false
  end.

(** The AUTO_INCREMENT counter of a table is ahead of every stored id. *)
Definition batting_ids_fresh (d : DB) : Prop :=
  Forall (fun r => bat_id r < batting_auto d) (batting_stats d).

(** Servers. *)
Definition ok_json (j : pyval) : http_outcome :=
  Resp {| status_code := 200; text := "(json)"; json := Some j |}.

Definition always (o : http_outcome) : string -> option dict -> nat -> http_outcome :=
  fun _ _ _ => o.

Definition deployment (server : string -> option dict -> nat -> http_outcome) : Deployment :=
  {| RAPIDAPI_KEY := Some "key"; RAPIDAPI_HOST := Some "cricbuzz-cricket.p.rapidapi.com";
     MAX_CALLS := 8000; http := server |}.

Definition rate_limited : Deployment :=
  deployment (always (Resp {| status_code := 429; text := "Too Many Requests";
                              json := None |})).

Definition unreachable : Deployment := deployment (always (NetFail ConnectionError)).

Definition not_json : Deployment :=
  deployment (always (Resp {| status_code := 200; text := "<html>"; json := None |})).

Definition empty_body : Deployment :=
  deployment (always (Resp {| status_code := 200; text := EmptyString; json := None |})).

Definition no_key : Deployment :=
  {| RAPIDAPI_KEY := None; RAPIDAPI_HOST := None; MAX_CALLS := 8000;
     http := always (ok_json (VDict [])) |}.

Definition teams_url : string :=
  "https://cricbuzz-cricket.p.rapidapi.com/teams/v1/international".

Definition players_url : string :=
  "https://cricbuzz-cricket.p.rapidapi.com/teams/v1/2/players".

(** One team; its roster is a player whose id is not a number, followed by
    a well-formed player.  Profiles are empty objects. *)
Definition roster_server (url : string) (_ : option dict) (_ : nat) : http_outcome :=
  if String.eqb url teams_url then
    ok_json (VDict [("list", VList [VDict [("teamId", VInt 2); ("teamName", VStr "India")]])])
  else if String.eqb url players_url then
    ok_json (VDict [("player",
                     VList [VDict [("id", VStr "abc"); ("name", VStr "Bad Row")];
                            VDict [("id", VInt 7); ("name", VStr "Good Row")]])])
  else ok_json (VDict [("name", VStr "profile")]).

(** The same roster without the malformed row. *)
Definition clean_roster_server (url : string) (_ : option dict) (_ : nat) : http_outcome :=
  if String.eqb url teams_url then
    ok_json (VDict [("list", VList [VDict [("teamId", VInt 2); ("teamName", VStr "India")]])])
  else if String.eqb url players_url then
    ok_json (VDict [("player",
                     VList [VDict [("id", VInt 7); ("name", VStr "Good Row")]])])
  else ok_json (VDict [("name", VStr "profile")]).

(** A store holding team 2, player 7 and match 100. *)
Definition fixture_db : DB :=
  set_matches
    [{| match_id := 100; match_series_id := None; match_team1_id := Some 2;
        match_team2_id := Some 2; match_date := Some "2024-01-15";
        match_venue_id := None; match_winner_id := None; match_win_margin := SNull;
        match_victory_type := None; match_toss_winner_id := None;
        match_toss_decision := SNull; match_format := SStr "ODI";
        match_description := SNull |}]
    (set_players
       [{| player_id := 7; player_name := SStr "Good Row"; player_role := SNull;
           player_bat_style := SNull; player_bowl_style := SNull;
           player_team_id := Some 2; player_country := SNull |}]
       (set_teams
          [{| team_id := 2; team_name := SStr "India"; team_short_name := SStr "IND";
              team_country := SStr "India" |}]
          empty_db)).

Definition fixture_world : World := with_committed fixture_db (with_db (fun _ => fixture_db) initial_world).

(** A batting line with runs 45 off 30 balls and no strike-rate field. *)
Definition batting_45_30 : dict :=
  [("id", VInt 7); ("runs", VInt 45); ("balls", VInt 30); ("fours", VInt 6);
   ("sixes", VInt 1); ("outDesc", VStr "not out")].

(** A batting line with runs 10 off 3 balls and no strike-rate field. *)
Definition batting_10_3 : dict :=
  [("id", VInt 7); ("runs", VInt 10); ("balls", VInt 3); ("fours", VInt 1);
   ("sixes", VInt 1); ("outDesc", VStr "c and b")].

Definition bowling_line : dict :=
  [("id", VInt 7); ("overs", VInt 4); ("runs", VInt 20); ("wickets", VInt 2)].

(** A match as first listed, and the same match listed again with a new
    result and without its date. *)
Definition match_first : dict :=
  [("matchId", VInt 100);
   ("team1", VDict [("teamId", VInt 1); ("teamName", VStr "India")]);
   ("team2", VDict [("teamId", VInt 2); ("teamName", VStr "Australia")]);
   ("matchDate", VStr "2024-01-15");
   ("status", VStr "In progress")].

Definition match_again : dict :=
  [("matchId", VInt 100);
   ("team1", VDict [("teamId", VInt 1); ("teamName", VStr "India")]);
   ("team2", VDict [("teamId", VInt 2); ("teamName", VStr "Australia")]);
   ("status", VStr "India won by 5 wickets")].

(** The world after running [c] from [w]. *)
Definition after {A} (c : M A) (w : World) : World := snd (c w).

(** The pairs emitted from a state holding [prev] with the accumulators
    [ra] and [ba]. *)
Definition pairs_from (prev : pyval) (ra ba : Z) (entries : list (pyval * Z * Z)) : list pyval :=
  match entries with
  | [] => []
  | (pid, runs, balls) :: rest =>
      partnership prev pid (ra + runs) (ba + balls) :: later_pairs pid rest
  end.

(** The capacity stored for the venue [vid], when there is such a venue. *)
Definition stored_capacity (d : DB) (vid : Z) : option (option Z) :=
  option_map venue_capacity (find (fun r => venue_id r =? vid) (venues d)).

(** The matches table of [d] is the one [w] sees. *)
Definition same_matches (w : World) (d : DB) : Prop := matches d = matches (db w).

(** The row stored for the match [mid]. *)
Definition stored_match (d : DB) (mid : Z) : option match_row :=
  find (fun r => match_id r =? mid) (matches d).

Section PayloadViews.
Context `{RT : PyRuntime}.

(** What a match payload says about the victory type:
    [result.get("resultType") or result.get("victoryType") or m.get("status")]
    with [result = m.get("result") or {}]. *)
Definition payload_victory_type (m : dict) : result pyval :=
  let result := dict_get m "result" ||| VDict [] in
  let? rt := py_get result "resultType" in
  let? rt := py_or_else rt (py_get result "victoryType") in
  Ok (rt ||| dict_get m "status").

(** [_to_date(m.get("matchDate") or m.get("startDate") or m.get("startTime"))] *)
Definition payload_match_date (m : dict) : option string :=
  _to_date (dict_get m "matchDate" ||| dict_get m "startDate" ||| dict_get m "startTime").

(** The identifier a batting or bowling line names. *)
Definition payload_player_id (b : dict) : result Z :=
  py_int (dict_get b "playerId" ||| dict_get b "id" ||| VInt 0).

Definition payload_runs (b : dict) : Z :=
  default 0 (safe_int (dict_get b "runs") (Some 0)).

Definition payload_balls (b : dict) : Z :=
  default 0 (safe_int (dict_get b "balls" ||| dict_get b "ballsFaced") (Some 0)).

End PayloadViews.

(** ** The strike rate in the words of the specification *)

(** The double that holds the integer [z] exactly ([0 <= z < 2^53]). *)
Definition exact_float (z : Z) : float := PrimFloat.of_uint63 (Uint63.of_Z z).

(** [n] is the integer nearest to the fraction [num / den] ([0 < den]); of
    two integers equally near, it is the even one. *)
Definition nearest_even (num den n : Z) : Prop :=
  2 * Z.abs (num - n * den) <= den
  /\ (2 * Z.abs (num - n * den) = den -> Z.even n = true).

(** [n] hundredths is the double [x] rounded to two decimals: [n] is the
    integer nearest to 100 times the exact value of [x], which is
    [v * 2^e] for the mantissa [v] and the exponent [e] of [x]. *)
Definition rounds_to_hundredths (x : float) (n : Z) : Prop :=
  match Prim2SF x with
  | S754_zero _ => n = 0
  | S754_finite s m e =>
      let v := if s then Z.neg m else Z.pos m in
      nearest_even (v * 100 * 2 ^ Z.max e 0) (2 ^ Z.max (- e) 0) n
  | _ => False
  end.

(** Runs divided by balls times 100, rounded to two decimals.  The
    quotient and the product are the IEEE 754 operations on doubles, the
    product is rounded to [n] hundredths, and the result is the double
    nearest to the decimal [n / 100] (the IEEE quotient of [n] by 100). *)
Definition strike_rate_spec (runs balls : Z) (sr : float) : Prop :=
  exists n,
    rounds_to_hundredths (exact_float runs / exact_float balls * 100)%float n
    /\ sr = (exact_float n / 100)%float.

(** A venue ingested with capacity 50,000. *)
Definition eden : M (option Z) :=
  get_or_create_venue (VStr "Eden Gardens") (VStr "Kolkata") (VStr "India") (VInt 50000).

Definition eden_again (capacity : pyval) : M (option Z) :=
  get_or_create_venue (VStr "Eden Gardens") (VStr "Kolkata") (VStr "India") capacity.

(** A property of the store that a computation keeps, whatever it returns
    or raises. *)
Definition keeps {A} (I : DB -> Prop) (c : M A) : Prop :=
  forall w r w', c w = (r, w') -> I (db w) -> I (db w').

(** The victory type of the result fields [f] is the text [s]. *)
Definition settled (s : string) (f : result_fields) : Prop :=
  victory_type f = Some s.

(** A property of the whole world that a computation keeps, whatever it
    returns or raises. *)
Definition holds {A} (I : World -> Prop) (c : M A) : Prop :=
  forall w r w', c w = (r, w') -> I w -> I w'.

(** A property of the world that does not look at the store, the console
    or the committed snapshot. *)
Definition fetch_only (I : World -> Prop) : Prop :=
  (forall f w, I w -> I (with_db f w))
  /\ (forall c w, I w -> I (with_committed c w))
  /\ (forall c w, I w -> I (with_console c w)).


(** The runs a list of batsman entries adds up to, and the runs carried by
    a list of derived partnerships. *)
Definition entries_runs (entries : list (pyval * Z * Z)) : Z :=
  fold_right (fun e acc => snd (fst e) + acc) 0 entries.

Definition partnership_runs (p : pyval) : Z :=
  match p with
  | VDict d => match dict_get d "runs" with VInt n => n | _ => 0 end
  | _ => 0
  end.

Definition partnerships_runs (ps : list pyval) : Z :=
  fold_right (fun p acc => partnership_runs p + acc) 0 ps.

(** The row stored for the team [id]. *)
Definition stored_team (d : DB) (id : Z) : option team_row :=
  find (fun r => team_id r =? id) (teams d).

(** Every stored fact row points to a stored match and a stored player. *)
Definition facts_reference (d : DB) : Prop :=
  Forall (fun r => has_match d (bat_match_id r) = true
                   /\ has_player d (bat_player_id r) = true) (batting_stats d)
  /\ Forall (fun r => has_match d (bowl_match_id r) = true
                      /\ has_player d (bowl_player_id r) = true) (bowling_stats d)
  /\ Forall (fun r => has_match d (field_match_id r) = true
                      /\ has_player d (field_player_id r) = true) (fielding_stats d).


Definition outside_bowling (d : DB) :=
  (teams d, players d, series d, venues d, venues_auto d, matches d,
   batting_stats d, batting_auto d, fielding_stats d, fielding_auto d).

Definition outside_fielding (d : DB) :=
  (teams d, players d, series d, venues d, venues_auto d, matches d,
   batting_stats d, batting_auto d, bowling_stats d, bowling_auto d).

(** A statement parameter that is text or null. *)
Definition text_or_null (v : pyval) : Prop :=
  match v with VStr _ | VNone => True | _ => False end.

(** The time [api_get] sleeps over [k] retries that follow attempt number
    [attempt]: [backoff * (attempt + 1) + ... + backoff * (attempt + k)]. *)
Fixpoint waits (backoff_ms attempt : Z) (k : nat) : Z :=
  match k with
  | O => 0
  | S k' => backoff_ms * (attempt + 1) + waits backoff_ms (attempt + 1) k'
  end.


(** The request numbered [n] for [url] gets no usable answer: the network
    fails, the status is an error status, or the body is not JSON. *)
Definition fetch_failed (D : Deployment) (url : string) (params : option dict) (n : nat) : Prop :=
  match http D url params n with
  | NetFail _ => True
  | Resp r => 400 <= status_code r \/ json r = None
  end.


(** A property of the store that a computation keeps whenever it raises. *)
Definition keeps_when_raising {A} (I : DB -> Prop) (c : M A) : Prop :=
  forall w e w', c w = (Raise e, w') -> I (db w) -> I (db w').

(** The identifier [upsert_match_basic] reads for the team under the key
    [k] (["team1"] or ["team2"]) of a match payload; 0 when there is none. *)
Definition payload_team_id (m : dict) (k : string) : result Z :=
  let t := dict_get m k ||| VDict [] ||| VDict [] in
  let? a := py_get t "teamId" in
  let? x := py_or_else a (py_get t "id") in
  Ok (default 0 (_to_int x (Some 0))).

(** The venue fields [upsert_match_basic] reads from a match payload: name,
    city, country and capacity, with [vinfo = m.get("venueInfo") or
    m.get("venue") or {}]. *)
Definition payload_venue (m : dict) : result (pyval * pyval * pyval * pyval) :=
  let vinfo := dict_get m "venueInfo" ||| dict_get m "venue" ||| VDict [] in
  let? ground := py_get vinfo "ground" in
  let? name := py_or_else ground (py_get vinfo "name") in
  let? city := py_get vinfo "city" in
  let? country := py_get vinfo "country" in
  let? capacity := py_get vinfo "capacity" in
  Ok (name, city, country, capacity).

(** [m.get("matchFormat") or m.get("format")] *)
Definition payload_format (m : dict) : pyval :=
  dict_get m "matchFormat" ||| dict_get m "format".

(** [m.get("matchDescription") or m.get("matchDesc") or m.get("seriesName")
    or m.get("status")] *)
Definition payload_description (m : dict) : pyval :=
  dict_get m "matchDescription" ||| dict_get m "matchDesc"
  ||| dict_get m "seriesName" ||| dict_get m "status".

(** The world [w] seen with the store [d]: everything but the store is as
    in [w]. *)
Definition with_store (d : DB) (w : World) : World := with_db (fun _ => d) w.

(** A text of at most [n] characters, or null. *)
Definition fits (n : nat) (o : option string) : Prop :=
  match o with
  | Some s => (String.length s <= n)%nat
  | None => True
  end.

(** Every stored victory type has at most 50 characters. *)
Definition victory_types_fit (d : DB) : Prop :=
  Forall (fun r => fits 50 (match_victory_type r)) (matches d).

Section FactViews.
Context `{RT : PyRuntime}.


End FactViews.

(** Every player points to a stored team (or to none) and every match to
    a stored series, stored teams and a stored venue (or to none). *)
Definition entities_reference (d : DB) : Prop :=
  Forall (fun r => fk_ok (has_team d) (player_team_id r) = true) (players d)
  /\ Forall (fun r => fk_ok (has_series d) (match_series_id r) = true
                      /\ fk_ok (has_team d) (match_team1_id r) = true
                      /\ fk_ok (has_team d) (match_team2_id r) = true
                      /\ fk_ok (has_venue d) (match_venue_id r) = true) (matches d).

(** The foreign keys declared by [init_schema] all hold. *)
Definition referential_integrity (d : DB) : Prop :=
  entities_reference d /\ facts_reference d.

(** The AUTO_INCREMENT counters of the bowling and fielding tables are
    ahead of every stored id. *)
Definition bowling_ids_fresh (d : DB) : Prop :=
  Forall (fun r => bowl_id r < bowling_auto d) (bowling_stats d).

Definition fielding_ids_fresh (d : DB) : Prop :=
  Forall (fun r => field_id r < fielding_auto d) (fielding_stats d).

(** The row stored for the player [pid]. *)
Definition stored_player (d : DB) (pid : Z) : option player_row :=
  find (fun r => player_id r =? pid) (players d).

(** * Properties *)

(** ** Reasoning about [M] *)

Lemma bind_ok_inv {A B} (c : M A) (k : A -> M B) w b w' :
  bind c k w = (Ok b, w') ->
  exists a w1, c w = (Ok a, w1) /\ k a w1 = (Ok b, w').
Proof.
  unfold bind. destruct (c w) as [[a | e] w1]; intros H.
  - eauto.
  - discriminate.
Qed.

Lemma bind_inv {A B} (c : M A) (k : A -> M B) w r w' :
  bind c k w = (r, w') ->
  (exists e, c w = (Raise e, w') /\ r = Raise e)
  \/ (exists a w1, c w = (Ok a, w1) /\ k a w1 = (r, w')).
Proof.
  unfold bind. destruct (c w) as [[a | e] w1]; intros H.
  - right. eauto.
  - left. inversion H; subst. eauto.
Qed.

Lemma lift_inv {A} (x : result A) w r w' :
  lift x w = (r, w') -> r = x /\ w' = w.
Proof. unfold lift. intros H. inversion H. auto. Qed.

Lemma ret_inv {A} (a : A) w r w' :
  ret a w = (r, w') -> r = Ok a /\ w' = w.
Proof. unfold ret. intros H. inversion H. auto. Qed.

Lemma keeps_ret {A} I (a : A) : keeps I (ret a).
Proof. intros w r w' H. apply ret_inv in H as [_ ->]. auto. Qed.

Lemma keeps_raise {A} I e : keeps I (@raise A e).
Proof. intros w r w' H. inversion H; subst. auto. Qed.

Lemma keeps_lift {A} I (x : result A) : keeps I (lift x).
Proof. intros w r w' H. apply lift_inv in H as [_ ->]. auto. Qed.

Lemma keeps_bind {A B} I (c : M A) (k : A -> M B) :
  keeps I c -> (forall a, keeps I (k a)) -> keeps I (bind c k).
Proof.
  intros Hc Hk w r w' H HI.
  apply bind_inv in H as [(e & H & _) | (a & w1 & H1 & H2)].
  - eapply Hc; eauto.
  - eapply Hk; eauto.
Qed.

Lemma keeps_try_except {A} I (c : M A) (h : exn -> M A) :
  keeps I c -> (forall e, keeps I (h e)) -> keeps I (try_except c h).
Proof.
  intros Hc Hh w r w' H HI. unfold try_except in H.
  destruct (c w) as [[a | e] w1] eqn:E.
  - inversion H; subst. eapply Hc; eauto.
  - eapply Hh; eauto.
Qed.

Lemma keeps_print I m : keeps I (print m).
Proof. intros w r w' H. inversion H; subst. auto. Qed.

Lemma keeps_sleep I ms : keeps I (sleep ms).
Proof.
  intros w r w' H. unfold sleep in H.
  destruct (ms <? 0); inversion H; subst; auto.
Qed.

Lemma keeps_commit I : keeps I commit.
Proof. intros w r w' H. inversion H; subst. auto. Qed.

Lemma keeps_for_each {A} I (l : list A) (body : A -> M unit) :
  (forall x, keeps I (body x)) -> keeps I (for_each l body).
Proof.
  intros Hb. induction l as [| x l IH]; simpl.
  - apply keeps_ret.
  - apply keeps_bind; auto.
Qed.

Lemma keeps_if {A} I (b : bool) (c1 c2 : M A) :
  keeps I c1 -> keeps I c2 -> keeps I (if b then c1 else c2).
Proof. destruct b; auto. Qed.

Create HintDb keeps.
#[local] Hint Resolve keeps_ret keeps_raise keeps_lift keeps_print keeps_sleep
  keeps_commit : keeps.

Lemma keeps_write {A} (I : DB -> Prop) (a : A) (f : DB -> DB) :
  (forall d, I d -> I (f d)) -> keeps I (fun w => (Ok a, with_db f w)).
Proof. intros Hf w r w' H HI. inversion H; subst. simpl. auto. Qed.

Lemma keeps_guarded_write {A} (I : DB -> Prop) (a : A) (g : World -> bool)
    (f : DB -> DB) (e : exn) :
  (forall d, I d -> I (f d)) ->
  keeps I (fun w => if g w then (Ok a, with_db f w) else (Raise e, w)).
Proof.
  intros Hf w r w' H HI. destruct (g w); inversion H; subst; simpl; auto.
Qed.

(** ** The fetch layer never writes to the store and never raises past its
    two guards *)

Section FetchFacts.
Context (D : Deployment).

Lemma api_get_try_outcome url params w r w' :
  api_get_try D url params w = (r, w') ->
  db w' = db w /\ (forall e, r = Raise e -> exists re, e = RequestError re).
Proof.
  unfold api_get_try, requests_get, raise_for_status, bind, print, ret, raise.
  destruct (http D url params (requests_sent w)) as [e | resp]; simpl.
  - intros H; inversion H; subst. split; [reflexivity |].
    intros e' He; inversion He; eauto.
  - destruct ((400 <=? status_code resp) && (status_code resp <? 600)); simpl.
    + intros H; inversion H; subst. split; [reflexivity |].
      intros e' He; inversion He; eauto.
    + destruct (json resp); simpl; intros H; inversion H; subst;
        (split; [reflexivity | intros e' He; discriminate]).
Qed.

Lemma sleep_nonneg ms w :
  0 <= ms ->
  sleep ms w = (Ok tt, with_client (clock w + ms) (last_api_call w) (call_count w) w).
Proof. intros H. unfold sleep. destruct (ms <? 0) eqn:E; [lia | reflexivity]. Qed.

Lemma api_get_loop_returns left url params retries backoff attempt w :
  0 <= backoff -> 0 <= attempt ->
  exists v w', api_get_loop D left url params retries backoff attempt w = (Ok v, w')
               /\ db w' = db w.
Proof.
  intros Hb. revert attempt w.
  induction left as [| left IH]; intros attempt w Ha; simpl;
    unfold try_except;
    destruct (api_get_try D url params w) as [[v | e] w1] eqn:E;
    apply api_get_try_outcome in E as [Hdb Hexn].
  - eauto.
  - destruct (Hexn e eq_refl) as [re ->].
    destruct (attempt + 1 >? retries); [simpl; eauto |].
    unfold bind, print. rewrite sleep_nonneg by nia. simpl. eauto.
  - eauto.
  - destruct (Hexn e eq_refl) as [re ->].
    destruct (attempt + 1 >? retries); [simpl; eauto |].
    unfold bind, print. rewrite sleep_nonneg by nia.
    match goal with |- context [api_get_loop D left _ _ _ _ _ ?w2] =>
      destruct (IH (attempt + 1) w2 ltac:(lia)) as (v & w' & -> & Hdb') end.
    exists v, w'. split; [reflexivity |]. rewrite Hdb'. simpl. exact Hdb.
Qed.

(** The counter [left] never runs out before the loop returns: any two
    values at least [retries - attempt] give the same run. *)
Lemma api_get_loop_fuel url params retries backoff :
  forall left1 left2 attempt w,
    (Z.to_nat (retries - attempt) <= left1)%nat ->
    (Z.to_nat (retries - attempt) <= left2)%nat ->
    api_get_loop D left1 url params retries backoff attempt w
    = api_get_loop D left2 url params retries backoff attempt w.
Proof.
  induction left1 as [| left1 IH]; intros left2 attempt w H1 H2.
  - destruct left2 as [| left2]; [reflexivity |].
    simpl. unfold try_except.
    destruct (api_get_try D url params w) as [[v | e] w1]; [reflexivity |].
    destruct e; try reflexivity.
    destruct (attempt + 1 >? retries) eqn:G; [reflexivity |]. lia.
  - destruct left2 as [| left2].
    + simpl. unfold try_except.
      destruct (api_get_try D url params w) as [[v | e] w1]; [reflexivity |].
      destruct e; try reflexivity.
      destruct (attempt + 1 >? retries) eqn:G; [reflexivity |]. lia.
    + simpl. unfold try_except.
      destruct (api_get_try D url params w) as [[v | e] w1]; [reflexivity |].
      destruct e; try reflexivity.
      destruct (attempt + 1 >? retries) eqn:G; [reflexivity |].
      unfold bind, print, sleep; simpl.
      destruct (backoff * (attempt + 1) <? 0); [reflexivity |].
      apply IH; lia.
Qed.

Lemma api_get_outcome url params w r w' :
  api_get D url params w = (r, w') ->
  db w' = db w.
Proof.
  unfold api_get, api_get_with.
  destruct (key_missing D); [intros H; inversion H; reflexivity |].
  destruct (API_CALLS w >=? MAX_CALLS D); [intros H; inversion H; reflexivity |].
  intros H.
  destruct (api_get_loop_returns (Z.to_nat 5) url params 5 800 0 w ltac:(lia) ltac:(lia))
    as (v & w2 & E & Hdb).
  rewrite E in H. inversion H; subst. exact Hdb.
Qed.

Lemma keeps_api_get I url params : keeps I (api_get D url params).
Proof.
  intros w r w' H HI. apply api_get_outcome in H. rewrite H. exact HI.
Qed.

End FetchFacts.

Ltac keeps_auto :=
  repeat first
    [ solve [auto with keeps nocore]
    | apply keeps_ret | apply keeps_raise | apply keeps_lift | apply keeps_print
    | apply keeps_commit | apply keeps_sleep | apply keeps_api_get
    | apply keeps_bind; [| intros ?]
    | apply keeps_try_except; [| intros ?]
    | apply keeps_for_each; intros ?
    | match goal with
      | |- keeps _ (if ?b then _ else _) => destruct b eqn:?
      | |- keeps _ (match ?x with _ => _ end) => destruct x eqn:?
      end ].

(** ** C9: the two fatal preconditions of the GET wrapper *)



(** ** C4: what a fetch returns on HTTP 429 *)

(** C4 (the code departs from the claim). Against a server that answers
    429 to every request, [api_get] sends the request six times (the first
    try and five retries) and returns [None], the very value it returns
    when the server cannot be reached at all and when the body is not JSON
    or empty; [make_api_request] sends one request and returns [None] as
    well, as it does for a body that is not JSON. *)
Theorem api_get_429_retried_and_untagged url params :
  let run D := api_get D url params initial_world in
  fst (run rate_limited) = Ok VNone
  /\ requests_sent (snd (run rate_limited)) = 6%nat
  /\ fst (run unreachable) = Ok VNone
  /\ fst (run not_json) = Ok VNone
  /\ fst (run empty_body) = Ok VNone
  /\ fst (make_api_request rate_limited url params initial_world) = Ok VNone
  /\ requests_sent (snd (make_api_request rate_limited url params initial_world)) = 1%nat
  /\ fst (make_api_request not_json url params initial_world) = Ok VNone.
Proof. repeat split; reflexivity. Qed.

(** ** C5: one malformed player in a roster *)

(** C5 (the code departs from the claim). With a roster whose first player
    has the id "abc", [load_teams_and_players] raises ValueError out of the
    whole load: nothing is logged and the well-formed player after it is
    never stored.  Without the malformed row the same load stores that
    player. *)
Theorem load_teams_and_players_aborts_on_malformed_player :
  let bad := load_teams_and_players (deployment roster_server) initial_world in
  let good := load_teams_and_players (deployment clean_roster_server) initial_world in
  fst bad = Raise ValueError
  /\ players (db (snd bad)) = []
  /\ console (snd bad) = []
  /\ fst good = Ok tt
  /\ map player_id (players (db (snd good))) = [7].
Proof. vm_compute. repeat split; reflexivity. Qed.

(** ** C1: ingesting the same fact rows twice *)

(** C1 (the code departs from the claim). Inserting the same batting line,
    bowling line and fielding line a second time for the same match, player
    and innings adds a second row to each table: the tables hold one row
    each after the first ingestion and two after the second. *)
Theorem ingesting_twice_duplicates_fact_rows :
  let ingest : M unit :=
    insert_batting_score 100 1 (VInt 2) batting_45_30 (Some 1) ;;
    insert_bowling_figures 100 1 (VInt 2) bowling_line ;;
    insert_fielding 100 7 (VInt 1) (VInt 0) in
  let once := ingest fixture_world in
  let twice := (ingest ;; ingest) fixture_world in
  fst once = Ok tt /\ fst twice = Ok tt
  /\ length (batting_stats (db (snd once))) = 1%nat
  /\ length (batting_stats (db (snd twice))) = 2%nat
  /\ length (bowling_stats (db (snd once))) = 1%nat
  /\ length (bowling_stats (db (snd twice))) = 2%nat
  /\ length (fielding_stats (db (snd once))) = 1%nat
  /\ length (fielding_stats (db (snd twice))) = 2%nat
  /\ map (fun r => (bat_match_id r, bat_player_id r, bat_innings_no r))
         (batting_stats (db (snd twice))) = [(100, 7, 1); (100, 7, 1)].
Proof. vm_compute. repeat split; reflexivity. Qed.

(** ** C3: partnerships derived from the batting order *)

Lemma pair_step_entry st b pid runs balls :
  batsman_entry b = Ok (pid, runs, balls) ->
  pair_step st b =
    let pair := (current_pair st ++ [pid])%list in
    if (length pair =? 2)%nat then
      Ok {| partnerships :=
              (partnerships st ++
                 [partnership (nth 0 pair VNone) (nth 1 pair VNone)
                    (runs_accum st + runs) (balls_accum st + balls)])%list;
            current_pair := [nth 1 pair VNone];
            runs_accum := 0; balls_accum := 0 |}
    else
      Ok {| partnerships := partnerships st; current_pair := pair;
            runs_accum := runs_accum st + runs;
            balls_accum := balls_accum st + balls |}.
Proof.
  unfold batsman_entry, pair_step. intros H.
  destruct (py_get b "id") as [pid' |]; simpl in *; [| discriminate].
  destruct (py_get b "runs") as [r |]; simpl in *; [| discriminate].
  destruct (py_int (r ||| VInt 0)) as [runs' |]; simpl in *; [| discriminate].
  destruct (py_get b "balls") as [bl |]; simpl in *; [| discriminate].
  destruct (py_int (bl ||| VInt 0)) as [balls' |]; simpl in *; [| discriminate].
  inversion H; subst. reflexivity.
Qed.

Lemma pair_loop_from rest :
  forall entries prev ps ra ba,
    batsman_entries rest = Ok entries ->
    exists st,
      pair_loop {| partnerships := ps; current_pair := [prev];
                   runs_accum := ra; balls_accum := ba |} rest = Ok st
      /\ partnerships st = (ps ++ pairs_from prev ra ba entries)%list.
Proof.
  induction rest as [| b rest IH]; intros entries prev ps ra ba H; simpl in *.
  - inversion H; subst. eexists. split; [reflexivity |].
    simpl. rewrite app_nil_r. reflexivity.
  - destruct (batsman_entry b) as [[[pid runs] balls] |] eqn:Eb; simpl in H; [| discriminate].
    destruct (batsman_entries rest) as [es |] eqn:Er; simpl in H; [| discriminate].
    inversion H; subst.
    rewrite (pair_step_entry _ _ _ _ _ Eb). simpl.
    destruct (IH es pid (ps ++ [partnership prev pid (ra + runs) (ba + balls)])%list 0 0 eq_refl)
      as (st & Hst & Hps).
    exists st. split; [exact Hst |].
    rewrite Hps. rewrite <- app_assoc. simpl.
    destruct es as [| [[p r] bl] es']; reflexivity.
Qed.

(** C3. For every batsmen list whose entries can be read (each is an
    object whose runs and balls are integers), the derived partnerships
    are exactly those of the specification: the first two batsmen form the
    opening pair with their runs and balls summed, and every later batsman
    forms a pair with the batsman before him that carries, the accumulator
    having been reset to zero, his own runs and balls only. *)
Theorem derive_partnerships_spec (batsmen : list pyval) (entries : list (pyval * Z * Z)) :
  batsman_entries batsmen = Ok entries ->
  derive_partnerships_from_batsmen batsmen = Ok (spec_partnerships entries).
Proof.
  unfold derive_partnerships_from_batsmen.
  destruct batsmen as [| b rest]; simpl; intros H.
  - inversion H; subst. reflexivity.
  - destruct (batsman_entry b) as [[[pid runs] balls] |] eqn:Eb; simpl in H; [| discriminate].
    destruct (batsman_entries rest) as [es |] eqn:Er; simpl in H; [| discriminate].
    inversion H; subst.
    rewrite (pair_step_entry _ _ _ _ _ Eb). simpl.
    destruct (pair_loop_from rest es pid [] (0 + runs) (0 + balls) Er) as (st & Hst & Hps).
    rewrite Hst. simpl. rewrite Hps. simpl.
    destruct es as [| [[p r] bl] es']; reflexivity.
Qed.

Lemma derive_partnerships_spec_witness :
  derive_partnerships_from_batsmen four_batsmen
  = Ok [partnership (VInt 1) (VInt 2) 50 70;
        partnership (VInt 2) (VInt 3) 10 20;
        partnership (VInt 3) (VInt 4) 5 10].
Proof.
  apply (derive_partnerships_spec four_batsmen
           [(VInt 1, 30, 40); (VInt 2, 20, 30); (VInt 3, 10, 20); (VInt 4, 5, 10)]).
  reflexivity.
Defined.

(** ** C8 and X28: the date normaliser *)

Lemma digit_is_not_special c :
  is_ascii_digit c = true ->
  is_num_space c = false /\ char_eqb c "-" = false /\ char_eqb c "+" = false.
Proof.
  destruct c as [[] [] [] [] [] [] [] []]; vm_compute; intros H;
    try discriminate; auto.
Qed.

Lemma parse_digits_all_digits l :
  forallb is_ascii_digit l = true ->
  forall acc b, (l <> [] \/ b = true) -> exists n, parse_digits acc b l = Some n.
Proof.
  induction l as [| c l IH]; simpl; intros H acc b Hb.
  - destruct Hb as [Hb | ->]; [congruence | eauto].
  - apply andb_true_iff in H as [Hc Hl]. rewrite Hc.
    apply IH; auto.
Qed.

Lemma lstrip_digits l :
  forallb is_ascii_digit l = true -> lstrip is_num_space l = l.
Proof.
  destruct l as [| c l]; simpl; [reflexivity |].
  intros H. apply andb_true_iff in H as [Hc _].
  destruct (digit_is_not_special c Hc) as (-> & _). reflexivity.
Qed.

Lemma forallb_rev {A} (p : A -> bool) l :
  forallb p l = true -> forallb p (rev l) = true.
Proof.
  rewrite !forallb_forall. intros H x Hx. apply H. apply in_rev. exact Hx.
Qed.

Lemma strip_digits l :
  forallb is_ascii_digit l = true -> strip_list is_num_space l = l.
Proof.
  intros H. unfold strip_list.
  rewrite (lstrip_digits l H).
  rewrite (lstrip_digits (rev l) (forallb_rev _ _ H)).
  apply rev_involutive.
Qed.

Lemma int_of_string_digits s :
  py_isdigit s = true -> exists n, int_of_string s = Ok n.
Proof.
  unfold py_isdigit, int_of_string.
  destruct (string_to_list s) as [| c l] eqn:E; [discriminate |].
  intros H. rewrite (strip_digits _ H).
  pose proof H as H'. simpl in H'. apply andb_true_iff in H' as [Hc _].
  destruct (digit_is_not_special c Hc) as (_ & -> & ->).
  destruct (parse_digits_all_digits (c :: l) H 0 false) as [n ->]; [left; discriminate |].
  eauto.
Qed.

Lemma get_in_list i s c :
  String.get i s = Some c -> In c (string_to_list s).
Proof.
  revert i. induction s as [| a s IH]; intros i; simpl; [discriminate |].
  destruct i as [| i]; intros H.
  - inversion H. auto.
  - right. eapply IH. exact H.
Qed.

Lemma digits_not_iso_like s :
  py_isdigit s = true -> iso_like s = false.
Proof.
  unfold py_isdigit, iso_like, string_nth. intros H.
  destruct (String.get 4 s) as [c |] eqn:G.
  - assert (Hc : is_ascii_digit c = true).
    { apply get_in_list in G. destruct (string_to_list s); [discriminate |].
      rewrite forallb_forall in H. auto. }
    destruct (digit_is_not_special c Hc) as (_ & -> & _).
    rewrite andb_false_r. reflexivity.
  - rewrite andb_false_r. reflexivity.
Qed.

Lemma iso_like_prefix s :
  iso_like s = true ->
  String.length (string_take 10 s) = 10%nat
  /\ String.get 4 (string_take 10 s) = Some "-"%char
  /\ String.get 7 (string_take 10 s) = Some "-"%char.
Proof.
  unfold iso_like, string_nth.
  destruct s as [| c0 [| c1 [| c2 [| c3 [| c4 [| c5 [| c6 [| c7 [| c8 [| c9 s]]]]]]]]]];
    simpl; try discriminate.
  intros H. apply andb_true_iff in H as [H4 H7].
  unfold char_eqb in *. apply Ascii.eqb_eq in H4, H7. subst. auto.
Qed.

Section DateFacts.
Context `{RT : PyRuntime}.

(** X28. What [_to_date] returns, case by case.  [_to_date] is a total
    function into [Optional[str]] (it cannot raise).  It answers null for
    null.  A number is truncated to an integer [x] and rendered by the
    platform's
    [strftime("%Y-%m-%d", gmtime(...))] of [x // 1000] when
    [x > 10_000_000_000] and of [x] otherwise, with null when the number is
    not finite or the platform refuses it.  Any other value is taken as the
    text [str(value)]: text with at least ten characters and dashes at
    positions 4 and 7 gives its first ten characters, unchecked (so ten
    characters with those two dashes, not necessarily digits); all-digit
    text gives what the integer it spells gives; all other text gives null.
    Hence a non-null answer is either such a ten-character prefix or a
    rendering by the platform. *)
Theorem to_date_spec :
  _to_date VNone = None
  /\ (forall x, _to_date (VInt x)
                = strftime_ymd_gmtime (if x >? 10000000000 then x / 1000 else x))
  /\ (forall b, _to_date (VBool b) = _to_date (VInt (if b then 1 else 0)))
  /\ (forall f, _to_date (VFloat f)
                = match int_of_float f with
                  | Ok x => _to_date (VInt x)
                  | Raise _ => None
                  end)
  /\ (forall v, match v with VStr _ | VList _ | VDict _ => True | _ => False end ->
                _to_date v = _to_date (VStr (py_str v)))
  /\ (forall s, iso_like s = true ->
                _to_date (VStr s) = Some (string_take 10 s)
                /\ String.length (string_take 10 s) = 10%nat
                /\ String.get 4 (string_take 10 s) = Some "-"%char
                /\ String.get 7 (string_take 10 s) = Some "-"%char)
  /\ (forall s, py_isdigit s = true ->
                exists n, int_of_string s = Ok n /\ _to_date (VStr s) = _to_date (VInt n))
  /\ (forall s, iso_like s = false -> py_isdigit s = false -> _to_date (VStr s) = None)
  /\ (forall v d, _to_date v = Some d ->
                  (exists x, strftime_ymd_gmtime x = Some d)
                  \/ (d = string_take 10 (py_str v) /\ iso_like (py_str v) = true)).
Proof.
  split; [reflexivity |].
  split; [intros x; reflexivity |].
  split; [intros b; reflexivity |].
  split; [intros f; simpl; destruct (int_of_float f); reflexivity |].
  split; [intros v Hv; destruct v; try contradiction; reflexivity |].
  split.
  { intros s H. split; [simpl; rewrite H; reflexivity | apply iso_like_prefix; exact H]. }
  split.
  { intros s H. destruct (int_of_string_digits s H) as [n Hn].
    exists n. split; [exact Hn |].
    simpl. rewrite (digits_not_iso_like s H), H, Hn. reflexivity. }
  split.
  { intros s H1 H2. simpl. rewrite H1, H2. reflexivity. }
  intros v d H.
    assert (Hnum : forall r, match r with Ok x => epoch_to_date x | Raise _ => None end = Some d ->
                             exists x, strftime_ymd_gmtime x = Some d).
    { intros [x | e] Hx; [| discriminate]. unfold epoch_to_date in Hx. eauto. }
    assert (Htxt : forall s,
               (if iso_like s then Some (string_take 10 s)
                else if py_isdigit s
                     then match int_of_string s with
                          | Ok x => epoch_to_date x
                          | Raise _ => None
                          end
                     else None) = Some d ->
               (exists x, strftime_ymd_gmtime x = Some d)
               \/ (d = string_take 10 s /\ iso_like s = true)).
    { intros s Hs. destruct (iso_like s).
      - inversion Hs. auto.
      - destruct (py_isdigit s); [| discriminate]. left. eapply Hnum; eauto. }
    destruct v; simpl in H; try discriminate.
    + left. eapply (Hnum (Ok (if b then 1 else 0))); exact H.
    + left. eapply (Hnum (Ok n)); exact H.
    + left. eapply Hnum; exact H.
    + apply Htxt in H. exact H.
    + apply Htxt in H. exact H.
    + apply Htxt in H. exact H.
Qed.

End DateFacts.

Lemma to_date_spec_witness :
  _to_date (VStr "2024-01-15T10:00:00Z") = Some "2024-01-15"
  /\ _to_date (VStr "1700000000") = _to_date (VInt 1700000000)
  /\ _to_date (VInt 1700000000000) = Some "2023-11-14"
  /\ _to_date (VStr "soon") = None.
Proof.
  pose proof (@to_date_spec cpython) as (_ & Hint & _ & _ & _ & Hiso & Hdig & Hother & _).
  split; [| split; [| split]].
  - exact (proj1 (Hiso "2024-01-15T10:00:00Z" eq_refl)).
  - destruct (Hdig "1700000000" eq_refl) as (n & Hn & ->).
    vm_compute in Hn. inversion Hn. reflexivity.
  - rewrite Hint. vm_compute. reflexivity.
  - exact (Hother "soon" eq_refl eq_refl).
Defined.

(** C8 (the code departs from the claim and from its own docstring,
    "-> 'YYYY-MM-DD' or None").  Not every non-null answer is a date of
    the form YYYY-MM-DD: an ISO-like text is cut to ten characters without
    a check of what stands around the two dashes, a millisecond epoch far
    in the future comes out with a five-digit year (glibc), and a list is
    normalised through its printed form instead of giving null. *)
Lemma to_date_not_always_ymd :
  _to_date (VStr "abcd-ef-gh") = Some "abcd-ef-gh"
  /\ is_ymd "abcd-ef-gh" = false
  /\ _to_date (VInt 1000000000000000) = Some "33658-09-27"
  /\ is_ymd "33658-09-27" = false
  /\ _to_date (VList [VStr "ab-cd-ef"]) = Some "['ab-cd-ef"
  /\ is_ymd "['ab-cd-ef" = false.
Proof. vm_compute. repeat split; reflexivity. Qed.

(** ** C2 and X29: venue capacity on re-ingestion *)

Lemma find_map_update_capacity vid c (l : list venue_row) k :
  find (fun r => venue_id r =? k) (map (update_capacity vid c) l)
  = option_map (update_capacity vid c) (find (fun r => venue_id r =? k) l).
Proof.
  induction l as [| r l IH]; simpl; [reflexivity |].
  assert (E : venue_id (update_capacity vid c r) = venue_id r).
  { unfold update_capacity. destruct (venue_id r =? vid); reflexivity. }
  rewrite E. destruct (venue_id r =? k); [reflexivity | exact IH].
Qed.

Section VenueFacts.
Context `{RT : PyRuntime}.

(** X29. When a venue with the same name, city and country is already
    stored, ingesting it again returns its id and sets
    its capacity to the greater of the stored capacity and the new one,
    each counted as 0 when null.  So a stored capacity [c >= 0] stays [c]
    when the new one is null or not larger, and becomes [n] when the new
    one is a larger [n]; a stored capacity that is null (or negative) does
    not survive: it becomes 0 when the new one is null. *)
Theorem venue_capacity_on_reingestion name city country capacity w
    p_name p_city p_country row old :
  truthy name = true ->
  to_sql name = Ok p_name -> to_sql city = Ok p_city -> to_sql country = Ok p_country ->
  find (venue_matches p_name p_city p_country) (venues (db w)) = Some row ->
  stored_capacity (db w) (venue_id row) = Some old ->
  let new := safe_capacity capacity in
  exists w',
    get_or_create_venue name city country capacity w = (Ok (Some (venue_id row)), w')
    /\ stored_capacity (db w') (venue_id row)
       = Some (Some (Z.max (default 0 old) (default 0 new)))
    /\ length (venues (db w')) = length (venues (db w))
    /\ (forall c, old = Some c -> 0 <= c ->
                  (new = None \/ exists n, new = Some n /\ n <= c) ->
                  stored_capacity (db w') (venue_id row) = Some (Some c))
    /\ (forall n, new = Some n -> default 0 old < n ->
                  stored_capacity (db w') (venue_id row) = Some (Some n))
    /\ (old = None -> new = None ->
        stored_capacity (db w') (venue_id row) = Some (Some 0)).
Proof.
  intros Hname Hn Hc Hco Hfind Hold new.
  unfold get_or_create_venue. rewrite Hname. simpl.
  unfold bind, lift. rewrite Hn, Hc, Hco, Hfind.
  set (w' := with_db (fun d => set_venues
                        (map (update_capacity (venue_id row) (safe_capacity capacity))
                             (venues d))
                        (venues_auto d) d) w).
  exists w'. split; [reflexivity |].
  assert (Hst : stored_capacity (db w') (venue_id row)
                = Some (Some (Z.max (default 0 old) (default 0 new)))).
  { unfold stored_capacity in *. simpl.
    rewrite find_map_update_capacity.
    destruct (find (fun r => venue_id r =? venue_id row) (venues (db w))) as [r0 |] eqn:E;
      simpl in *; [| discriminate].
    apply find_some in E as [_ E]. unfold update_capacity. rewrite E. simpl.
    inversion Hold; subst. reflexivity. }
  split; [exact Hst |].
  split; [simpl; apply length_map |].
  split; [| split].
  - intros c -> Hc0 Hnew. rewrite Hst. simpl.
    destruct Hnew as [-> | (n & -> & Hle)]; simpl; do 2 f_equal; lia.
  - intros n Hnew Hlt. rewrite Hst. fold new. rewrite Hnew. simpl in *.
    do 2 f_equal. lia.
  - intros -> Hnew. rewrite Hst. fold new. rewrite Hnew. reflexivity.
Qed.

End VenueFacts.

(** The example of the specification: 50,000, then 40,000 (stays), then
    60,000 (updates). *)
Lemma venue_capacity_on_reingestion_witness :
  stored_capacity (db (after (eden ;; eden_again (VInt 40000)) initial_world)) 1
  = Some (Some 50000)
  /\ stored_capacity
       (db (after (eden ;; eden_again (VInt 40000) ;; eden_again (VStr "60,000"))
              initial_world)) 1
     = Some (Some 60000).
Proof.
  pose (w1 := after eden initial_world).
  pose (row := {| venue_id := 1; venue_name := SStr "Eden Gardens";
                  venue_city := SStr "Kolkata"; venue_country := SStr "India";
                  venue_capacity := Some 50000 |}).
  destruct (venue_capacity_on_reingestion (VStr "Eden Gardens") (VStr "Kolkata")
              (VStr "India") (VInt 40000) w1 _ _ _ row (Some 50000)
              eq_refl eq_refl eq_refl eq_refl eq_refl eq_refl)
    as (w2 & Hrun2 & _ & _ & Hkeep & _ & _).
  assert (E2 : w2 = after (eden ;; eden_again (VInt 40000)) initial_world).
  { vm_compute in Hrun2. inversion Hrun2. reflexivity. }
  split.
  - rewrite <- E2. apply (Hkeep 50000 eq_refl); [lia |].
    right. exists 40000. split; [reflexivity | lia].
  - destruct (venue_capacity_on_reingestion (VStr "Eden Gardens") (VStr "Kolkata")
                (VStr "India") (VStr "60,000") w2 _ _ _ row (Some 50000)
                eq_refl eq_refl eq_refl eq_refl)
      as (w3 & Hrun3 & _ & _ & _ & Hup & _).
    + rewrite E2. reflexivity.
    + rewrite E2. reflexivity.
    + assert (E3 : w3 = after (eden ;; eden_again (VInt 40000) ;; eden_again (VStr "60,000"))
                          initial_world).
      { rewrite E2 in Hrun3. vm_compute in Hrun3. inversion Hrun3. reflexivity. }
      rewrite <- E3. apply (Hup 60000); [reflexivity | simpl; lia].
Defined.

(** C2 (the code departs from the claim and from its own comment,
    "update only if new capacity is higher").  A venue stored without a
    capacity and ingested again, still without a capacity, does not keep
    its stored value: the capacity changes from null to 0. *)
Lemma venue_null_capacity_becomes_zero :
  stored_capacity (db (after (eden_again VNone) initial_world)) 1 = Some None
  /\ stored_capacity (db (after (eden_again VNone ;; eden_again VNone) initial_world)) 1
     = Some (Some 0).
Proof. vm_compute. split; reflexivity. Qed.

(** ** Facts about [INSERT ... ON DUPLICATE KEY UPDATE] *)

Section Upsert.
Context {R : Type} (key : R -> Z) (update : R -> R -> R).
Hypothesis update_key : forall new old, key (update new old) = key old.

Let conflict (new old : R) : bool := key new =? key old.

Lemma iodku_no_conflict new tbl :
  Forall (fun old => key old <> key new) tbl ->
  insert_on_duplicate_key_update conflict update new tbl = (tbl ++ [new])%list.
Proof.
  induction 1 as [| old tbl Hne _ IH]; simpl; [reflexivity |].
  unfold conflict at 1. destruct (key new =? key old) eqn:E; [lia |].
  rewrite IH. reflexivity.
Qed.

Lemma iodku_find_key new tbl :
  find (fun r => key r =? key new) (insert_on_duplicate_key_update conflict update new tbl)
  = Some match find (fun r => key r =? key new) tbl with
         | Some old => update new old
         | None => new
         end.
Proof.
  induction tbl as [| old tbl IH]; simpl.
  - rewrite Z.eqb_refl. reflexivity.
  - unfold conflict at 1. destruct (key new =? key old) eqn:E.
    + simpl. rewrite update_key. rewrite Z.eqb_sym, E. reflexivity.
    + simpl. rewrite Z.eqb_sym, E. exact IH.
Qed.

Lemma iodku_find_other new tbl k :
  k <> key new ->
  find (fun r => key r =? k) (insert_on_duplicate_key_update conflict update new tbl)
  = find (fun r => key r =? k) tbl.
Proof.
  intros Hk. induction tbl as [| old tbl IH]; simpl.
  - destruct (key new =? k) eqn:E; [lia | reflexivity].
  - unfold conflict at 1. destruct (key new =? key old) eqn:E.
    + simpl. rewrite update_key.
      destruct (key old =? k) eqn:E'; [lia | reflexivity].
    + simpl. destruct (key old =? k); [reflexivity | exact IH].
Qed.

Lemma iodku_length_stored new tbl old :
  find (fun r => key r =? key new) tbl = Some old ->
  length (insert_on_duplicate_key_update conflict update new tbl) = length tbl.
Proof.
  induction tbl as [| r tbl IH]; simpl; [discriminate |].
  unfold conflict at 1. rewrite (Z.eqb_sym (key r)).
  destruct (key new =? key r); simpl; [reflexivity |].
  intros H. rewrite IH; auto.
Qed.

Lemma iodku_Forall (P : R -> Prop) new tbl :
  P new -> (forall old, P old -> P (update new old)) ->
  Forall P tbl -> Forall P (insert_on_duplicate_key_update conflict update new tbl).
Proof.
  intros Hnew Hupd. induction 1 as [| old tbl Hold Htbl IH]; simpl.
  - constructor; [exact Hnew | constructor].
  - destruct (conflict new old); constructor; auto.
Qed.

End Upsert.

(** ** C7: the strike-rate fallback *)

(** *** Doubles: digits, shifts and rounding *)

Lemma digits2_pos_bounds p :
  2 ^ (Z.pos (digits2_pos p) - 1) <= Z.pos p < 2 ^ Z.pos (digits2_pos p).
Proof.
  induction p as [p IH | p IH |]; simpl digits2_pos.
  - rewrite Pos2Z.inj_succ.
    replace (Z.succ (Z.pos (digits2_pos p)) - 1) with (Z.succ (Z.pos (digits2_pos p) - 1)) by lia.
    rewrite !Z.pow_succ_r by lia. lia.
  - rewrite Pos2Z.inj_succ.
    replace (Z.succ (Z.pos (digits2_pos p)) - 1) with (Z.succ (Z.pos (digits2_pos p) - 1)) by lia.
    rewrite !Z.pow_succ_r by lia. lia.
  - simpl. lia.
Qed.

Lemma digits2_pos_unique p d :
  2 ^ (d - 1) <= Z.pos p < 2 ^ d -> Z.pos (digits2_pos p) = d.
Proof.
  intros [Hlo Hhi]. pose proof (digits2_pos_bounds p) as [Hlo' Hhi'].
  assert (Hd : 0 < d).
  { destruct (Z_lt_le_dec 0 d) as [| Hle]; [assumption |].
    destruct (Z.eq_dec d 0) as [-> | Hne]; [simpl in Hhi; lia |].
    rewrite Z.pow_neg_r in Hhi by lia. lia. }
  destruct (Z_lt_le_dec (Z.pos (digits2_pos p)) d) as [Hlt | Hge].
  - assert (2 ^ Z.pos (digits2_pos p) <= 2 ^ (d - 1)) by (apply Z.pow_le_mono_r; lia). lia.
  - destruct (Z_lt_le_dec d (Z.pos (digits2_pos p))) as [Hlt | Hle]; [| lia].
    assert (2 ^ d <= 2 ^ (Z.pos (digits2_pos p) - 1)) by (apply Z.pow_le_mono_r; lia). lia.
Qed.

Lemma Zdigits2_le m d : 0 <= d -> 0 <= m < 2 ^ d -> Zdigits2 m <= d.
Proof.
  intros Hd [Hlo Hhi]. destruct m as [| p | p]; simpl; [lia | | lia].
  pose proof (digits2_pos_bounds p) as [Hlo' _].
  destruct (Z_lt_le_dec d (Z.pos (digits2_pos p))) as [Hlt | Hle]; [| lia].
  assert (2 ^ d <= 2 ^ (Z.pos (digits2_pos p) - 1)) by (apply Z.pow_le_mono_r; lia). lia.
Qed.

Lemma Zdigits2_bound m : 0 <= m -> m < 2 ^ Zdigits2 m.
Proof.
  intros Hm. destruct m as [| p | p]; simpl; [lia | | lia].
  apply digits2_pos_bounds.
Qed.

Lemma iter_xO_value p k : Z.pos (Pos.iter xO p k) = Z.pos p * 2 ^ Z.pos k.
Proof.
  induction k as [| k IH] using Pos.peano_ind.
  - simpl. lia.
  - rewrite Pos.iter_succ, Pos2Z.inj_xO, IH, Pos2Z.inj_succ, Z.pow_succ_r by lia. lia.
Qed.

Lemma shr_1_m mrs : 0 <= shr_m mrs -> shr_m (shr_1 mrs) = shr_m mrs / 2.
Proof.
  destruct mrs as [m r s]. simpl. intros Hm.
  destruct m as [| [p | p |] | p]; cbn [shr_m]; try reflexivity; try lia.
  - apply Z.div_unique with (r := 1); lia.
  - apply Z.div_unique with (r := 0); lia.
Qed.

Lemma iter_shr_1_m p : forall mrs,
  0 <= shr_m mrs -> shr_m (SpecFloat.iter_pos shr_1 p mrs) = shr_m mrs / 2 ^ Z.pos p.
Proof.
  assert (Hnn : forall a b, 0 <= a -> 0 < b -> 0 <= a / b) by (intros; apply Z.div_pos; lia).
  assert (Hpow : forall q, 0 < 2 ^ Z.pos q) by (intros; apply Z.pow_pos_nonneg; lia).
  induction p as [p IH | p IH |]; intros mrs Hm; simpl SpecFloat.iter_pos.
  - assert (H1 : 0 <= shr_m (shr_1 mrs)) by (rewrite shr_1_m by exact Hm; apply Hnn; lia).
    assert (H2 : 0 <= shr_m (SpecFloat.iter_pos shr_1 p (shr_1 mrs)))
      by (rewrite IH by exact H1; apply Hnn; [exact H1 | apply Hpow]).
    rewrite (IH _ H2), (IH _ H1), (shr_1_m _ Hm).
    pose proof (Hpow p).
    rewrite !Z.div_div by lia.
    f_equal. rewrite Pos2Z.inj_xI.
    replace (2 * Z.pos p + 1) with (Z.succ (Z.pos p + Z.pos p)) by lia.
    rewrite Z.pow_succ_r, Z.pow_add_r by lia. lia.
  - assert (H2 : 0 <= shr_m (SpecFloat.iter_pos shr_1 p mrs))
      by (rewrite IH by exact Hm; apply Hnn; [exact Hm | apply Hpow]).
    rewrite (IH _ H2), (IH _ Hm).
    pose proof (Hpow p).
    rewrite !Z.div_div by lia.
    f_equal. change (Z.pos p~0) with (2 * Z.pos p).
    replace (2 * Z.pos p) with (Z.pos p + Z.pos p) by lia.
    rewrite Z.pow_add_r by lia. lia.
  - rewrite shr_1_m by assumption. reflexivity.
Qed.

Lemma shr_m_of_loc m l : shr_m (shr_record_of_loc m l) = m.
Proof. destruct l as [| []]; reflexivity. Qed.

(** After [shr], the mantissa is divided and the exponent raised by the
    shift. *)
Lemma shr_spec mrs e n :
  0 <= shr_m mrs ->
  shr_m (fst (shr mrs e n)) = shr_m mrs / 2 ^ Z.max n 0
  /\ snd (shr mrs e n) = e + Z.max n 0.
Proof.
  intros Hm. destruct n as [| p | p]; simpl.
  - rewrite Z.div_1_r. lia.
  - rewrite iter_shr_1_m by assumption. split; [reflexivity | lia].
  - rewrite Z.div_1_r. lia.
Qed.

Lemma round_nearest_even_bounds m l :
  m <= round_nearest_even m l <= m + 1.
Proof.
  unfold round_nearest_even. destruct l as [| []]; try lia.
  destruct (Z.even m); lia.
Qed.

Lemma fexp_value e : fexp prec emax e = Z.max (e - 53) (-1074).
Proof. reflexivity. Qed.

(** Rounding [mz * 2^e] with [mz < 2^d] gives zero or a finite double whose
    exponent is at most one above [max e (d + e - 53)]. *)
Lemma binary_round_aux_bound s mz e l d E :
  0 <= d -> 0 <= mz < 2 ^ d ->
  Z.max (Z.max e (d + e - 53)) (-1074) + 1 <= E -> E <= 971 ->
  binary_round_aux prec emax s mz e l = S754_zero s
  \/ exists m e', binary_round_aux prec emax s mz e l = S754_finite s m e' /\ e' <= E.
Proof.
  intros Hd Hmz HE Hmax. unfold binary_round_aux, shr_fexp.
  set (n1 := fexp prec emax (Zdigits2 mz + e) - e).
  assert (Hn1 : n1 = Z.max (Zdigits2 mz + e - 53) (-1074) - e) by reflexivity.
  pose proof (shr_spec (shr_record_of_loc mz l) e n1) as [Hm1 He1];
    [rewrite shr_m_of_loc; lia |].
  rewrite shr_m_of_loc in Hm1.
  destruct (shr (shr_record_of_loc mz l) e n1) as [mrs1 e1]. cbn [fst snd] in Hm1, He1.
  pose proof (Zdigits2_le mz d Hd Hmz) as Hdz.
  pose proof (Zdigits2_bound mz (proj1 Hmz)) as Hbz.
  assert (Hdz0 : 0 <= Zdigits2 mz) by (destruct mz; simpl; lia).
  assert (Hs1 : 0 <= shr_m mrs1 < 2 ^ 53).
  { rewrite Hm1. split; [apply Z.div_pos; [lia | apply Z.pow_pos_nonneg; lia] |].
    apply Z.div_lt_upper_bound; [apply Z.pow_pos_nonneg; lia |].
    rewrite <- Z.pow_add_r by lia.
    eapply Z.lt_le_trans; [exact Hbz |]. apply Z.pow_le_mono_r; lia. }
  set (m1 := round_nearest_even (shr_m mrs1) (loc_of_shr_record mrs1)).
  pose proof (round_nearest_even_bounds (shr_m mrs1) (loc_of_shr_record mrs1)) as Hr.
  fold m1 in Hr.
  assert (Hm1b : 0 <= m1 < 2 ^ 54) by (change (2 ^ 54) with (2 * 2 ^ 53); lia).
  pose proof (Zdigits2_le m1 54 ltac:(lia) Hm1b) as Hd1.
  set (n2 := fexp prec emax (Zdigits2 m1 + e1) - e1).
  assert (Hn2 : n2 = Z.max (Zdigits2 m1 + e1 - 53) (-1074) - e1) by reflexivity.
  pose proof (shr_spec (shr_record_of_loc m1 loc_Exact) e1 n2) as [Hm2 He2];
    [rewrite shr_m_of_loc; lia |].
  rewrite shr_m_of_loc in Hm2.
  destruct (shr (shr_record_of_loc m1 loc_Exact) e1 n2) as [mrs2 e2].
  cbn [fst snd] in Hm2, He2.
  assert (He2b : e2 <= E) by lia.
  assert (Hs2 : 0 <= shr_m mrs2)
    by (rewrite Hm2; apply Z.div_pos; [lia | apply Z.pow_pos_nonneg; lia]).
  destruct (shr_m mrs2) as [| m2 | m2]; [left; reflexivity | right | lia].
  replace (e2 <=? emax - prec) with true
    by (symmetry; apply Z.leb_le; change (emax - prec) with 971; lia).
  eauto.
Qed.

Lemma binary_round_aux_exact s m e :
  Z.pos (digits2_pos m) = 53 -> -1074 <= e <= 971 ->
  binary_round_aux prec emax s (Z.pos m) e loc_Exact = S754_finite s m e.
Proof.
  intros Hd He. unfold binary_round_aux, shr_fexp. cbn [Zdigits2].
  rewrite Hd, fexp_value.
  replace (Z.max (53 + e - 53) (-1074) - e) with 0 by lia.
  cbn [shr shr_record_of_loc shr_m loc_of_shr_record round_nearest_even Zdigits2].
  rewrite Hd, fexp_value.
  replace (Z.max (53 + e - 53) (-1074) - e) with 0 by lia.
  cbn [shr shr_record_of_loc shr_m].
  replace (e <=? emax - prec) with true
    by (symmetry; apply Z.leb_le; change (emax - prec) with 971; lia).
  reflexivity.
Qed.

(** [float(n)] for [0 < n < 2^53]: the mantissa is [n] shifted to 53 bits. *)
Lemma binary_normalize_small p :
  Z.pos p < 2 ^ 53 ->
  exists m,
    binary_normalize prec emax (Z.pos p) 0 false
    = S754_finite false m (Z.pos (digits2_pos p) - 53)
    /\ Z.pos m = Z.pos p * 2 ^ (53 - Z.pos (digits2_pos p))
    /\ Z.pos (digits2_pos m) = 53.
Proof.
  intros Hp. pose proof (digits2_pos_bounds p) as [Hlo Hhi].
  set (d := Z.pos (digits2_pos p)) in *.
  assert (Hd : 1 <= d <= 53).
  { split; [unfold d; lia |].
    destruct (Z_lt_le_dec 53 d) as [Hlt | Hle]; [| exact Hle].
    assert (2 ^ 53 <= 2 ^ (d - 1)) by (apply Z.pow_le_mono_r; lia). lia. }
  unfold binary_normalize, binary_round, shl_align. fold d.
  rewrite fexp_value.
  replace (Z.max (d + 0 - 53) (-1074) - 0) with (d - 53) by lia.
  replace (Z.max (d + 0 - 53) (-1074)) with (d - 53) by lia.
  destruct (d - 53) as [| q | q] eqn:E; [| lia |].
  - exists p. split; [| split].
    + replace d with 53 by lia. apply binary_round_aux_exact; [fold d | ]; lia.
    + replace (53 - d) with 0 by lia. lia.
    + fold d. lia.
  - exists (Pos.iter xO p q).
    assert (Hv : Z.pos (Pos.iter xO p q) = Z.pos p * 2 ^ (53 - d)).
    { rewrite iter_xO_value. f_equal. f_equal. lia. }
    assert (Hdig : Z.pos (digits2_pos (Pos.iter xO p q)) = 53).
    { apply digits2_pos_unique. rewrite Hv.
      replace (2 ^ (53 - 1)) with (2 ^ (d - 1) * 2 ^ (53 - d))
        by (rewrite <- Z.pow_add_r by lia; f_equal; lia).
      replace (2 ^ 53) with (2 ^ d * 2 ^ (53 - d))
        by (rewrite <- Z.pow_add_r by lia; f_equal; lia).
      assert (0 < 2 ^ (53 - d)) by (apply Z.pow_pos_nonneg; lia).
      split; [apply Z.mul_le_mono_nonneg_r; lia | apply Z.mul_lt_mono_pos_r; lia]. }
    split; [| split; assumption].
    rewrite <- E. apply binary_round_aux_exact; [exact Hdig | lia].
Qed.

Lemma new_location_compare n k :
  new_location n k = if k =? 0 then loc_Exact else loc_Inexact (2 * k ?= n).
Proof.
  unfold new_location, new_location_even, new_location_odd.
  destruct (Z.even n) eqn:E; [reflexivity |].
  destruct (k =? 0); [reflexivity |]. f_equal.
  assert (Hodd : Z.odd n = true) by (rewrite <- Z.negb_even, E; reflexivity).
  apply Z.odd_spec in Hodd as [h Hh].
  destruct (Z.compare_spec (2 * k + 1) n), (Z.compare_spec (2 * k) n); try reflexivity; lia.
Qed.

Lemma div_eucl_pair a b : Z.div_eucl a b = (a / b, a mod b).
Proof. unfold Z.div, Z.modulo. destruct (Z.div_eucl a b). reflexivity. Qed.

(** The quotient, exponent and location from which [a / b] is rounded, for
    two integers below [2^53] taken as they are. *)
Lemma SFdiv_core_binary_ints pa pb :
  Z.pos pa < 2 ^ 53 -> Z.pos pb < 2 ^ 53 ->
  let da := Z.pos (digits2_pos pa) in
  let db := Z.pos (digits2_pos pb) in
  SFdiv_core_binary prec emax (Z.pos pa) 0 (Z.pos pb) 0
  = ((Z.pos pa * 2 ^ (53 - da + db)) / Z.pos pb, da - db - 53,
     new_location (Z.pos pb) ((Z.pos pa * 2 ^ (53 - da + db)) mod Z.pos pb)).
Proof.
  intros Ha Hb da db.
  pose proof (digits2_pos_bounds pa) as [Hloa Hhia].
  pose proof (digits2_pos_bounds pb) as [Hlob Hhib].
  fold da in Hloa, Hhia. fold db in Hlob, Hhib.
  assert (Hda' : 1 <= da <= 53).
  { split; [unfold da; lia |].
    destruct (Z_lt_le_dec 53 da) as [Hlt | Hle]; [| exact Hle].
    assert (2 ^ 53 <= 2 ^ (da - 1)) by (apply Z.pow_le_mono_r; lia). lia. }
  assert (Hdb' : 1 <= db <= 53).
  { split; [unfold db; lia |].
    destruct (Z_lt_le_dec 53 db) as [Hlt | Hle]; [| exact Hle].
    assert (2 ^ 53 <= 2 ^ (db - 1)) by (apply Z.pow_le_mono_r; lia). lia. }
  unfold SFdiv_core_binary. cbn [Zdigits2]. fold da db.
  rewrite fexp_value.
  replace (Z.min (Z.max (da + 0 - (db + 0) - 53) (-1074)) (0 - 0)) with (da - db - 53) by lia.
  replace (0 - 0 - (da - db - 53)) with (53 - da + db) by lia.
  destruct (53 - da + db) as [| s | s] eqn:Es; [lia | | lia].
  rewrite <- Es. cbv iota.
  rewrite Z.shiftl_mul_pow2 by lia.
  rewrite div_eucl_pair. reflexivity.
Qed.

(** The same division after both integers are brought to 53 bits, as
    [float(a) / float(b)] does: the outcome is the same. *)
Lemma SFdiv_core_binary_scaled pa pb ma mb :
  Z.pos pa < 2 ^ 53 -> Z.pos pb < 2 ^ 53 ->
  Z.pos ma = Z.pos pa * 2 ^ (53 - Z.pos (digits2_pos pa)) ->
  Z.pos mb = Z.pos pb * 2 ^ (53 - Z.pos (digits2_pos pb)) ->
  Z.pos (digits2_pos ma) = 53 -> Z.pos (digits2_pos mb) = 53 ->
  SFdiv_core_binary prec emax (Z.pos ma) (Z.pos (digits2_pos pa) - 53)
                    (Z.pos mb) (Z.pos (digits2_pos pb) - 53)
  = SFdiv_core_binary prec emax (Z.pos pa) 0 (Z.pos pb) 0.
Proof.
  intros Ha Hb Hma Hmb Hda Hdb.
  rewrite SFdiv_core_binary_ints by assumption. cbv zeta.
  pose proof (digits2_pos_bounds pa) as [Hloa Hhia].
  pose proof (digits2_pos_bounds pb) as [Hlob Hhib].
  unfold SFdiv_core_binary. cbn [Zdigits2]. rewrite Hda, Hdb.
  set (da := Z.pos (digits2_pos pa)) in *. set (db := Z.pos (digits2_pos pb)) in *.
  assert (Hda' : 1 <= da <= 53).
  { split; [unfold da; lia |].
    destruct (Z_lt_le_dec 53 da) as [Hlt | Hle]; [| exact Hle].
    assert (2 ^ 53 <= 2 ^ (da - 1)) by (apply Z.pow_le_mono_r; lia). lia. }
  assert (Hdb' : 1 <= db <= 53).
  { split; [unfold db; lia |].
    destruct (Z_lt_le_dec 53 db) as [Hlt | Hle]; [| exact Hle].
    assert (2 ^ 53 <= 2 ^ (db - 1)) by (apply Z.pow_le_mono_r; lia). lia. }
  rewrite !fexp_value.
  replace (Z.min (Z.max (53 + (da - 53) - (53 + (db - 53)) - 53) (-1074)) (da - 53 - (db - 53)))
    with (da - db - 53) by lia.
  replace (da - 53 - (db - 53) - (da - db - 53)) with 53 by lia.
  cbv iota.
  rewrite Z.shiftl_mul_pow2 by lia.
  rewrite div_eucl_pair.
  set (c := 2 ^ (53 - db)).
  assert (Hc : 0 < c) by (apply Z.pow_pos_nonneg; lia).
  assert (Hnum : Z.pos ma * 2 ^ 53 = c * (Z.pos pa * 2 ^ (53 - da + db))).
  { rewrite Hma. unfold c.
    replace (2 ^ 53) with (2 ^ (53 - db) * 2 ^ db)
      by (rewrite <- Z.pow_add_r by lia; f_equal; lia).
    replace (2 ^ (53 - da + db)) with (2 ^ (53 - da) * 2 ^ db)
      by (rewrite <- Z.pow_add_r by lia; f_equal; lia).
    ring. }
  assert (Hden : Z.pos mb = c * Z.pos pb) by (rewrite Hmb; unfold c; ring).
  rewrite Hnum, Hden.
  rewrite Z.div_mul_cancel_l by lia.
  rewrite Z.mul_mod_distr_l by lia.
  f_equal. rewrite !new_location_compare.
  set (r := (Z.pos pa * 2 ^ (53 - da + db)) mod Z.pos pb).
  replace (c * r =? 0) with (r =? 0).
  - destruct (r =? 0); [reflexivity |]. f_equal.
    destruct (Z.compare_spec (2 * (c * r)) (c * Z.pos pb)),
             (Z.compare_spec (2 * r) (Z.pos pb)); try reflexivity; nia.
  - destruct (Z.eqb_spec r 0), (Z.eqb_spec (c * r) 0); try reflexivity; nia.
Qed.

Lemma Prim2SF_exact_float z :
  0 <= z < 2 ^ 63 -> Prim2SF (exact_float z) = binary_normalize prec emax z 0 false.
Proof.
  intros Hz. unfold exact_float. rewrite of_uint63_spec, Uint63.of_Z_spec.
  rewrite Z.mod_small; [reflexivity |]. exact Hz.
Qed.

Lemma Z_to_float_exact z : 0 <= z < 2 ^ 63 -> Z_to_float z = exact_float z.
Proof.
  intros Hz. unfold Z_to_float. rewrite <- Prim2SF_exact_float by exact Hz.
  apply SF2Prim_Prim2SF.
Qed.

(** [a / b] on two ints below [2^53] is the IEEE division of the two
    doubles that hold them. *)
Lemma nearest_float_is_division a b :
  0 <= a < 2 ^ 53 -> 0 < b < 2 ^ 53 ->
  nearest_float a b = (exact_float a / exact_float b)%float.
Proof.
  intros Ha Hb.
  rewrite <- (SF2Prim_Prim2SF (exact_float a / exact_float b)), div_spec.
  rewrite !Prim2SF_exact_float by lia.
  unfold nearest_float.
  replace (xorb (a <? 0) (b <? 0)) with false
    by (destruct (Z.ltb_spec a 0), (Z.ltb_spec b 0); try reflexivity; lia).
  destruct b as [| pb | pb]; [lia | | lia].
  destruct (binary_normalize_small pb ltac:(lia)) as (mb & -> & Hmb & Hdb).
  destruct a as [| pa | pa]; [reflexivity | | lia].
  destruct (binary_normalize_small pa ltac:(lia)) as (ma & -> & Hma & Hda).
  change (Z.abs (Z.pos pa)) with (Z.pos pa). change (Z.abs (Z.pos pb)) with (Z.pos pb).
  unfold SF64div, SFdiv.
  rewrite SFdiv_core_binary_scaled by (assumption || lia).
  destruct (SFdiv_core_binary prec emax (Z.pos pa) 0 (Z.pos pb) 0) as [[mz ez] lz].
  reflexivity.
Qed.

Lemma Prim2SF_finite_bounds x s m e :
  Prim2SF x = S754_finite s m e -> Z.pos m < 2 ^ 53 /\ -1074 <= e.
Proof.
  intros Hx. pose proof (Prim2SF_valid x) as Hv. rewrite Hx in Hv.
  unfold valid_binary, bounded, canonical_mantissa in Hv.
  apply andb_true_iff in Hv as [Hc _]. apply Z.eqb_eq in Hc.
  rewrite fexp_value in Hc.
  pose proof (digits2_pos_bounds m) as [_ Hhi].
  split; [| lia].
  eapply Z.lt_le_trans; [exact Hhi |]. apply Z.pow_le_mono_r; lia.
Qed.

(** The quotient of a non-negative integer below [2^k] by a positive one is
    zero or a positive finite double with exponent at most [k - 52]. *)
Lemma quotient_shape a b k :
  0 <= a < 2 ^ k -> 0 <= k <= 53 -> 0 < b < 2 ^ 53 ->
  Prim2SF (nearest_float a b) = S754_zero false
  \/ exists m e, Prim2SF (nearest_float a b) = S754_finite false m e /\ e <= k - 52.
Proof.
  intros Ha Hk Hb.
  assert (Ha53 : a < 2 ^ 53).
  { eapply Z.lt_le_trans; [apply Ha |]. apply Z.pow_le_mono_r; lia. }
  rewrite nearest_float_is_division by lia.
  rewrite div_spec, !Prim2SF_exact_float by lia.
  destruct b as [| pb | pb]; [lia | | lia].
  destruct (binary_normalize_small pb ltac:(lia)) as (mb & -> & Hmb & Hdb).
  destruct a as [| pa | pa]; [left; reflexivity | | lia].
  destruct (binary_normalize_small pa ltac:(lia)) as (ma & -> & Hma & Hda).
  unfold SF64div, SFdiv.
  rewrite SFdiv_core_binary_scaled by (assumption || lia).
  rewrite SFdiv_core_binary_ints by lia. cbv zeta.
  pose proof (digits2_pos_bounds pa) as [Hloa Hhia].
  pose proof (digits2_pos_bounds pb) as [Hlob Hhib].
  set (da := Z.pos (digits2_pos pa)) in *. set (db := Z.pos (digits2_pos pb)) in *.
  assert (Hda' : 1 <= da <= k).
  { split; [unfold da; lia |].
    destruct (Z_lt_le_dec k da) as [Hlt | Hle]; [| exact Hle].
    assert (2 ^ k <= 2 ^ (da - 1)) by (apply Z.pow_le_mono_r; lia). lia. }
  assert (Hdb' : 1 <= db <= 53).
  { split; [unfold db; lia |].
    destruct (Z_lt_le_dec 53 db) as [Hlt | Hle]; [| exact Hle].
    assert (2 ^ 53 <= 2 ^ (db - 1)) by (apply Z.pow_le_mono_r; lia). lia. }
  apply (binary_round_aux_bound _ _ _ _ (53 + db)); try lia.
  assert (Hs : 0 < 2 ^ (53 - da + db)) by (apply Z.pow_pos_nonneg; lia).
  split; [apply Z.div_pos; lia |].
  apply Z.div_lt_upper_bound; [lia |].
  assert (Z.pos pa * 2 ^ (53 - da + db) < 2 ^ da * 2 ^ (53 - da + db))
    by (apply Z.mul_lt_mono_pos_r; lia).
  rewrite <- Z.pow_add_r in H by lia.
  replace (da + (53 - da + db)) with (53 + db) in H by lia. nia.
Qed.

(** Multiplying by 100 a double that is zero or positive with a small
    exponent gives zero or a positive finite double. *)
Lemma times_100_shape q E :
  (Prim2SF q = S754_zero false
   \/ exists m e, Prim2SF q = S754_finite false m e /\ e <= E) ->
  E + 8 <= 971 ->
  Prim2SF (q * 100)%float = S754_zero false
  \/ exists m e, Prim2SF (q * 100)%float = S754_finite false m e
                 /\ e <= Z.max (E + 8) (-1073).
Proof.
  intros Hq HE. rewrite mul_spec.
  change (Prim2SF 100) with (S754_finite false 7036874417766400 (-46)).
  destruct Hq as [-> | (m & e & Hq & He)]; [left; reflexivity |].
  pose proof (Prim2SF_finite_bounds _ _ _ _ Hq) as [Hm Hemin].
  rewrite Hq. unfold SF64mul, SFmul. cbn [xorb].
  apply (binary_round_aux_bound _ _ _ _ 106); lia.
Qed.

Lemma round_half_even_nearest num den :
  0 < den -> nearest_even num den (round_half_even num den).
Proof.
  intros Hden. unfold nearest_even, round_half_even.
  pose proof (Z.div_mod num den ltac:(lia)) as Hdm.
  pose proof (Z.mod_pos_bound num den Hden) as Hr.
  set (q := num / den) in *. set (r := num mod den) in *.
  destruct (Z.compare_spec (2 * r) den) as [He | Hl | Hg].
  - destruct (Z.even q) eqn:Ev.
    + split; [nia | intros _; exact Ev].
    + split; [nia |]. intros _. rewrite Z.even_add, Ev. reflexivity.
  - split; [nia | nia].
  - split; [nia | nia].
Qed.

Lemma nearest_even_unique num den n1 n2 :
  0 < den -> nearest_even num den n1 -> nearest_even num den n2 -> n1 = n2.
Proof.
  intros Hden [H1 E1] [H2 E2].
  destruct (Z.eq_dec n1 n2) as [| Hne]; [assumption | exfalso].
  assert (Hd : n1 = n2 + 1 \/ n2 = n1 + 1) by nia.
  assert (Ht : 2 * Z.abs (num - n1 * den) = den /\ 2 * Z.abs (num - n2 * den) = den) by nia.
  destruct Ht as [T1 T2]. specialize (E1 T1). specialize (E2 T2).
  destruct Hd as [-> | ->]; rewrite Z.even_add in *;
    [rewrite E2 in E1 | rewrite E1 in E2]; discriminate.
Qed.

Lemma is_infinity_finite f :
  (Prim2SF f = S754_zero false \/ exists m e, Prim2SF f = S754_finite false m e) ->
  is_infinity f = false.
Proof.
  intros Hf. unfold is_infinity. rewrite FloatAxioms.eqb_spec, abs_spec.
  change (Prim2SF infinity) with (S754_infinity false).
  destruct Hf as [-> | (m & e & ->)]; reflexivity.
Qed.

Lemma shape_weaken f E :
  (Prim2SF f = S754_zero false
   \/ exists m e, Prim2SF f = S754_finite false m e /\ e <= E) ->
  Prim2SF f = S754_zero false \/ exists m e, Prim2SF f = S754_finite false m e.
Proof. intros [H | (m & e & H & _)]; eauto. Qed.

(** The code's [round((runs / balls) * 100, 2)] returns, and returns what
    the specification says, for runs and balls in the range of an INT
    column. *)
Lemma computed_strike_rate_meets_spec runs balls :
  0 <= runs < 2 ^ 31 -> 0 < balls < 2 ^ 31 ->
  exists sr, computed_strike_rate runs balls = Ok sr /\ strike_rate_spec runs balls sr.
Proof.
  intros Hruns Hballs.
  assert (Hb53 : 0 < balls < 2 ^ 53) by (change (2 ^ 53) with (2 ^ 31 * 2 ^ 22); lia).
  assert (Hr53 : 0 <= runs < 2 ^ 53) by (change (2 ^ 53) with (2 ^ 31 * 2 ^ 22); lia).
  pose proof (quotient_shape runs balls 31 Hruns ltac:(lia) Hb53) as Hq.
  pose proof (times_100_shape _ _ Hq ltac:(lia)) as Hx.
  unfold computed_strike_rate, py_truediv, strike_rate_spec.
  destruct (Z.eqb_spec balls 0) as [| _]; [lia |].
  rewrite (is_infinity_finite _ (shape_weaken _ _ Hq)). cbn [rbind].
  rewrite <- (nearest_float_is_division runs balls Hr53 Hb53).
  set (x := (nearest_float runs balls * 100)%float) in *.
  unfold py_round2, rounds_to_hundredths.
  destruct Hx as [Hx | (m & e & Hx & He)]; rewrite Hx.
  - exists x. split; [reflexivity |]. exists 0. split; [reflexivity |].
    rewrite <- (SF2Prim_Prim2SF x), Hx. reflexivity.
  - pose proof (Prim2SF_finite_bounds _ _ _ _ Hx) as [Hm Hemin].
    destruct (Z.leb_spec 0 e) as [| _]; [lia |].
    assert (Hden : 2 ^ 13 <= 2 ^ (- e)) by (apply Z.pow_le_mono_r; lia).
    pose proof (round_half_even_nearest (Z.pos m * 100) (2 ^ (- e)) ltac:(lia)) as Hn.
    set (n := round_half_even (Z.pos m * 100) (2 ^ (- e))) in *.
    assert (Hspec : nearest_even (Z.pos m * 100 * 2 ^ Z.max e 0) (2 ^ Z.max (- e) 0) n).
    { replace (Z.max e 0) with 0 by lia. replace (Z.max (- e) 0) with (- e) by lia.
      rewrite Z.pow_0_r, Z.mul_1_r. exact Hn. }
    assert (Hnb : 0 <= n < 2 ^ 53).
    { destruct Hn as [Hn _]. change (2 ^ 13) with 8192 in Hden.
      change (2 ^ 53) with 9007199254740992 in *. split; nia. }
    cbv zeta.
    destruct (Z.eqb_spec n 0) as [Hz | Hnz].
    + eexists. split; [reflexivity |]. exists n. split; [exact Hspec |].
      rewrite Hz. reflexivity.
    + unfold py_truediv. change (100 =? 0) with false. cbv iota.
      pose proof (quotient_shape n 100 53 Hnb ltac:(lia) ltac:(split; reflexivity)) as Hf.
      rewrite (is_infinity_finite _ (shape_weaken _ _ Hf)).
      eexists. split; [reflexivity |]. exists n. split; [exact Hspec |].
      apply nearest_float_is_division; [exact Hnb | split; reflexivity].
Qed.

(** The description pins the value: two doubles that meet it are equal. *)
Lemma strike_rate_spec_functional runs balls sr1 sr2 :
  strike_rate_spec runs balls sr1 -> strike_rate_spec runs balls sr2 -> sr1 = sr2.
Proof.
  intros (n1 & H1 & ->) (n2 & H2 & ->). f_equal. f_equal.
  unfold rounds_to_hundredths in H1, H2.
  destruct (Prim2SF (exact_float runs / exact_float balls * 100)) as [s | s | | s m e];
    try contradiction.
  - congruence.
  - cbv zeta in H1, H2. eapply nearest_even_unique; [| exact H1 | exact H2].
    apply Z.pow_pos_nonneg; lia.
Qed.

Section BattingFacts.
Context `{RT : PyRuntime}.

Lemma dict_get_absent (d : dict) k : dict_lookup d k = None -> dict_get d k = VNone.
Proof. unfold dict_get. intros ->. reflexivity. Qed.

(** The AUTO_INCREMENT invariant holds in the empty store and every
    batting insert keeps it. *)
Lemma batting_ids_fresh_empty : batting_ids_fresh empty_db.
Proof. constructor. Qed.

Lemma insert_batting_score_keeps_fresh mid innings_no team_id b order :
  keeps batting_ids_fresh (insert_batting_score mid innings_no team_id b order).
Proof.
  unfold insert_batting_score, resolve_team_id. keeps_auto.
  - intros w r w' H Hw. inversion H; subst. exact Hw.
  - apply keeps_guarded_write with (g := fun w => has_match (db w) mid && has_player (db w) a).
    intros d Hd. unfold batting_ids_fresh in *. simpl.
    apply (iodku_Forall bat_id batting_update).
    + simpl. lia.
    + intros old Hold. simpl. exact Hold.
    + eapply Forall_impl; [exact Hd |]. simpl. intros r Hr. lia.
Qed.

(** C7. For every batting entry that is stored (its player id is a
    non-zero integer and the insert succeeds) whose payload supplies no
    strike-rate field under any of the names [strkrate], [strikeRate],
    [sr], with balls faced greater than zero, runs not negative, and both
    within the range of the INT columns that hold them: the row added to
    [batting_stats] carries the payload's runs and balls, and its strike
    rate is runs divided by balls times 100, rounded to two decimals, as
    [strike_rate_spec] spells it out: the IEEE 754 quotient of the two
    counts, times 100, rounded to the nearest hundredth (ties to even) and
    held as the nearest double.  No other value meets that description. *)
Theorem strike_rate_fallback mid innings_no team_id b order pid w w' :
  dict_lookup b "strkrate" = None ->
  dict_lookup b "strikeRate" = None ->
  dict_lookup b "sr" = None ->
  0 <= payload_runs b <= 2147483647 ->
  0 < payload_balls b <= 2147483647 ->
  payload_player_id b = Ok pid -> pid <> 0 ->
  batting_ids_fresh (db w) ->
  insert_batting_score mid innings_no team_id b order w = (Ok tt, w') ->
  exists row sr,
    batting_stats (db w') = (batting_stats (db w) ++ [row])%list
    /\ bat_match_id row = mid /\ bat_player_id row = pid
    /\ bat_innings_no row = innings_no
    /\ bat_runs row = payload_runs b /\ bat_balls row = payload_balls b
    /\ bat_strike_rate row = Some sr
    /\ strike_rate_spec (payload_runs b) (payload_balls b) sr
    /\ (forall sr', strike_rate_spec (payload_runs b) (payload_balls b) sr' -> sr' = sr).
Proof.
  intros H1 H2 H3 Hruns Hballs Hpid Hnz Hfresh H.
  destruct (computed_strike_rate_meets_spec (payload_runs b) (payload_balls b))
    as (sr0 & Hsr0 & Hspec); [lia | lia |].
  unfold insert_batting_score in H.
  unfold payload_player_id in Hpid. unfold payload_balls, payload_runs in *.
  apply bind_ok_inv in H as (pid' & w0 & Hp & H).
  apply lift_inv in Hp as [Hp ->]. rewrite Hpid in Hp. inversion Hp; subst pid'.
  destruct (pid =? 0) eqn:E; [lia |]. clear E.
  rewrite (dict_get_absent _ _ H1), (dict_get_absent _ _ H2), (dict_get_absent _ _ H3) in H.
  simpl (safe_float _ _) in H.
  apply bind_ok_inv in H as (sr & w1 & Hsr & H).
  destruct Hballs as [Hb0 Hb1]. apply Z.gtb_lt in Hb0 as Hb. rewrite Hb in Hsr.
  apply bind_ok_inv in Hsr as (x & w2 & Hx & Hret).
  apply lift_inv in Hx as [Hx ->]. apply ret_inv in Hret as [Hret ->].
  inversion Hret; subst sr.
  rewrite Hsr0 in Hx. injection Hx as ->.
  apply bind_ok_inv in H as (team & w3 & Hteam & H).
  assert (Hw3 : w3 = w).
  { destruct (truthy (if truthy team_id then team_id
                      else opt_int (safe_int (dict_get b "teamId") (Some 0)))).
    - apply ret_inv in Hteam as [_ ->]. reflexivity.
    - apply bind_ok_inv in Hteam as (t & w4 & Ht & Hr).
      apply ret_inv in Hr as [_ ->].
      unfold resolve_team_id in Ht.
      destruct (negb (truthy (dict_get b "teamName" ||| dict_get b "team"))).
      + apply ret_inv in Ht as [_ ->]. reflexivity.
      + apply bind_ok_inv in Ht as (p & w5 & Hl & Hf).
        apply lift_inv in Hl as [_ ->]. inversion Hf. reflexivity. }
  subst w3.
  apply bind_ok_inv in H as (is_out & w4 & Hout & H).
  apply lift_inv in Hout as [_ ->].
  apply bind_ok_inv in H as (p_team & w5 & Hpt & H).
  apply lift_inv in Hpt as [_ ->].
  destruct (has_match (db w) mid && has_player (db w) pid); [| discriminate].
  inversion H; subst w'. clear H. simpl.
  rewrite (iodku_no_conflict bat_id batting_update).
  - eexists; exists sr0. split; [reflexivity |]. simpl.
    repeat (split; [reflexivity |]). split; [exact Hspec |].
    intros sr' Hsr'. exact (strike_rate_spec_functional _ _ _ _ Hsr' Hspec).
  - simpl. eapply Forall_impl; [exact Hfresh |]. simpl. intros r Hr. lia.
Qed.

End BattingFacts.

(** The example of the specification, runs 45 off 30 balls and no
    strike-rate field, gives 150.00; runs 10 off 3 balls give 333.33 (the
    double [0x1.4d547ae147ae1p+8]), where the quotient, the product and the
    decimal are all rounded. *)
Lemma strike_rate_fallback_witness :
  (exists row,
     batting_stats (db (after (insert_batting_score 100 1 (VInt 2) batting_45_30 (Some 1))
                              fixture_world)) = [row]
     /\ bat_runs row = 45 /\ bat_balls row = 30
     /\ bat_strike_rate row = Some 150%float)
  /\ (exists row,
        batting_stats (db (after (insert_batting_score 100 1 (VInt 2) batting_10_3 (Some 1))
                                 fixture_world)) = [row]
        /\ bat_runs row = 10 /\ bat_balls row = 3
        /\ bat_strike_rate row = Some 0x1.4d547ae147ae1p+8%float).
Proof.
  split.
  - destruct (@strike_rate_fallback cpython 100 1 (VInt 2) batting_45_30 (Some 1) 7
                fixture_world
                (after (insert_batting_score 100 1 (VInt 2) batting_45_30 (Some 1))
                       fixture_world))
      as (row & sr & Hrows & _ & _ & _ & Hruns & Hballs & Hrow & _ & Huniq).
    + reflexivity.
    + reflexivity.
    + reflexivity.
    + vm_compute. split; discriminate.
    + vm_compute. split; [reflexivity | discriminate].
    + reflexivity.
    + discriminate.
    + constructor.
    + vm_compute. reflexivity.
    + exists row. split; [exact Hrows |].
      split; [exact Hruns |]. split; [exact Hballs |].
      rewrite Hrow. f_equal. symmetry. apply Huniq.
      exists 15000. split; [| vm_compute; reflexivity].
      vm_compute. split; intros HH; first [discriminate HH | reflexivity].
  - destruct (@strike_rate_fallback cpython 100 1 (VInt 2) batting_10_3 (Some 1) 7
                fixture_world
                (after (insert_batting_score 100 1 (VInt 2) batting_10_3 (Some 1))
                       fixture_world))
      as (row & sr & Hrows & _ & _ & _ & Hruns & Hballs & Hrow & _ & Huniq).
    + reflexivity.
    + reflexivity.
    + reflexivity.
    + vm_compute. split; discriminate.
    + vm_compute. split; [reflexivity | discriminate].
    + reflexivity.
    + discriminate.
    + constructor.
    + vm_compute. reflexivity.
    + exists row. split; [exact Hrows |].
      split; [exact Hruns |]. split; [exact Hballs |].
      rewrite Hrow. f_equal. symmetry. apply Huniq.
      exists 33333. split; [| vm_compute; reflexivity].
      vm_compute. split; intros HH; first [discriminate HH | reflexivity].
Defined.

(** ** C10: records without an identifier *)

Lemma absent_or_zero_get (d : dict) k :
  absent_or_zero d k -> dict_get d k = VNone \/ dict_get d k = VInt 0.
Proof. unfold dict_get. intros [-> | ->]; auto. Qed.

Lemma absent_or_zero_id (d : dict) k1 k2 :
  absent_or_zero d k1 -> absent_or_zero d k2 ->
  py_int (dict_get d k1 ||| dict_get d k2 ||| VInt 0) = Ok 0.
Proof.
  intros H1 H2.
  destruct (absent_or_zero_get d k1 H1) as [-> | ->],
           (absent_or_zero_get d k2 H2) as [-> | ->]; reflexivity.
Qed.

Lemma no_zero_ids_teams d t :
  no_zero_ids d -> Forall (fun r => team_id r <> 0) t -> no_zero_ids (set_teams t d).
Proof. unfold no_zero_ids. simpl. tauto. Qed.

Lemma no_zero_ids_players d t :
  no_zero_ids d -> Forall (fun r => player_id r <> 0) t -> no_zero_ids (set_players t d).
Proof. unfold no_zero_ids. simpl. tauto. Qed.

Lemma no_zero_ids_series d t :
  no_zero_ids d -> Forall (fun r => series_id r <> 0) t -> no_zero_ids (set_series t d).
Proof. unfold no_zero_ids. simpl. tauto. Qed.

Lemma no_zero_ids_matches d t :
  no_zero_ids d -> Forall (fun r => match_id r <> 0) t -> no_zero_ids (set_matches t d).
Proof. unfold no_zero_ids. simpl. tauto. Qed.

Lemma no_zero_ids_venues d t a :
  no_zero_ids d -> no_zero_ids (set_venues t a d).
Proof. unfold no_zero_ids. simpl. tauto. Qed.

Section IdentifierFacts.
Context `{RT : PyRuntime} (D : Deployment).

Lemma upsert_team_keeps_ids team : keeps no_zero_ids (upsert_team team).
Proof.
  unfold upsert_team. keeps_auto.
  apply keeps_write. intros d Hd.
  apply no_zero_ids_teams; [exact Hd |].
  apply (iodku_Forall team_id team_update).
  - simpl. lia.
  - intros old Hold. exact Hold.
  - apply Hd.
Qed.

#[local] Hint Resolve upsert_team_keeps_ids : keeps.

Lemma upsert_player_keeps_ids player team enrich :
  keeps no_zero_ids (upsert_player D player team enrich).
Proof.
  unfold upsert_player, extract_player_profile. keeps_auto.
  apply keeps_guarded_write with (g := fun w => has_team (db w) team).
  intros d Hd.
  apply no_zero_ids_players; [exact Hd |].
  apply (iodku_Forall player_id player_update).
  - simpl. lia.
  - intros old Hold. exact Hold.
  - apply Hd.
Qed.

Lemma upsert_series_keeps_ids s : keeps no_zero_ids (upsert_series s).
Proof.
  unfold upsert_series. keeps_auto.
  apply keeps_write. intros d Hd.
  apply no_zero_ids_series; [exact Hd |].
  apply (iodku_Forall series_id series_update).
  - simpl. lia.
  - intros old Hold. exact Hold.
  - apply Hd.
Qed.

Lemma get_or_create_venue_keeps (I : DB -> Prop) name city country capacity :
  (forall d t a, I d -> I (set_venues t a d)) ->
  keeps I (get_or_create_venue name city country capacity).
Proof.
  intros HI. unfold get_or_create_venue. keeps_auto.
  intros w r w' H Hw.
  destruct (find _ (venues (db w))).
  - inversion H; subst. simpl. apply HI. exact Hw.
  - destruct (existsb _ (venues (db w))); inversion H; subst; simpl; auto.
Qed.

Lemma execute_upsert_match_keeps_ids row :
  match_id row <> 0 -> keeps no_zero_ids (execute_upsert_match row).
Proof.
  intros Hrow w r w' H Hw. unfold execute_upsert_match in H.
  destruct (_ && _); inversion H; subst; [| exact Hw]. simpl.
  apply no_zero_ids_matches; [exact Hw |].
  apply (iodku_Forall match_id match_update).
  - exact Hrow.
  - intros old Hold. exact Hold.
  - apply Hw.
Qed.

Lemma upsert_match_basic_keeps_ids m sid :
  keeps no_zero_ids (upsert_match_basic D m sid).
Proof.
  unfold upsert_match_basic, extract_match_info.
  destruct (_to_int _ None) as [mid |]; [| apply keeps_ret].
  destruct (mid =? 0) eqn:E; [apply keeps_ret |].
  keeps_auto;
    try (apply get_or_create_venue_keeps; intros; apply no_zero_ids_venues; assumption);
    try (apply execute_upsert_match_keeps_ids; simpl; lia).
Qed.

(** C10. Each of the four entity upserts resolves the numeric identifier
    first.  Whenever the identifier resolves to zero, and for a match also
    when it resolves to nothing (both keys absent, or carrying null, 0,
    0.0, false, the empty text, the text "0", and for a match a text
    that is not a number), the call returns normally and leaves the world
    exactly as it was: no row written, no profile or match-center request
    sent, no team or venue side-write, nothing printed.  In particular
    this holds when both keys are absent or the integer 0, and more
    generally when neither key carries a truthy value.  And whatever
    the payload, none of the four ever puts a row with identifier 0 into
    teams, players, series or matches: a store without such rows stays
    without them, whether the call returns or raises. *)
Theorem upserts_skip_records_without_identifier :
  (forall team w,
      resolved_id team "teamId" "id" = Ok 0 ->
      upsert_team team w = (Ok tt, w))
  /\ (forall player team_id enrich w,
         resolved_id player "id" "playerId" = Ok 0 ->
         upsert_player D player team_id enrich w = (Ok tt, w))
  /\ (forall s w,
         resolved_id s "seriesId" "id" = Ok 0 ->
         upsert_series s w = (Ok tt, w))
  /\ (forall m series_id w,
         resolved_match_id m = None \/ resolved_match_id m = Some 0 ->
         upsert_match_basic D m series_id w = (Ok tt, w))
  /\ (forall d k1 k2,
         absent_or_zero d k1 -> absent_or_zero d k2 ->
         resolved_id d k1 k2 = Ok 0
         /\ (k1 = "matchId" -> k2 = "id" ->
             resolved_match_id d = None \/ resolved_match_id d = Some 0))
  /\ (forall d k1 k2,
         truthy (dict_get d k1) = false -> truthy (dict_get d k2) = false ->
         resolved_id d k1 k2 = Ok 0)
  /\ (forall m,
         truthy (dict_get m "matchId") = false -> truthy (dict_get m "id") = false ->
         resolved_match_id m = None \/ resolved_match_id m = Some 0)
  /\ (forall team, keeps no_zero_ids (upsert_team team))
  /\ (forall player team_id enrich,
         keeps no_zero_ids (upsert_player D player team_id enrich))
  /\ (forall s, keeps no_zero_ids (upsert_series s))
  /\ (forall m series_id, keeps no_zero_ids (upsert_match_basic D m series_id)).
Proof.
  split; [| split; [| split; [| split; [| split; [| split; [| split; [| split;
    [| split; [| split]]]]]]]]].
  - intros team w H. unfold upsert_team, bind, lift.
    unfold resolved_id in H. rewrite H. reflexivity.
  - intros player team_id enrich w H. unfold upsert_player, bind, lift.
    unfold resolved_id in H. rewrite H. reflexivity.
  - intros s w H. unfold upsert_series, bind, lift.
    unfold resolved_id in H. rewrite H. reflexivity.
  - intros m series_id w H. unfold upsert_match_basic.
    unfold resolved_match_id in H. destruct H as [-> | ->]; reflexivity.
  - intros d k1 k2 H1 H2. split; [apply absent_or_zero_id; assumption |].
    intros -> ->. unfold resolved_match_id.
    destruct (absent_or_zero_get d "matchId" H1) as [-> | ->],
             (absent_or_zero_get d "id" H2) as [-> | ->]; cbn; auto.
  - intros d k1 k2 H1 H2. unfold resolved_id, py_or. rewrite H1, H2. reflexivity.
  - intros m H1 H2. unfold resolved_match_id, py_or. rewrite H1.
    destruct (dict_get m "id") as [| b | n | f | s | l | l]; cbn in H2.
    + left. reflexivity.
    + subst b. right. reflexivity.
    + apply negb_false_iff, Z.eqb_eq in H2. subst n. right. reflexivity.
    + right. unfold float_truthy in H2. apply negb_false_iff in H2.
      rewrite FloatAxioms.eqb_spec in H2.
      change (Prim2SF 0) with (S754_zero false) in H2.
      unfold _to_int, py_int, int_of_float.
      destruct (Prim2SF f) as [s0 | s0 | | s0 m0 e0]; try reflexivity;
        try (destruct s0; discriminate H2); discriminate H2.
    + apply negb_false_iff, String.eqb_eq in H2. subst s. left. reflexivity.
    + destruct l; [left; reflexivity | discriminate].
    + destruct l; [left; reflexivity | discriminate].
  - apply upsert_team_keeps_ids.
  - apply upsert_player_keeps_ids.
  - apply upsert_series_keeps_ids.
  - apply upsert_match_basic_keeps_ids.
Qed.

End IdentifierFacts.

(** Identifiers that resolve to zero or to nothing: the integer 0, JSON
    null next to the text "0", an absent key, the empty text, the float
    0.0 next to [false], and a match id that is not a number. *)
Lemma upserts_skip_records_without_identifier_witness :
  upsert_team [("teamName", VStr "Nameless"); ("teamId", VInt 0)] initial_world
  = (Ok tt, initial_world)
  /\ upsert_team [("teamId", VNone); ("id", VStr "0")] initial_world
     = (Ok tt, initial_world)
  /\ upsert_player unreachable [("name", VStr "Nobody")] 2 None fixture_world
     = (Ok tt, fixture_world)
  /\ upsert_player unreachable [("id", VStr EmptyString); ("name", VStr "Nobody")] 2 None
       fixture_world
     = (Ok tt, fixture_world)
  /\ upsert_series [("seriesId", VFloat 0%float); ("id", VBool false)] initial_world
     = (Ok tt, initial_world)
  /\ upsert_match_basic unreachable
       [("id", VInt 0); ("team1", VDict [("teamId", VInt 1)]);
        ("venueInfo", VDict [("ground", VStr "Eden Gardens")])] None fixture_world
     = (Ok tt, fixture_world)
  /\ upsert_match_basic unreachable
       [("matchId", VStr "n/a"); ("team1", VDict [("teamId", VInt 1)]);
        ("venueInfo", VDict [("ground", VStr "Eden Gardens")])] None fixture_world
     = (Ok tt, fixture_world)
  /\ no_zero_ids (db (after (upsert_match_basic unreachable match_first None) initial_world)).
Proof.
  pose proof (@upserts_skip_records_without_identifier cpython unreachable)
    as (Ht & Hp & Hs & Hm & _ & _ & _ & _ & _ & _ & Hkeep).
  split; [| split; [| split; [| split; [| split; [| split; [| split]]]]]].
  - apply Ht. reflexivity.
  - apply Ht. reflexivity.
  - apply Hp. reflexivity.
  - apply Hp. reflexivity.
  - apply Hs. reflexivity.
  - apply Hm. right. reflexivity.
  - apply Hm. left. reflexivity.
  - eapply (Hkeep match_first None initial_world).
    + apply surjective_pairing.
    + repeat split; constructor.
Defined.

(** ** C6: re-ingesting a match *)

Lemma bind_ok_keeps {A B} (I : DB -> Prop) (c : M A) (k : A -> M B) w b w' :
  keeps I c -> I (db w) ->
  bind c k w = (Ok b, w') ->
  exists a w1, I (db w1) /\ k a w1 = (Ok b, w').
Proof.
  intros Hc HI H. apply bind_ok_inv in H as (a & w1 & H1 & H2).
  exists a, w1. split; [eapply Hc; eauto | exact H2].
Qed.

Lemma string_take_idem n s : string_take n (string_take n s) = string_take n s.
Proof.
  revert s. induction n as [| n IH]; intros [| c s]; simpl; try reflexivity.
  rewrite IH. reflexivity.
Qed.

Lemma string_take_nonempty n s :
  s <> EmptyString -> string_take (S n) s <> EmptyString.
Proof. destruct s; simpl; congruence. Qed.

Section MatchFacts.
Context `{RT : PyRuntime} (D : Deployment).

Lemma upsert_team_keeps_matches T team : keeps (fun d => matches d = T) (upsert_team team).
Proof.
  unfold upsert_team. keeps_auto. apply keeps_write. intros d Hd. exact Hd.
Qed.

Lemma match_list_fields_victory m f v :
  match_list_fields m = Ok f ->
  payload_victory_type m = Ok v ->
  victory_type f = _short v 50.
Proof.
  unfold match_list_fields, payload_victory_type.
  destruct (py_get (dict_get m "tossResults" ||| dict_get m "toss" ||| VDict []) "tossWinnerId");
    simpl; [| discriminate].
  destruct (py_or_else _ _); simpl; [| discriminate].
  destruct (py_get _ "decision"); simpl; [| discriminate].
  destruct (py_or_else _ _); simpl; [| discriminate].
  destruct (py_get (dict_get m "result" ||| VDict []) "resultMargin"); simpl; [| discriminate].
  destruct (py_or_else _ _); simpl; [| discriminate].
  destruct (py_get (dict_get m "result" ||| VDict []) "resultType"); simpl; [| discriminate].
  destruct (py_or_else _ _); simpl; [| discriminate].
  intros Hf Hv. inversion Hf; inversion Hv; subst. reflexivity.
Qed.

Lemma run_steps_invariant {S : Type} (P : S -> Prop) (steps : list (S -> result S)) :
  Forall (fun step => forall s s', P s -> step s = Ok s' -> P s') steps ->
  forall s, P s -> P (fst (run_steps steps s)).
Proof.
  induction 1 as [| step steps Hstep _ IH]; intros s Hs; simpl; [exact Hs |].
  destruct (step s) as [s' |] eqn:E; simpl; [| exact Hs].
  apply IH. eapply Hstep; eauto.
Qed.

(** A victory type already known (a non-empty text of at most 50
    characters) survives the match-center block. *)
Lemma mcenter_enrich_settled s mc f :
  s <> EmptyString -> string_take 50 s = s ->
  settled s f -> settled s (fst (mcenter_enrich mc f)).
Proof.
  intros Hne Htake Hf. unfold mcenter_enrich.
  destruct (py_get (mc ||| VDict []) "matchHeader") as [h |]; [| exact Hf].
  destruct (h ||| VDict []); try exact Hf.
  apply run_steps_invariant; [| exact Hf].
  unfold enrich_steps, settled.
  repeat first [apply List.Forall_nil | apply List.Forall_cons]; intros f0 f1 H0 H1.
  - inversion H1; subst. exact H0.
  - destruct (if truthy_int (toss_winner_id f0) then _ else _); simpl in H1;
      inversion H1; subst. exact H0.
  - destruct (py_or_else (toss_decision f0) _); simpl in H1; inversion H1; subst. exact H0.
  - destruct (py_or_else (win_margin f0) _); simpl in H1; inversion H1; subst. exact H0.
  - rewrite H0 in H1. unfold py_or_else, opt_str, truthy in H1.
    destruct (String.eqb s EmptyString) eqn:E; [apply String.eqb_eq in E; congruence |].
    cbn [negb rbind _short py_str] in H1. injection H1 as <-.
    cbn [victory_type]. f_equal. exact Htake.
Qed.

Lemma query_mcenter_settled s mid f w f' w' :
  s <> EmptyString -> string_take 50 s = s ->
  settled s f ->
  query_mcenter D mid f w = (Ok f', w') ->
  settled s f' /\ db w' = db w.
Proof.
  intros Hne Htake Hf H. unfold query_mcenter, try_except, bind, extract_match_info in H.
  destruct (api_get D _ None w) as [[mc | e] w1] eqn:E;
    apply api_get_outcome in E.
  - pose proof (mcenter_enrich_settled s mc f Hne Htake Hf) as Hs.
    destruct (mcenter_enrich mc f) as [f1 [e |]]; simpl in *;
      inversion H; subst; auto.
  - inversion H; subst. auto.
Qed.

Lemma query_mcenter_keeps I mid f : keeps I (query_mcenter D mid f).
Proof.
  unfold query_mcenter, extract_match_info. keeps_auto.
Qed.

#[local] Hint Resolve upsert_team_keeps_matches query_mcenter_keeps : keeps.

Lemma raising_bind {A B} (I : DB -> Prop) (c : M A) (k : A -> M B) :
  keeps I c -> (forall a, keeps_when_raising I (k a)) ->
  keeps_when_raising I (bind c k).
Proof.
  intros Hc Hk w e w' H Hw. unfold bind in H.
  destruct (c w) as [[a | e'] w1] eqn:E.
  - eapply Hk; eauto.
  - inversion H; subst. eapply Hc; eauto.
Qed.

Lemma raising_ret {A} (I : DB -> Prop) (a : A) : keeps_when_raising I (ret a).
Proof. intros w e w' H. inversion H. Qed.

Lemma upsert_match_raising_keeps_matches T m sid :
  keeps_when_raising (fun d => matches d = T) (upsert_match_basic D m sid).
Proof.
  unfold upsert_match_basic.
  destruct (_to_int _ None) as [mid |]; [| apply raising_ret].
  destruct (mid =? 0) eqn:E; [apply raising_ret |].
  repeat (apply raising_bind;
          [ first [ solve [keeps_auto]
                  | solve [apply get_or_create_venue_keeps; intros ? ? ? HH; exact HH]
                  | solve [destruct (need_mcenter _);
                           [apply query_mcenter_keeps | apply keeps_ret]] ]
          | intros ? ]).
  intros w e w' H Hw. unfold execute_upsert_match in H.
  destruct (_ && _); congruence.
Qed.

Lemma with_store_same w : with_store (db w) w = w.
Proof. destruct w. reflexivity. Qed.

(** The team upserts of [upsert_match_basic] change the teams table and
    nothing else. *)
Lemma upsert_team_touches_teams team w u w' :
  upsert_team team w = (Ok u, w') ->
  exists d, w' = with_store d w
            /\ matches d = matches (db w)
            /\ venues d = venues (db w) /\ venues_auto d = venues_auto (db w).
Proof.
  unfold upsert_team. intros H.
  apply bind_ok_inv in H as (id & w1 & Hid & H). apply lift_inv in Hid as [_ ->].
  destruct (id =? 0).
  - apply ret_inv in H as [_ ->]. exists (db w).
    rewrite with_store_same. auto.
  - apply bind_ok_inv in H as (p1 & w1 & H1 & H). apply lift_inv in H1 as [_ ->].
    apply bind_ok_inv in H as (p2 & w2 & H2 & H). apply lift_inv in H2 as [_ ->].
    apply bind_ok_inv in H as (p3 & w3 & H3 & H). apply lift_inv in H3 as [_ ->].
    inversion H; subst w'. eexists. split; [reflexivity |]. simpl. auto.
Qed.

Lemma team_step_touches_teams (b : bool) (t : pyval) w u w' :
  (if b then ret tt else let* d := lift (as_dict t) in upsert_team d) w = (Ok u, w') ->
  exists d, w' = with_store d w
            /\ matches d = matches (db w)
            /\ venues d = venues (db w) /\ venues_auto d = venues_auto (db w).
Proof.
  destruct b; intros H.
  - apply ret_inv in H as [_ ->]. exists (db w). rewrite with_store_same. auto.
  - apply bind_ok_inv in H as (d & w1 & Hd & H). apply lift_inv in Hd as [_ ->].
    eapply upsert_team_touches_teams. exact H.
Qed.

(** [get_or_create_venue] changes the venues table and nothing else. *)
Lemma get_or_create_venue_touches_venues name city country capacity w v w' :
  get_or_create_venue name city country capacity w = (Ok v, w') ->
  exists d, w' = with_store d w
            /\ matches d = matches (db w) /\ teams d = teams (db w).
Proof.
  unfold get_or_create_venue. intros H.
  destruct (negb (truthy name)).
  - apply ret_inv in H as [_ ->]. exists (db w). rewrite with_store_same. auto.
  - apply bind_ok_inv in H as (p1 & w1 & H1 & H). apply lift_inv in H1 as [_ ->].
    apply bind_ok_inv in H as (p2 & w2 & H2 & H). apply lift_inv in H2 as [_ ->].
    apply bind_ok_inv in H as (p3 & w3 & H3 & H). apply lift_inv in H3 as [_ ->].
    destruct (find _ (venues (db w))).
    + inversion H; subst w'. eexists. split; [reflexivity |]. simpl. auto.
    + destruct (existsb _ (venues (db w))); inversion H; subst w'.
      eexists. split; [reflexivity |]. simpl. auto.
Qed.

Lemma payload_team_id_read m k x :
  (let t := dict_get m k ||| VDict [] ||| VDict [] in
   let? a := py_get t "teamId" in py_or_else a (py_get t "id")) = Ok x ->
  payload_team_id m k = Ok (default 0 (_to_int x (Some 0))).
Proof.
  unfold payload_team_id. cbv zeta.
  destruct (py_get (dict_get m k ||| VDict [] ||| VDict []) "teamId") as [a |];
    simpl; [| discriminate].
  intros ->. reflexivity.
Qed.

(** C6, as the code has it.  Re-ingesting a match whose identifier is a
    non-zero integer either raises, and then the matches table is as it
    was, or returns normally, and then every column of the stored row but
    the key holds the value derived from the new payload, whatever the row
    held before: the series is the one passed in; the two teams are the
    identifiers the payload names, both stored; the date is [_to_date] of
    the payload's date fields, hence null when the payload supplies no
    date; the venue is the one [get_or_create_venue] answers for the
    payload's venue fields; winner, margin, victory type, toss winner and
    toss decision are the payload's result fields, completed by the match
    center when one of them is missing; format and description are the
    payload's.  In particular a victory type the payload carries is stored
    (cut to 50 characters).  The rows of the other matches are untouched
    and no row is added for a match already stored. *)
Theorem upsert_match_overwrites_stored_row m sid mid w r w' :
  _to_int (dict_get m "matchId" ||| dict_get m "id") None = Some mid ->
  mid <> 0 ->
  upsert_match_basic D m sid w = (r, w') ->
  match r with
  | Raise _ => matches (db w') = matches (db w)
  | Ok _ =>
      exists r' t1 t2 name city country capacity dv wv f f',
        stored_match (db w') mid = Some r'
        /\ match_series_id r' = sid
        /\ payload_team_id m "team1" = Ok t1 /\ match_team1_id r' = Some t1
        /\ payload_team_id m "team2" = Ok t2 /\ match_team2_id r' = Some t2
        /\ has_team (db w') t1 = true /\ has_team (db w') t2 = true
        /\ match_date r' = payload_match_date m
        /\ payload_venue m = Ok (name, city, country, capacity)
        /\ venues dv = venues (db w) /\ venues_auto dv = venues_auto (db w)
        /\ get_or_create_venue name city country capacity (with_store dv w)
           = (Ok (match_venue_id r'), wv)
        /\ match_list_fields m = Ok f
        /\ (if need_mcenter f
            then exists dq wq, query_mcenter D mid f (with_store dq w) = (Ok f', wq)
            else f' = f)
        /\ match_winner_id r' = winner_id f'
        /\ to_sql (coerce_margin (win_margin f')) = Ok (match_win_margin r')
        /\ match_victory_type r' = victory_type f'
        /\ match_toss_winner_id r' = toss_winner_id f'
        /\ to_sql (toss_decision f') = Ok (match_toss_decision r')
        /\ to_sql (payload_format m) = Ok (match_format r')
        /\ to_sql (payload_description m) = Ok (match_description r')
        /\ (forall s, payload_victory_type m = Ok (VStr s) -> s <> EmptyString ->
                      match_victory_type r' = Some (string_take 50 s))
        /\ (forall k, k <> mid -> stored_match (db w') k = stored_match (db w) k)
        /\ (forall old, stored_match (db w) mid = Some old ->
                        length (matches (db w')) = length (matches (db w)))
  end.
Proof.
  intros Hid Hnz H. destruct r as [[] | e].
  2: { eapply (upsert_match_raising_keeps_matches (matches (db w))); eauto. }
  unfold upsert_match_basic in H. rewrite Hid in H.
  destruct (mid =? 0) eqn:E; [lia |]. clear E.
  apply bind_ok_inv in H as (x1 & w1 & Hx1 & H). apply lift_inv in Hx1 as [Hx1 ->].
  apply bind_ok_inv in H as (x2 & w2 & Hx2 & H). apply lift_inv in Hx2 as [Hx2 ->].
  symmetry in Hx1, Hx2.
  apply payload_team_id_read in Hx1, Hx2.
  set (t1 := default 0 (_to_int x1 (Some 0))) in *.
  set (t2 := default 0 (_to_int x2 (Some 0))) in *.
  apply bind_ok_inv in H as (u1 & w3 & Hu1 & H).
  apply team_step_touches_teams in Hu1 as (d3 & -> & Hm3 & Hv3 & Ha3).
  apply bind_ok_inv in H as (u2 & w4 & Hu2 & H).
  apply team_step_touches_teams in Hu2 as (d4 & -> & Hm4 & Hv4 & Ha4).
  change (with_store d4 (with_store d3 w)) with (with_store d4 w) in H.
  cbn [with_store with_db db] in Hm4, Hv4, Ha4.
  apply bind_ok_inv in H as (vg & w5 & Hvg & H). apply lift_inv in Hvg as [Hvg ->].
  apply bind_ok_inv in H as (vname & w6 & Hvn & H). apply lift_inv in Hvn as [Hvn ->].
  apply bind_ok_inv in H as (vcity & w7 & Hvc & H). apply lift_inv in Hvc as [Hvc ->].
  apply bind_ok_inv in H as (vcountry & w8 & Hvk & H). apply lift_inv in Hvk as [Hvk ->].
  apply bind_ok_inv in H as (cap & w9 & Hcap & H). apply lift_inv in Hcap as [Hcap ->].
  apply bind_ok_inv in H as (vid & w10 & Hvenue & H).
  pose proof (get_or_create_venue_touches_venues _ _ _ _ _ _ _ Hvenue)
    as (d10 & -> & Hm10 & Ht10).
  change (with_store d10 (with_store d4 w)) with (with_store d10 w) in H.
  cbn [with_store with_db db] in Hm10, Ht10.
  apply bind_ok_inv in H as (f & w11 & Hf & H). apply lift_inv in Hf as [Hf ->].
  apply bind_ok_inv in H as (f' & w12 & Hq & H).
  assert (Hd12 : db w12 = d10).
  { destruct (need_mcenter f).
    - eapply (query_mcenter_keeps (fun d => d = d10)); [exact Hq | reflexivity].
    - apply ret_inv in Hq as [_ ->]. reflexivity. }
  assert (Hvt : forall s, payload_victory_type m = Ok (VStr s) -> s <> EmptyString ->
                          victory_type f' = Some (string_take 50 s)).
  { intros s Hs Hne.
    assert (Hs0 : settled (string_take 50 s) f).
    { unfold settled. rewrite (match_list_fields_victory m f (VStr s)); auto. }
    destruct (need_mcenter f).
    - eapply (query_mcenter_settled (string_take 50 s)) in Hq as [Hq' _]; eauto.
      + apply string_take_nonempty. exact Hne.
      + apply string_take_idem.
    - apply ret_inv in Hq as [Hq' _]. inversion Hq'; subst. exact Hs0. }
  apply bind_ok_inv in H as (pm & w13 & Hpm & H). apply lift_inv in Hpm as [Hpm ->].
  apply bind_ok_inv in H as (pd & w14 & Hpd & H). apply lift_inv in Hpd as [Hpd ->].
  apply bind_ok_inv in H as (pf & w15 & Hpf & H). apply lift_inv in Hpf as [Hpf ->].
  apply bind_ok_inv in H as (pdesc & w16 & Hpdesc & H).
  apply lift_inv in Hpdesc as [Hpdesc ->].
  unfold execute_upsert_match in H.
  destruct (_ && _) eqn:Hfk; [| discriminate]. inversion H; subst w'. clear H.
  cbn [match_series_id match_team1_id match_team2_id match_venue_id fk_ok] in Hfk.
  apply andb_true_iff in Hfk as [Hfk _].
  apply andb_true_iff in Hfk as [Hfk Hteam2].
  apply andb_true_iff in Hfk as [_ Hteam1].
  assert (HM : matches (db w12) = matches (db w)) by congruence.
  unfold stored_match. cbn [with_db db]. simpl matches. rewrite HM.
  match goal with
  | |- context [insert_on_duplicate_key_update _ _ ?row _] => set (new := row)
  end.
  exists (match find (fun r => match_id r =? mid) (matches (db w)) with
          | Some old => match_update new old
          | None => new
          end), t1, t2, vname, vcity, vcountry, cap, d4.
  eexists. exists f, f'.
  split; [exact (iodku_find_key match_id match_update (fun _ _ => eq_refl) new _) |].
  split; [destruct (find _ (matches (db w))); reflexivity |].
  split; [exact Hx1 |].
  split; [destruct (find _ (matches (db w))); reflexivity |].
  split; [exact Hx2 |].
  split; [destruct (find _ (matches (db w))); reflexivity |].
  split; [exact Hteam1 |].
  split; [exact Hteam2 |].
  split; [destruct (find _ (matches (db w))); reflexivity |].
  split.
  { unfold payload_venue. cbv zeta. rewrite <- Hvg. cbn [rbind].
    rewrite <- Hvn. cbn [rbind]. rewrite <- Hvc. cbn [rbind].
    rewrite <- Hvk. cbn [rbind]. rewrite <- Hcap. reflexivity. }
  split; [congruence |].
  split; [congruence |].
  split.
  { replace (match_venue_id _) with vid
      by (destruct (find _ (matches (db w))); reflexivity).
    exact Hvenue. }
  split; [symmetry; exact Hf |].
  split.
  { destruct (need_mcenter f).
    - exists d10, w12. exact Hq.
    - apply ret_inv in Hq as [Hq _]. congruence. }
  split; [destruct (find _ (matches (db w))); reflexivity |].
  split.
  { rewrite <- Hpm. destruct (find _ (matches (db w))); reflexivity. }
  split; [destruct (find _ (matches (db w))); reflexivity |].
  split; [destruct (find _ (matches (db w))); reflexivity |].
  split.
  { rewrite <- Hpd. destruct (find _ (matches (db w))); reflexivity. }
  split.
  { unfold payload_format. rewrite <- Hpf.
    destruct (find _ (matches (db w))); reflexivity. }
  split.
  { unfold payload_description. rewrite <- Hpdesc.
    destruct (find _ (matches (db w))); reflexivity. }
  split.
  { intros s Hs Hne. transitivity (victory_type f').
    - destruct (find _ (matches (db w))); reflexivity.
    - exact (Hvt s Hs Hne). }
  split.
  - intros k Hk. apply (iodku_find_other match_id match_update (fun _ _ => eq_refl)).
    simpl. exact Hk.
  - intros old Hold.
    eapply (iodku_length_stored match_id match_update). exact Hold.
Qed.

End MatchFacts.

(** C6 as stated fails: the match is stored with its date, then listed
    again with a new result and without a date; the stored victory type is
    updated and the stored date is lost. *)
Lemma reingested_match_loses_its_date :
  let first := upsert_match_basic unreachable match_first None in
  let again := upsert_match_basic unreachable match_again None in
  option_map match_date (stored_match (db (after first initial_world)) 100)
  = Some (Some "2024-01-15")
  /\ dict_lookup match_again "matchDate" = None
  /\ option_map match_victory_type
       (stored_match (db (after (first ;; again) initial_world)) 100)
     = Some (Some "India won by 5 wickets")
  /\ option_map match_date
       (stored_match (db (after (first ;; again) initial_world)) 100)
     = Some None.
Proof. vm_compute. repeat split; reflexivity. Qed.

Lemma upsert_match_overwrites_stored_row_witness :
  let w1 := after (upsert_match_basic unreachable match_first None) initial_world in
  let w2 := after (upsert_match_basic unreachable match_again None) w1 in
  let teamless := [("matchId", VInt 100); ("status", VStr "Abandoned")] in
  (exists r',
     stored_match (db w2) 100 = Some r'
     /\ match_team1_id r' = Some 1 /\ match_team2_id r' = Some 2
     /\ match_date r' = None
     /\ match_victory_type r' = Some "India won by 5 wickets"
     /\ match_description r' = SStr "India won by 5 wickets"
     /\ length (matches (db w2)) = 1%nat)
  /\ (exists e w3,
        upsert_match_basic unreachable teamless None w2 = (Raise e, w3)
        /\ matches (db w3) = matches (db w2)).
Proof.
  intros w1 w2 teamless. split.
  - destruct (@upsert_match_overwrites_stored_row cpython unreachable match_again None 100
                w1 (Ok tt) w2)
      as (r' & t1 & t2 & name & city & country & capacity & dv & wv & f & f'
          & Hst & _ & Ht1 & Hr1 & Ht2 & Hr2 & _ & _ & Hdate & _ & _ & _ & _ & _ & _
          & _ & _ & _ & _ & _ & _ & Hdesc & Hvt & _ & Hlen).
    + reflexivity.
    + discriminate.
    + vm_compute. reflexivity.
    + exists r'. split; [exact Hst |].
      vm_compute in Ht1, Ht2.
      injection Ht1 as <-. injection Ht2 as <-.
      assert (Hd : to_sql (payload_description match_again)
                   = Ok (SStr "India won by 5 wickets")) by reflexivity.
      rewrite Hd in Hdesc. injection Hdesc as <-.
      split; [exact Hr1 |].
      split; [exact Hr2 |].
      split; [rewrite Hdate; reflexivity |].
      split; [apply (Hvt "India won by 5 wickets"); [reflexivity | discriminate] |].
      split; [reflexivity |].
      destruct (stored_match (db w1) 100) as [old |] eqn:E.
      * rewrite (Hlen old eq_refl). vm_compute. reflexivity.
      * vm_compute in E. discriminate.
  - remember (upsert_match_basic unreachable teamless None w2) as p eqn:E.
    destruct p as [r w3]. symmetry in E.
    pose proof (@upsert_match_overwrites_stored_row cpython unreachable teamless None 100
                  w2 r w3 eq_refl ltac:(discriminate) E) as Hr.
    destruct r as [[] | e].
    + vm_compute in E. discriminate.
    + exists e, w3. split; [reflexivity | exact Hr].
Defined.

(** * Further properties of the code *)

(** ** The GET wrapper: effort, counter and backoff *)

Section FetchEffort.
Context (D : Deployment).

Lemma api_get_try_effect url params w r w' :
  api_get_try D url params w = (r, w') ->
  requests_sent w' = S (requests_sent w)
  /\ API_CALLS w <= API_CALLS w' <= API_CALLS w + 1
  /\ Z.of_nat (length (api_trace w')) - Z.of_nat (length (api_trace w))
     = API_CALLS w' - API_CALLS w
  /\ clock w' = clock w.
Proof.
  unfold api_get_try, requests_get, raise_for_status, bind, print, ret, raise.
  destruct (http D url params (requests_sent w)) as [e | resp]; simpl.
  - intros H; inversion H; subst; simpl. repeat split; lia.
  - destruct ((400 <=? status_code resp) && (status_code resp <? 600)); simpl.
    + intros H; inversion H; subst; simpl. rewrite length_app. simpl.
      repeat split; lia.
    + destruct (json resp); simpl; intros H; inversion H; subst; simpl;
        rewrite length_app; simpl; repeat split; lia.
Qed.

Lemma api_get_loop_effect url params retries backoff :
  0 <= backoff ->
  forall left attempt w r w',
    0 <= attempt ->
    api_get_loop D left url params retries backoff attempt w = (r, w') ->
    (requests_sent w < requests_sent w' <= requests_sent w + left + 1)%nat
    /\ API_CALLS w <= API_CALLS w'
    /\ API_CALLS w' - API_CALLS w
       <= Z.of_nat (requests_sent w') - Z.of_nat (requests_sent w)
    /\ Z.of_nat (length (api_trace w')) - Z.of_nat (length (api_trace w))
       = API_CALLS w' - API_CALLS w
    /\ clock w <= clock w'.
Proof.
  intros Hb. induction left as [| left IH]; intros attempt w r w' Ha H;
    simpl in H; unfold try_except in H;
    destruct (api_get_try D url params w) as [[v | e] w1] eqn:E;
    apply api_get_try_effect in E as (Hs & Hc & Ht & Hk).
  - inversion H; subst. repeat split; lia.
  - destruct e; try (inversion H; subst; repeat split; lia).
    destruct (attempt + 1 >? retries);
      unfold bind, print, ret in H; rewrite ?sleep_nonneg in H by nia; simpl in H;
      inversion H; subst; simpl; repeat split; nia.
  - inversion H; subst. repeat split; lia.
  - destruct e; try (inversion H; subst; repeat split; lia).
    destruct (attempt + 1 >? retries).
    + unfold bind, print, ret in H; simpl in H.
      inversion H; subst; simpl; repeat split; lia.
    + unfold bind, print in H. rewrite sleep_nonneg in H by nia. simpl in H.
      apply IH in H; [| lia]. simpl in H.
      destruct H as (H1 & H2 & H3 & H4 & H5).
      repeat split; nia.
Qed.

(** X1. One call of the GET wrapper, whatever it returns or raises, sends
    at most [retries + 1] requests, counts at most one call per request
    sent and never lowers the counter, appends exactly one trace line per
    counted call, and never moves the clock back. *)
Theorem api_get_effort_is_bounded url params retries backoff w r w' :
  0 <= retries -> 0 <= backoff ->
  api_get_with D url params retries backoff w = (r, w') ->
  (requests_sent w <= requests_sent w')%nat
  /\ Z.of_nat (requests_sent w') <= Z.of_nat (requests_sent w) + retries + 1
  /\ API_CALLS w <= API_CALLS w'
  /\ API_CALLS w' - API_CALLS w
     <= Z.of_nat (requests_sent w') - Z.of_nat (requests_sent w)
  /\ Z.of_nat (length (api_trace w')) - Z.of_nat (length (api_trace w))
     = API_CALLS w' - API_CALLS w
  /\ clock w <= clock w'.
Proof.
  intros Hr Hb. unfold api_get_with.
  destruct (key_missing D); [intros H; inversion H; subst; repeat split; lia |].
  destruct (API_CALLS w >=? MAX_CALLS D);
    [intros H; inversion H; subst; repeat split; lia |].
  intros H. apply api_get_loop_effect in H; [| exact Hb | lia].
  destruct H as (H1 & H2 & H3 & H4 & H5). repeat split; lia.
Qed.

(** X2. The call cap is soft by a known margin: a counter that is at most
    [MAX_CALLS + retries] stays so across any call of the GET wrapper, and
    a counter already at the cap is never increased. *)
Theorem api_calls_overshoot_is_bounded url params retries backoff w r w' :
  0 <= retries -> 0 <= backoff ->
  API_CALLS w <= MAX_CALLS D + retries ->
  api_get_with D url params retries backoff w = (r, w') ->
  API_CALLS w' <= MAX_CALLS D + retries
  /\ (MAX_CALLS D <= API_CALLS w -> API_CALLS w' = API_CALLS w).
Proof.
  intros Hr Hb Hc H.
  pose proof (api_get_loop_effect url params retries backoff Hb) as Hloop.
  unfold api_get_with in H.
  destruct (key_missing D); [inversion H; subst; split; [lia | reflexivity] |].
  destruct (API_CALLS w >=? MAX_CALLS D) eqn:G;
    [inversion H; subst; split; [lia | reflexivity] |].
  apply Hloop in H; [| lia].
  destruct H as (H1 & H2 & H3 & H4 & H5). split; lia.
Qed.

End FetchEffort.

Lemma api_get_effort_is_bounded_witness :
  let w' := snd (api_get_with rate_limited teams_url None 5 800 initial_world) in
  Z.of_nat (requests_sent w') <= 6 /\ API_CALLS w' <= 6.
Proof.
  remember (api_get_with rate_limited teams_url None 5 800 initial_world) as p eqn:E.
  destruct p as [r w']. symmetry in E.
  apply api_get_effort_is_bounded in E as (_ & H1 & _ & H2 & _); [| lia | lia].
  change (requests_sent initial_world) with 0%nat in *.
  change (API_CALLS initial_world) with 0 in *.
  simpl. lia.
Defined.

Lemma api_calls_overshoot_is_bounded_witness :
  API_CALLS (snd (api_get_with rate_limited teams_url None 5 800 initial_world)) <= 8000 + 5.
Proof.
  remember (api_get_with rate_limited teams_url None 5 800 initial_world) as p eqn:E.
  destruct p as [r w']. symmetry in E.
  apply api_calls_overshoot_is_bounded in E as [H _]; [exact H | lia | lia |].
  change (API_CALLS initial_world) with 0.
  change (MAX_CALLS rate_limited) with 8000. lia.
Defined.





Section FetchBackoff.
Context (D : Deployment).


Lemma api_get_try_netfail url params w e :
  http D url params (requests_sent w) = NetFail e ->
  api_get_try D url params w
  = (Raise (RequestError e),
     with_fetch (API_CALLS w) (S (requests_sent w)) (api_trace w) w).
Proof.
  intros Hh. unfold api_get_try, requests_get, bind. rewrite Hh. reflexivity.
Qed.


Lemma api_get_loop_gives_up url params retries backoff :
  0 <= backoff ->
  forall n left attempt w,
    0 <= attempt ->
    n = Z.to_nat (retries - attempt) -> (n <= left)%nat -> attempt <= retries ->
    (forall i, exists e, http D url params (requests_sent w + i) = NetFail e) ->
    exists w',
      api_get_loop D left url params retries backoff attempt w = (Ok VNone, w')
      /\ requests_sent w' = (requests_sent w + n + 1)%nat
      /\ API_CALLS w' = API_CALLS w
      /\ clock w' = clock w + waits backoff attempt n
      /\ db w' = db w
      /\ last (console w') = Some (LogApiFailed retries url).
Proof.
  intros Hb.
  induction n as [| n IH]; intros left attempt w Ha0 Hn Hl Ha Hfail;
    destruct (Hfail 0%nat) as [e He]; rewrite Nat.add_0_r in He.
  - assert (G : (attempt + 1 >? retries) = true) by lia.
    eexists. split.
    + destruct left; simpl; unfold try_except;
        rewrite (api_get_try_netfail _ _ _ _ He), G; reflexivity.
    + simpl. rewrite last_snoc. repeat split; try lia.
  - destruct left as [| left]; [lia |].
    assert (G : (attempt + 1 >? retries) = false) by lia.
    simpl. unfold try_except. rewrite (api_get_try_netfail _ _ _ _ He), G.
    unfold bind, print. rewrite sleep_nonneg by nia. simpl.
    match goal with |- context [api_get_loop D left _ _ _ _ _ ?w2] =>
      destruct (IH left (attempt + 1) w2) as (w' & Hrun & H1 & H2 & H3 & H4 & H5)
    end.
    + lia.
    + lia.
    + lia.
    + lia.
    + intros i. simpl. destruct (Hfail (S i)) as [e' He'].
      exists e'. rewrite <- He'. f_equal. lia.
    + exists w'. split; [exact Hrun |]. simpl in *.
      repeat split; try lia; assumption.
Qed.



End FetchBackoff.



(** ** The API client of the pages *)

Section ClientFacts.
Context (D : Deployment).

(** X5. The per-minute limiter of the API client. With the counter within
    its range [0..60] the limiter returns with the counter in [1..60] and
    never moves the clock back.  When the window is full (60 calls counted
    and less than a minute since the window began) it sleeps to the end of
    the window and opens a new one where this call is the first. *)
Theorem check_rate_limit_keeps_the_window w :
  0 <= call_count w <= max_calls_per_minute ->
  exists w',
    check_rate_limit w = (Ok tt, w')
    /\ 1 <= call_count w' <= max_calls_per_minute
    /\ clock w <= clock w'
    /\ (last_api_call w <= clock w -> last_api_call w' <= clock w')
    /\ (call_count w = max_calls_per_minute ->
        clock w - last_api_call w < 60000 ->
        clock w' = last_api_call w + 60000
        /\ last_api_call w' = clock w' /\ call_count w' = 1)
    /\ db w' = db w /\ requests_sent w' = requests_sent w.
Proof.
  unfold max_calls_per_minute. intros Hc. unfold check_rate_limit.
  destruct (clock w - last_api_call w >=? 60000) eqn:E1; cbn [fst snd].
  - (* a minute has passed: the counter restarts *)
    cbn. eexists. split; [reflexivity |]. cbn. repeat split; try lia.
  - destruct (call_count w >=? max_calls_per_minute) eqn:E2;
      unfold max_calls_per_minute in E2.
    + destruct (60000 - (clock w - last_api_call w) >? 0) eqn:E3; [| lia].
      eexists. split; [reflexivity |]. cbn. repeat split; try lia.
    + eexists. split; [reflexivity |]. cbn. repeat split; try lia.
Qed.

Lemma check_rate_limit_shape w :
  exists now last count, check_rate_limit w = (Ok tt, with_client now last count w).
Proof.
  unfold check_rate_limit.
  destruct (clock w - last_api_call w >=? 60000);
    destruct (_ >=? max_calls_per_minute); try destruct (_ >? 0); eauto.
Qed.

Lemma make_api_request_outcome endpoint params w :
  exists v w',
    make_api_request D endpoint params w = (Ok v, w')
    /\ requests_sent w' = S (requests_sent w)
    /\ API_CALLS w' = API_CALLS w
    /\ db w' = db w
    /\ (fetch_failed D (base_url D ++ "/" ++ endpoint) params (requests_sent w) -> v = VNone)
    /\ (forall r j, http D (base_url D ++ "/" ++ endpoint) params (requests_sent w) = Resp r ->
                    status_code r < 400 -> json r = Some j -> v = j).
Proof.
  destruct (check_rate_limit_shape w) as (now & last & count & Ec).
  unfold make_api_request, bind, try_except, requests_get, st_message, ret, raise,
    fetch_failed.
  rewrite Ec. cbn [requests_sent with_client].
  destruct (http D (base_url D ++ "/" ++ endpoint) params (requests_sent w)) as [e | r].
  - do 2 eexists. split; [reflexivity |]. cbn.
    split; [reflexivity |]. split; [reflexivity |]. split; [reflexivity |].
    split; [reflexivity |]. intros r j Hr. discriminate.
  - cbn.
    destruct (status_code r =? 429) eqn:E1;
      [| destruct (status_code r =? 404) eqn:E2;
         [| destruct (status_code r >=? 400) eqn:E3;
            [| destruct (json r) as [j |] eqn:Ej]]];
      cbn; do 2 eexists; (split; [reflexivity |]); cbn;
      (split; [reflexivity |]); (split; [reflexivity |]); (split; [reflexivity |]);
      (split; [try reflexivity
              | intros r' j' Hr' Hlt Hj; inversion Hr'; subst; try lia; congruence]).
    intros [Hge | Hn]; [lia | congruence].
Qed.

(** X6. A request through the API client always returns: it never raises,
    sends exactly one request (no retry), leaves the store and the call
    counter of the ETL untouched, answers [None] whenever the network
    fails, the status is 400 or above or the body is not JSON, and answers
    the parsed body whenever the status is below 400 and the body is JSON. *)
Theorem make_api_request_never_raises endpoint params w :
  exists v w',
    make_api_request D endpoint params w = (Ok v, w')
    /\ requests_sent w' = S (requests_sent w)
    /\ API_CALLS w' = API_CALLS w
    /\ db w' = db w
    /\ (fetch_failed D (base_url D ++ "/" ++ endpoint) params (requests_sent w) -> v = VNone)
    /\ (forall r j, http D (base_url D ++ "/" ++ endpoint) params (requests_sent w) = Resp r ->
                    status_code r < 400 -> json r = Some j -> v = j).
Proof. apply make_api_request_outcome. Qed.

(** X7. A player search degrades to the empty list: whenever the request
    fails on the network, the status is 400 or above (a rate-limit answer
    included) or the body is not JSON, [search_players] returns [[]], the
    same value as for a body without players; it sends one request and
    does not touch the store. *)
Theorem search_players_degrades_to_empty search_term w :
  fetch_failed D (base_url D ++ "/stats/v1/player/search")
               (Some [("plrN", search_term)]) (requests_sent w) ->
  exists w',
    search_players D search_term w = (Ok (VList []), w')
    /\ requests_sent w' = S (requests_sent w)
    /\ db w' = db w.
Proof.
  intros Hfail. unfold search_players, bind.
  destruct (make_api_request_outcome "stats/v1/player/search"
              (Some [("plrN", search_term)]) w)
    as (v & w' & Hrun & Hs & _ & Hd & Hnone & _).
  rewrite Hrun. rewrite (Hnone Hfail). simpl. unfold ret. eauto.
Qed.

(** X27. A player search that gets a JSON body.  With a status below 400
    and a JSON body, [search_players] returns the body's ["player"] entry
    when the body is a non-empty object that has one, and [[]] when the
    body is an object without that entry or a falsy value (an empty
    object or list, null, 0, the empty text); for any other body, such as
    a non-empty JSON array, it raises AttributeError, the one exception
    that leaves this client, whose request method itself never raises. *)
Theorem search_players_on_a_json_body search_term w r j :
  http D (base_url D ++ "/stats/v1/player/search")
       (Some [("plrN", search_term)]) (requests_sent w) = Resp r ->
  status_code r < 400 -> json r = Some j ->
  exists w',
    search_players D search_term w
    = (if truthy j
       then match j with
            | VDict d => Ok (dict_get_default d "player" (VList []))
            | _ => Raise AttributeError
            end
       else Ok (VList []), w')
    /\ requests_sent w' = S (requests_sent w)
    /\ db w' = db w.
Proof.
  intros Hr Hlt Hj. unfold search_players, bind.
  destruct (make_api_request_outcome "stats/v1/player/search"
              (Some [("plrN", search_term)]) w)
    as (v & w' & Hrun & Hs & _ & Hd & _ & Hjson).
  rewrite Hrun. rewrite (Hjson r j Hr Hlt Hj).
  exists w'. split; [| split; assumption].
  destruct (truthy j); [| reflexivity].
  unfold lift, py_get_default. destruct j; reflexivity.
Qed.

End ClientFacts.

Lemma check_rate_limit_keeps_the_window_witness :
  let w := with_client 30000 0 60 initial_world in
  exists w',
    check_rate_limit w = (Ok tt, w') /\ clock w' = 60000 /\ call_count w' = 1.
Proof.
  intros w.
  destruct (check_rate_limit_keeps_the_window w) as (w' & Hrun & _ & _ & _ & Hfull & _).
  - vm_compute. split; discriminate.
  - destruct Hfull as (Hc & _ & Hn); [reflexivity | reflexivity |].
    exists w'. split; [exact Hrun |]. split; [exact Hc | exact Hn].
Defined.

Lemma search_players_degrades_to_empty_witness :
  exists w',
    search_players rate_limited (VStr "kohli") initial_world = (Ok (VList []), w')
    /\ requests_sent w' = 1%nat.
Proof.
  destruct (search_players_degrades_to_empty rate_limited (VStr "kohli") initial_world)
    as (w' & Hrun & Hs & _).
  - right. reflexivity.
  - exists w'. split; [exact Hrun | exact Hs].
Defined.

(** ** The normalising helpers *)

Lemma list_to_string_to_list s : list_to_string (string_to_list s) = s.
Proof. induction s as [| c s IH]; simpl; [reflexivity | now rewrite IH]. Qed.

Lemma string_to_list_to_string l : string_to_list (list_to_string l) = l.
Proof. induction l as [| c l IH]; simpl; [reflexivity | now rewrite IH]. Qed.

Lemma uint_chars_are_digits d :
  forallb is_ascii_digit (string_to_list (NilEmpty.string_of_uint d)) = true.
Proof. induction d; simpl; auto. Qed.

Lemma parse_uint_acc d :
  forall acc b, d <> Decimal.Nil \/ b = true ->
    parse_digits (Z.pos acc) b (string_to_list (NilEmpty.string_of_uint d))
    = Some (Z.pos (Pos.of_uint_acc d acc)).
Proof.
  induction d; intros acc b Hb;
    try (cbn [NilEmpty.string_of_uint string_to_list parse_digits Pos.of_uint_acc];
         match goal with
         | |- context [is_ascii_digit ?c] =>
             change (is_ascii_digit c) with true; cbv iota;
             let v := eval vm_compute in (digit_value c) in
             change (digit_value c) with v
         end;
         match goal with
         | |- parse_digits ?a true _ = Some (Z.pos (Pos.of_uint_acc _ ?p)) =>
             replace a with (Z.pos p) by lia
         end;
         apply IHd; right; reflexivity).
  destruct Hb as [Hb | ->]; [congruence | reflexivity].
Qed.

Lemma parse_uint d :
  forall b, d <> Decimal.Nil \/ b = true ->
    parse_digits 0 b (string_to_list (NilEmpty.string_of_uint d))
    = Some (Z.of_N (Pos.of_uint d)).
Proof.
  induction d; intros b Hb;
    try (cbn [NilEmpty.string_of_uint string_to_list parse_digits Pos.of_uint];
         match goal with
         | |- context [is_ascii_digit ?c] =>
             change (is_ascii_digit c) with true; cbv iota;
             let v := eval vm_compute in (digit_value c) in
             change (digit_value c) with v
         end).
  - destruct Hb as [Hb | ->]; [congruence | reflexivity].
  - change (0 * 10 + 0) with 0. apply IHd. right. reflexivity.
  - change (0 * 10 + 1) with (Z.pos 1). apply parse_uint_acc. right. reflexivity.
  - change (0 * 10 + 2) with (Z.pos 2). apply parse_uint_acc. right. reflexivity.
  - change (0 * 10 + 3) with (Z.pos 3). apply parse_uint_acc. right. reflexivity.
  - change (0 * 10 + 4) with (Z.pos 4). apply parse_uint_acc. right. reflexivity.
  - change (0 * 10 + 5) with (Z.pos 5). apply parse_uint_acc. right. reflexivity.
  - change (0 * 10 + 6) with (Z.pos 6). apply parse_uint_acc. right. reflexivity.
  - change (0 * 10 + 7) with (Z.pos 7). apply parse_uint_acc. right. reflexivity.
  - change (0 * 10 + 8) with (Z.pos 8). apply parse_uint_acc. right. reflexivity.
  - change (0 * 10 + 9) with (Z.pos 9). apply parse_uint_acc. right. reflexivity.
Qed.

Lemma parse_positive p :
  exists c l,
    string_to_list (NilEmpty.string_of_uint (Pos.to_uint p)) = c :: l
    /\ forallb is_ascii_digit (c :: l) = true
    /\ parse_digits 0 false (c :: l) = Some (Z.pos p).
Proof.
  pose proof (DecimalPos.Unsigned.to_uint_nonnil p) as Hn.
  pose proof (uint_chars_are_digits (Pos.to_uint p)) as Hd.
  pose proof (parse_uint (Pos.to_uint p) false (or_introl Hn)) as Hp.
  rewrite DecimalPos.Unsigned.of_to in Hp.
  destruct (string_to_list (NilEmpty.string_of_uint (Pos.to_uint p))) as [| c l] eqn:E.
  - destruct (Pos.to_uint p); simpl in E; congruence.
  - exists c, l. auto.
Qed.

Lemma nonnil_string_of_uint d :
  d <> Decimal.Nil -> NilZero.string_of_uint d = NilEmpty.string_of_uint d.
Proof. destruct d; auto; congruence. Qed.

Lemma strip_no_space (space : ascii -> bool) l :
  forallb (fun c => negb (space c)) l = true -> strip_list space l = l.
Proof.
  intros H. unfold strip_list.
  assert (Hl : forall k, forallb (fun c => negb (space c)) k = true -> lstrip space k = k).
  { intros [| c k] Hk; simpl in *; [reflexivity |].
    apply andb_prop in Hk as [Hc _]. apply negb_true_iff in Hc. now rewrite Hc. }
  rewrite (Hl l H), (Hl (rev l)) by now apply forallb_rev.
  apply rev_involutive.
Qed.

(** The characters of [str(n)]: a minus sign or digits. *)
Lemma Z_to_string_chars n :
  forallb (fun c => is_ascii_digit c || char_eqb c "-") (string_to_list (Z_to_string n)) = true.
Proof.
  assert (Hd : forall l, forallb is_ascii_digit l = true ->
                         forallb (fun c => is_ascii_digit c || char_eqb c "-") l = true).
  { induction l as [| c l IH]; simpl; [reflexivity |].
    intros H. apply andb_prop in H as [-> H]. simpl. auto. }
  unfold Z_to_string. destruct n as [| p | p]; simpl.
  - reflexivity.
  - rewrite nonnil_string_of_uint by apply DecimalPos.Unsigned.to_uint_nonnil.
    apply Hd, uint_chars_are_digits.
  - rewrite nonnil_string_of_uint by apply DecimalPos.Unsigned.to_uint_nonnil.
    apply Hd, uint_chars_are_digits.
Qed.

Lemma forallb_weaken {A} (p q : A -> bool) l :
  (forall x, p x = true -> q x = true) -> forallb p l = true -> forallb q l = true.
Proof.
  intros Hpq. induction l as [| x l IH]; simpl; [reflexivity |].
  intros H. apply andb_prop in H as [Hx H]. rewrite (Hpq x Hx). simpl. auto.
Qed.

Lemma digit_or_minus_cases c :
  is_ascii_digit c || char_eqb c "-" = true ->
  is_num_space c = false /\ is_py_space c = false /\ char_eqb c "," = false.
Proof.
  destruct c as [[] [] [] [] [] [] [] []]; vm_compute; intros H;
    first [discriminate H | repeat split].
Qed.

Lemma int_of_Z_to_string n : int_of_string (Z_to_string n) = Ok n.
Proof.
  unfold int_of_string.
  rewrite strip_no_space.
  2:{ eapply forallb_weaken; [| apply Z_to_string_chars].
      intros c Hc. apply digit_or_minus_cases in Hc as (-> & _). reflexivity. }
  unfold Z_to_string. destruct n as [| p | p]; simpl Z.to_int; cbn [NilZero.string_of_int].
  - reflexivity.
  - rewrite nonnil_string_of_uint by apply DecimalPos.Unsigned.to_uint_nonnil.
    destruct (parse_positive p) as (c & l & -> & Hd & Hp).
    simpl in Hd. apply andb_prop in Hd as [Hc _].
    apply digit_is_not_special in Hc as (_ & -> & ->).
    now rewrite Hp.
  - rewrite nonnil_string_of_uint by apply DecimalPos.Unsigned.to_uint_nonnil.
    cbn [string_to_list]. change (char_eqb "-" "-") with true. cbv iota.
    destruct (parse_positive p) as (c & l & -> & _ & Hp).
    now rewrite Hp.
Qed.

Lemma remove_commas_idem s : remove_commas (remove_commas s) = remove_commas s.
Proof.
  unfold remove_commas. rewrite string_to_list_to_string.
  f_equal. induction (string_to_list s) as [| c l IH]; [reflexivity |].
  rewrite filter_cons. case_decide as E; [| exact IH].
  rewrite filter_cons. rewrite decide_True by exact E. now rewrite IH.
Qed.

Lemma plain_number_text n :
  remove_commas (Z_to_string n) = Z_to_string n
  /\ py_strip (Z_to_string n) = Z_to_string n.
Proof.
  pose proof (Z_to_string_chars n) as H. split.
  - unfold remove_commas.
    rewrite <- (list_to_string_to_list (Z_to_string n)) at 2. f_equal.
    induction (string_to_list (Z_to_string n)) as [| c l IH]; [reflexivity |].
    cbn [forallb] in H. apply andb_prop in H as [Hc H].
    apply digit_or_minus_cases in Hc as (_ & _ & Hc).
    rewrite filter_cons, decide_True by (rewrite Hc; exact I).
    now rewrite IH.
  - unfold py_strip. rewrite strip_no_space; [apply list_to_string_to_list |].
    eapply forallb_weaken; [| exact H].
    intros c Hc. apply digit_or_minus_cases in Hc as (_ & -> & _). reflexivity.
Qed.

Section NumberText.
Context `{RT : PyRuntime}.

(** X8. Integers survive the trip through text.  For every integer [n]
    within the interpreter's limit on the length of decimal text (4300
    digits): [_to_int] reads [str(n)] back as [n] whatever the default is,
    and the capacity parser of [get_or_create_venue] returns [n] both for
    the number and for its text; commas inside a capacity text are
    ignored, wherever they stand. *)
Theorem integers_survive_text_round_trip (n : Z) :
  Z.abs n < 10 ^ 4300 ->
  (forall default, _to_int (VStr (Z_to_string n)) default = Some n)
  /\ safe_capacity (VInt n) = Some n
  /\ safe_capacity (VStr (Z_to_string n)) = Some n
  /\ (forall s, safe_capacity (VStr s) = safe_capacity (VStr (remove_commas s))).
Proof.
  intros _.
  pose proof (int_of_Z_to_string n) as Hint.
  destruct (plain_number_text n) as [Hc Hs].
  assert (Hcap : safe_capacity (VStr (Z_to_string n)) = Some n).
  { unfold safe_capacity. cbn [py_str]. rewrite Hc, Hs.
    destruct (String.eqb_spec (Z_to_string n) EmptyString) as [E | _];
      [rewrite E in Hint; discriminate |].
    destruct (String.eqb_spec (Z_to_string n) "-") as [E | _];
      [rewrite E in Hint; discriminate |].
    destruct (String.eqb_spec (Z_to_string n) "N/A") as [E | _];
      [rewrite E in Hint; discriminate |].
    destruct (String.eqb_spec (Z_to_string n) "NA") as [E | _];
      [rewrite E in Hint; discriminate |].
    destruct (String.eqb_spec (Z_to_string n) "null") as [E | _];
      [rewrite E in Hint; discriminate |].
    cbn [orb]. now rewrite Hint. }
  split; [| split; [| split]].
  - intros default. unfold _to_int. cbn [py_int]. rewrite Hint.
    destruct (Z_to_string n) eqn:E; [discriminate | reflexivity].
  - exact Hcap.
  - exact Hcap.
  - intros s. unfold safe_capacity. cbn [py_str]. now rewrite remove_commas_idem.
Qed.

(** X9. [_short] never returns more than [n] characters: the result is
    [None] for [None] only, and otherwise a prefix of [str(text)] of
    length [min(n, len(str(text)))] that [_short] leaves as it is when
    applied again. *)
Theorem short_fits_the_column (text : pyval) (n : nat) :
  match _short text n with
  | None => text = VNone
  | Some s =>
      String.length s = Nat.min n (String.length (py_str text))
      /\ String.prefix s (py_str text) = true
      /\ _short (VStr s) n = Some s
  end.
Proof.
  assert (Hlen : forall k s, String.length (string_take k s)
                             = Nat.min k (String.length s)).
  { induction k as [| k IH]; intros [| c s]; simpl; auto. }
  assert (Hpre : forall k s, String.prefix (string_take k s) s = true).
  { induction k as [| k IH]; intros [| c s]; simpl; auto.
    rewrite IH. destruct (ascii_dec c c); congruence. }
  unfold _short.
  destruct text; try reflexivity;
    (split; [apply Hlen | split; [apply Hpre |]]);
    cbn [py_str]; now rewrite string_take_idem.
Qed.

End NumberText.

Lemma integers_survive_text_round_trip_witness :
  _to_int (VStr "60000") (Some 0) = Some 60000
  /\ safe_capacity (VInt 60000) = Some 60000
  /\ safe_capacity (VStr "60,000") = Some 60000.
Proof.
  destruct (integers_survive_text_round_trip 60000) as (H1 & H2 & H3 & H4).
  - vm_compute. reflexivity.
  - split; [exact (H1 (Some 0)) |]. split; [exact H2 |].
    rewrite (H4 "60,000"). exact H3.
Defined.

(** ** Upserts of teams and series *)

Section UpsertTwice.
Context {R : Type} (key : R -> Z) (update : R -> R -> R).
Hypothesis update_key : forall new old, key (update new old) = key old.
Hypothesis update_twice : forall new old, update new (update new old) = update new old.
Hypothesis update_self : forall new, update new new = new.

Let conflict (new old : R) : bool := key new =? key old.

Lemma iodku_idempotent new tbl :
  insert_on_duplicate_key_update conflict update new
    (insert_on_duplicate_key_update conflict update new tbl)
  = insert_on_duplicate_key_update conflict update new tbl.
Proof.
  induction tbl as [| old tbl IH]; simpl.
  - assert (E : conflict new new = true) by apply Z.eqb_refl.
    rewrite E, update_self. reflexivity.
  - destruct (conflict new old) eqn:E; simpl.
    + assert (E' : conflict new (update new old) = true).
      { unfold conflict in *. now rewrite update_key. }
      rewrite E', update_twice. reflexivity.
    + rewrite E, IH. reflexivity.
Qed.

Lemma iodku_has_key new tbl k :
  existsb (fun r => key r =? k) tbl = true ->
  existsb (fun r => key r =? k) (insert_on_duplicate_key_update conflict update new tbl) = true.
Proof.
  induction tbl as [| old tbl IH]; simpl; [discriminate |].
  destruct (conflict new old); simpl.
  - rewrite update_key. auto.
  - destruct (key old =? k); simpl; auto.
Qed.

Lemma iodku_has_new new tbl :
  existsb (fun r => key r =? key new)
          (insert_on_duplicate_key_update conflict update new tbl) = true.
Proof.
  induction tbl as [| old tbl IH]; simpl.
  - now rewrite Z.eqb_refl.
  - destruct (conflict new old) eqn:E; simpl.
    + unfold conflict in E. rewrite update_key, Z.eqb_sym, E. reflexivity.
    + rewrite IH. apply orb_true_r.
Qed.

End UpsertTwice.

Lemma with_db_idempotent (f : DB -> DB) w :
  f (f (db w)) = f (db w) -> with_db f (with_db f w) = with_db f w.
Proof. intros H. unfold with_db. simpl. now rewrite H. Qed.

Section EntityFacts.
Context `{RT : PyRuntime}.

(** X10. Re-running a team or series upsert on the same payload changes
    nothing: whatever the first call returned or raised, the second call
    gives the same outcome and leaves the world exactly as the first call
    left it (no second row, no field changed). *)
Theorem team_and_series_upserts_are_idempotent :
  (forall team w r w1, upsert_team team w = (r, w1) -> upsert_team team w1 = (r, w1))
  /\ (forall s w r w1, upsert_series s w = (r, w1) -> upsert_series s w1 = (r, w1)).
Proof.
  split.
  - intros team w r w1.
    unfold upsert_team, bind, lift, ret.
    destruct (py_int _) as [id | e]; [| intros H; inversion H; subst; reflexivity].
    destruct (id =? 0); [intros H; inversion H; subst; reflexivity |].
    destruct (to_sql _) as [p1 | e]; [| intros H; inversion H; subst; reflexivity].
    destruct (to_sql _) as [p2 | e]; [| intros H; inversion H; subst; reflexivity].
    destruct (to_sql _) as [p3 | e]; [| intros H; inversion H; subst; reflexivity].
    intros H. inversion H; subst. f_equal.
    apply with_db_idempotent. unfold set_teams. simpl. f_equal.
    apply (iodku_idempotent team_id team_update); reflexivity || (intros []; reflexivity).
  - intros s w r w1.
    unfold upsert_series, bind, lift, ret.
    destruct (py_int _) as [id | e]; [| intros H; inversion H; subst; reflexivity].
    destruct (id =? 0); [intros H; inversion H; subst; reflexivity |].
    destruct (series_details s) as [[[h t] n] | e];
      [| intros H; inversion H; subst; reflexivity].
    destruct (to_sql _) as [p1 | e]; [| intros H; inversion H; subst; reflexivity].
    destruct (to_sql h) as [p2 | e]; [| intros H; inversion H; subst; reflexivity].
    destruct (to_sql t) as [p3 | e]; [| intros H; inversion H; subst; reflexivity].
    destruct (to_sql n) as [p4 | e]; [| intros H; inversion H; subst; reflexivity].
    intros H. inversion H; subst. f_equal.
    apply with_db_idempotent. unfold set_series. simpl. f_equal.
    apply (iodku_idempotent series_id series_update); reflexivity || (intros []; reflexivity).
Qed.

(** X11. What a team upsert stores.  When the payload carries the
    identifier [id <> 0] and the call returns, the teams table holds under
    [id] a row with the payload's name and short name, and with the
    payload's country or, when that is missing or empty, the name again;
    every other team is as before, and no other table is touched. *)
Theorem upsert_team_stores_the_payload team id w w' :
  py_int (dict_get team "teamId" ||| dict_get team "id" ||| VInt 0) = Ok id ->
  id <> 0 ->
  upsert_team team w = (Ok tt, w') ->
  let name := dict_get team "teamName" ||| dict_get team "name" in
  exists row,
    stored_team (db w') id = Some row
    /\ team_id row = id
    /\ to_sql name = Ok (team_name row)
    /\ to_sql (dict_get team "teamSName" ||| dict_get team "shortName"
                 ||| dict_get team "sName") = Ok (team_short_name row)
    /\ to_sql (dict_get team "country" ||| name) = Ok (team_country row)
    /\ (forall k, k <> id -> stored_team (db w') k = stored_team (db w) k)
    /\ (forall k, has_team (db w) k = true -> has_team (db w') k = true)
    /\ (players (db w'), series (db w'), venues (db w'), matches (db w'),
        batting_stats (db w'), bowling_stats (db w'), fielding_stats (db w'))
       = (players (db w), series (db w), venues (db w), matches (db w),
          batting_stats (db w), bowling_stats (db w), fielding_stats (db w)).
Proof.
  intros Hid Hnz H. cbv zeta.
  unfold upsert_team, bind, lift, ret in H. rewrite Hid in H.
  destruct (id =? 0) eqn:E; [lia |].
  destruct (to_sql (dict_get team "teamName" ||| dict_get team "name"))
    as [p1 | e]; [| discriminate].
  destruct (to_sql (dict_get team "teamSName" ||| dict_get team "shortName"
                      ||| dict_get team "sName")) as [p2 | e]; [| discriminate].
  destruct (to_sql (dict_get team "country" ||| _)) as [p3 | e]; [| discriminate].
  inversion H; subst w'. clear H.
  unfold stored_team, has_team. simpl.
  set (new := {| team_id := id; team_name := p1; team_short_name := p2;
                 team_country := p3 |}).
  pose proof (iodku_find_key team_id team_update (fun _ _ => eq_refl) new (teams (db w)))
    as Hfind.
  change (team_id new) with id in Hfind.
  eexists. split; [exact Hfind |].
  destruct (find (fun r => team_id r =? id) (teams (db w))) as [old |] eqn:Eold.
  - apply find_some in Eold as [_ Ek]. apply Z.eqb_eq in Ek.
    split; [exact Ek |]. simpl.
    split; [reflexivity |]. split; [reflexivity |]. split; [reflexivity |].
    split; [| split; [| reflexivity]].
    + intros k Hk. apply (iodku_find_other team_id team_update); auto.
    + intros k. apply (iodku_has_key team_id team_update). reflexivity.
  - simpl.
    split; [reflexivity |].
    split; [reflexivity |]. split; [reflexivity |]. split; [reflexivity |].
    split; [| split; [| reflexivity]].
    + intros k Hk. apply (iodku_find_other team_id team_update); auto.
    + intros k. apply (iodku_has_key team_id team_update). reflexivity.
Qed.


End EntityFacts.

Lemma team_and_series_upserts_are_idempotent_witness :
  let india := [("teamId", VInt 2); ("teamName", VStr "India")] in
  let w1 := after (upsert_team india) initial_world in
  upsert_team india w1 = (Ok tt, w1) /\ length (teams (db w1)) = 1%nat.
Proof.
  intros india w1. split; [| reflexivity].
  apply (proj1 team_and_series_upserts_are_idempotent india initial_world).
  reflexivity.
Defined.

Lemma upsert_team_stores_the_payload_witness :
  exists row,
    stored_team (db (after (upsert_team [("teamId", VInt 2); ("teamName", VStr "India")])
                           initial_world)) 2 = Some row
    /\ team_name row = SStr "India" /\ team_country row = SStr "India".
Proof.
  destruct (upsert_team_stores_the_payload
              [("teamId", VInt 2); ("teamName", VStr "India")] 2 initial_world
              (after (upsert_team [("teamId", VInt 2); ("teamName", VStr "India")])
                     initial_world))
    as (row & Hrow & _ & Hname & _ & Hcountry & _).
  - reflexivity.
  - lia.
  - reflexivity.
  - exists row. split; [exact Hrow |].
    simpl in Hname, Hcountry. split; congruence.
Defined.


(** ** Venues *)

Lemma find_map_invariant {A} (p : A -> bool) (f : A -> A) (l : list A) :
  (forall x, p (f x) = p x) -> find p (map f l) = option_map f (find p l).
Proof.
  intros Hp. induction l as [| x l IH]; simpl; [reflexivity |].
  rewrite Hp. destruct (p x); [reflexivity | exact IH].
Qed.

Lemma find_app_first {A} (p : A -> bool) (l l' : list A) :
  find p (l ++ l') = match find p l with Some x => Some x | None => find p l' end.
Proof.
  induction l as [| x l IH]; simpl; [reflexivity |].
  destruct (p x); [reflexivity | exact IH].
Qed.

Lemma venue_id_update_capacity vid c r : venue_id (update_capacity vid c r) = venue_id r.
Proof. unfold update_capacity. destruct (venue_id r =? vid); reflexivity. Qed.

Lemma venue_matches_update_capacity n c k vid cap r :
  venue_matches n c k (update_capacity vid cap r) = venue_matches n c k r.
Proof. unfold update_capacity. destruct (venue_id r =? vid); reflexivity. Qed.

Lemma text_parameter v :
  text_or_null v ->
  exists p, to_sql v = Ok p
            /\ sql_eq (coalesce_empty p) (coalesce_empty p) = true
            /\ (truthy v = true -> sql_eq p p = true).
Proof.
  destruct v; simpl; try contradiction; intros _; eexists; (split; [reflexivity |]);
    simpl; rewrite ?String.eqb_refl; auto.
Qed.

Section VenueIdentity.
Context `{RT : PyRuntime}.

(** X13. A venue is created once.  With name, city and country given as
    text or null, asking again for a venue that a call has just returned
    (created or found) returns the same identifier, whatever the two
    capacities are; the second call adds no row and consumes no
    AUTO_INCREMENT value, and the identifier names a stored venue. *)
Theorem venue_is_created_once name city country c1 c2 w r w1 :
  text_or_null name -> text_or_null city -> text_or_null country ->
  get_or_create_venue name city country c1 w = (Ok r, w1) ->
  exists w2,
    get_or_create_venue name city country c2 w1 = (Ok r, w2)
    /\ map venue_id (venues (db w2)) = map venue_id (venues (db w1))
    /\ venues_auto (db w2) = venues_auto (db w1)
    /\ (forall vid, r = Some vid -> has_venue (db w1) vid = true).
Proof.
  intros Hn Hc Hk. unfold get_or_create_venue.
  destruct (truthy name) eqn:Ht; cbn [negb].
  2:{ intros H. inversion H; subst. exists w1. repeat split; auto. discriminate. }
  destruct (text_parameter name Hn) as (pn & En & _ & Hpn). specialize (Hpn Ht).
  destruct (text_parameter city Hc) as (pc & Ec & Hpc & _).
  destruct (text_parameter country Hk) as (pk & Ek & Hpk & _).
  unfold bind, lift. rewrite En, Ec, Ek.
  destruct (find (venue_matches pn pc pk) (venues (db w))) as [row |] eqn:Ef.
  - intros H. inversion H; subst r w1. clear H. cbn [db with_db venues set_venues].
    rewrite find_map_invariant by (intros; apply venue_matches_update_capacity).
    rewrite Ef. cbn [option_map]. rewrite venue_id_update_capacity.
    eexists. split; [reflexivity |]. cbn [db with_db venues set_venues venues_auto].
    split; [| split; [reflexivity |]].
    + rewrite !map_map. apply map_ext. intros a. apply venue_id_update_capacity.
    + intros vid Hv. inversion Hv; subst vid. unfold has_venue.
      cbn [db with_db venues set_venues].
      apply existsb_exists. apply find_some in Ef as [Hin _].
      exists (update_capacity (venue_id row) (safe_capacity c1) row).
      split; [apply in_map; exact Hin |].
      rewrite venue_id_update_capacity. apply Z.eqb_refl.
  - destruct (existsb (uniq_venue pn pc pk) (venues (db w))); [discriminate |].
    intros H. inversion H; subst r w1. clear H. cbn [db with_db venues set_venues].
    rewrite find_app_first, Ef. cbn [find].
    assert (Hm : venue_matches pn pc pk
                   {| venue_id := venues_auto (db w); venue_name := pn;
                      venue_city := pc; venue_country := pk;
                      venue_capacity := safe_capacity c1 |} = true).
    { unfold venue_matches. cbn. rewrite Hpn, Hpc, Hpk. reflexivity. }
    rewrite Hm. cbn [venue_id].
    eexists. split; [reflexivity |]. cbn [db with_db venues set_venues venues_auto].
    split; [| split; [reflexivity |]].
    + rewrite !map_map. apply map_ext. intros a. apply venue_id_update_capacity.
    + intros vid Hv. inversion Hv; subst vid. unfold has_venue.
      cbn [db with_db venues set_venues].
      rewrite existsb_app. cbn. rewrite Z.eqb_refl. rewrite orb_true_r. reflexivity.
Qed.

(** X14. No call of [get_or_create_venue] loses a venue or lowers a
    capacity: whatever the arguments and whether the call returns or
    raises, every venue stored before is stored after, with a capacity
    (null counted as 0) at least as large as before. *)
Theorem venue_capacity_never_decreases name city country capacity w r w' vid c :
  get_or_create_venue name city country capacity w = (r, w') ->
  stored_capacity (db w) vid = Some c ->
  exists c', stored_capacity (db w') vid = Some c' /\ default 0 c <= default 0 c'.
Proof.
  unfold get_or_create_venue.
  assert (Hsame : forall (x : result (option Z)),
             (x, w) = (r, w') -> stored_capacity (db w) vid = Some c ->
             exists c', stored_capacity (db w') vid = Some c' /\ default 0 c <= default 0 c').
  { intros x H Hs. inversion H; subst. exists c. split; [exact Hs | lia]. }
  destruct (negb (truthy name)); [apply Hsame |].
  unfold bind, lift.
  destruct (to_sql name) as [pn | e]; [| apply Hsame].
  destruct (to_sql city) as [pc | e]; [| apply Hsame].
  destruct (to_sql country) as [pk | e]; [| apply Hsame].
  destruct (find (venue_matches pn pc pk) (venues (db w))) as [row |] eqn:Ef.
  - intros H Hs. inversion H; subst r w'. clear H.
    unfold stored_capacity in *. cbn [db with_db venues set_venues].
    rewrite find_map_update_capacity.
    destruct (find (fun r => venue_id r =? vid) (venues (db w))) as [r0 |];
      [| discriminate].
    cbn [option_map] in *. inversion Hs; subst c. eexists. split; [reflexivity |].
    unfold update_capacity, greatest_capacity.
    destruct (venue_id r0 =? venue_id row); cbn [venue_capacity]; simpl; lia.
  - destruct (existsb _ (venues (db w))); [apply Hsame |].
    intros H Hs. inversion H; subst r w'. clear H.
    unfold stored_capacity in *. cbn [db with_db venues set_venues].
    rewrite find_app_first.
    destruct (find (fun r => venue_id r =? vid) (venues (db w))) as [r0 |];
      [| discriminate].
    exists c. split; [exact Hs | lia].
Qed.

End VenueIdentity.

Lemma venue_is_created_once_witness :
  exists w2,
    eden_again (VStr "66,000") (after eden initial_world) = (Ok (Some 1), w2)
    /\ map venue_id (venues (db w2)) = [1].
Proof.
  destruct (venue_is_created_once (VStr "Eden Gardens") (VStr "Kolkata") (VStr "India")
              (VInt 50000) (VStr "66,000") initial_world (Some 1) (after eden initial_world))
    as (w2 & Hrun & Hids & _).
  - exact I.
  - exact I.
  - exact I.
  - reflexivity.
  - exists w2. split; [exact Hrun | exact Hids].
Defined.

Lemma venue_capacity_never_decreases_witness :
  exists c',
    stored_capacity (db (after (eden_again (VInt 40000)) (after eden initial_world))) 1
    = Some c'
    /\ 50000 <= default 0 c'.
Proof.
  apply (venue_capacity_never_decreases (VStr "Eden Gardens") (VStr "Kolkata")
           (VStr "India") (VInt 40000) (after eden initial_world)
           (fst (eden_again (VInt 40000) (after eden initial_world)))
           (after (eden_again (VInt 40000)) (after eden initial_world)) 1 (Some 50000)).
  - reflexivity.
  - reflexivity.
Defined.

(** ** Matches *)

Lemma keeps_bind_with {A B} (I : DB -> Prop) (Q : A -> Prop) (c : M A) (k : A -> M B) :
  keeps I c ->
  (forall w a w', c w = (Ok a, w') -> Q a) ->
  (forall a, Q a -> keeps I (k a)) ->
  keeps I (bind c k).
Proof.
  intros Hc HQ Hk w r w' H Hw. unfold bind in H.
  destruct (c w) as [[a | e] w1] eqn:E.
  - eapply Hk; eauto.
  - inversion H; subst. eapply Hc; eauto.
Qed.

Lemma has_team_zero d : no_zero_ids d -> has_team d 0 = false.
Proof.
  intros (Ht & _). unfold has_team.
  induction Ht as [| r l Hr _ IH]; simpl; [reflexivity |].
  destruct (team_id r =? 0) eqn:E; [lia | exact IH].
Qed.

Lemma string_take_length n s : (String.length (string_take n s) <= n)%nat.
Proof.
  revert s. induction n as [| n IH]; intros [| c s]; simpl; try lia.
  specialize (IH s). lia.
Qed.

Section MatchIntegrity.
Context `{RT : PyRuntime} (D : Deployment).

Lemma short_fits v : fits 50 (_short v 50).
Proof. unfold _short. destruct v; cbn [fits]; auto; apply string_take_length. Qed.

Lemma match_list_fields_fit m f :
  match_list_fields m = Ok f -> fits 50 (victory_type f).
Proof.
  unfold match_list_fields.
  destruct (py_get (dict_get m "tossResults" ||| dict_get m "toss" ||| VDict []) "tossWinnerId");
    simpl; [| discriminate].
  destruct (py_or_else _ _); simpl; [| discriminate].
  destruct (py_get _ "decision"); simpl; [| discriminate].
  destruct (py_or_else _ _); simpl; [| discriminate].
  destruct (py_get (dict_get m "result" ||| VDict []) "resultMargin"); simpl; [| discriminate].
  destruct (py_or_else _ _); simpl; [| discriminate].
  destruct (py_get (dict_get m "result" ||| VDict []) "resultType"); simpl; [| discriminate].
  destruct (py_or_else _ _); simpl; [| discriminate].
  intros Hf. inversion Hf; subst. cbn [victory_type]. apply short_fits.
Qed.

Lemma mcenter_enrich_fit mc f :
  fits 50 (victory_type f) -> fits 50 (victory_type (fst (mcenter_enrich mc f))).
Proof.
  intros Hf. unfold mcenter_enrich.
  destruct (py_get (mc ||| VDict []) "matchHeader") as [h |]; [| exact Hf].
  destruct (h ||| VDict []); try exact Hf.
  apply (run_steps_invariant (fun f => fits 50 (victory_type f))); [| exact Hf].
  unfold enrich_steps.
  repeat first [apply List.Forall_nil | apply List.Forall_cons]; intros f0 f1 H0 H1.
  - inversion H1; subst. exact H0.
  - destruct (if truthy_int (toss_winner_id f0) then _ else _); simpl in H1;
      inversion H1; subst. exact H0.
  - destruct (py_or_else (toss_decision f0) _); simpl in H1; inversion H1; subst. exact H0.
  - destruct (py_or_else (win_margin f0) _); simpl in H1; inversion H1; subst. exact H0.
  - destruct (py_or_else (opt_str (victory_type f0)) _); simpl in H1;
      inversion H1; subst. cbn [victory_type]. apply short_fits.
Qed.

Lemma query_mcenter_total mid f w :
  exists f' w',
    query_mcenter D mid f w = (Ok f', w')
    /\ db w' = db w
    /\ (fits 50 (victory_type f) -> fits 50 (victory_type f'))
    /\ (requests_sent w <= requests_sent w' <= requests_sent w + 6)%nat
    /\ (key_missing D = true \/ MAX_CALLS D <= API_CALLS w ->
        f' = f /\ requests_sent w' = requests_sent w /\ API_CALLS w' = API_CALLS w
        /\ exists msg, console w' = (console w ++ [LogMcenterFailed mid (RuntimeError msg)])%list).
Proof.
  unfold query_mcenter, try_except, bind, extract_match_info, api_get, api_get_with.
  destruct (key_missing D) eqn:Ek.
  { do 2 eexists. split; [reflexivity |]. simpl.
    split; [reflexivity |]. split; [auto |]. split; [lia |]. intros _.
    split; [reflexivity |]. split; [reflexivity |]. split; [reflexivity |]. eauto. }
  destruct (API_CALLS w >=? MAX_CALLS D) eqn:Ec.
  { do 2 eexists. split; [reflexivity |]. simpl.
    split; [reflexivity |]. split; [auto |]. split; [lia |]. intros _.
    split; [reflexivity |]. split; [reflexivity |]. split; [reflexivity |]. eauto. }
  destruct (api_get_loop_returns D (Z.to_nat 5)
              ("https://cricbuzz-cricket.p.rapidapi.com/mcenter/v1/" ++ Z_to_string mid)
              None 5 800 0 w ltac:(lia) ltac:(lia)) as (mc & w1 & Hrun & Hdb).
  pose proof (api_get_loop_effect D _ None 5 800 ltac:(lia) _ 0 w _ _ ltac:(lia) Hrun)
    as (Hreq & _).
  rewrite Hrun.
  pose proof (mcenter_enrich_fit mc f) as Hfit.
  destruct (mcenter_enrich mc f) as [f1 [e |]]; cbn [fst] in Hfit;
    unfold print, ret; simpl;
    do 2 eexists; (split; [reflexivity |]); simpl;
    (split; [exact Hdb |]); (split; [exact Hfit |]);
    (split; [change (Z.to_nat 5) with 5%nat in Hreq; lia |]);
    intros [Hk | Hc]; first [congruence | lia].
Qed.

(** X15. The match-center block of [upsert_match_basic] never raises and
    never writes to the store: whatever the server does it returns result
    fields, after at most six requests.  Even the two conditions under
    which the GET wrapper raises (no API key, call cap reached) are
    swallowed here: the fields come back unchanged, no request is sent,
    the counter stays, and one line is printed. *)
Theorem query_mcenter_never_raises mid f w :
  exists f' w',
    query_mcenter D mid f w = (Ok f', w')
    /\ db w' = db w
    /\ (requests_sent w <= requests_sent w' <= requests_sent w + 6)%nat
    /\ (key_missing D = true \/ MAX_CALLS D <= API_CALLS w ->
        f' = f /\ requests_sent w' = requests_sent w /\ API_CALLS w' = API_CALLS w
        /\ exists msg, console w' = (console w ++ [LogMcenterFailed mid (RuntimeError msg)])%list).
Proof.
  destruct (query_mcenter_total mid f w) as (f' & w' & H1 & H2 & _ & H3 & H4).
  exists f', w'. auto.
Qed.

Lemma query_mcenter_fit mid f w f' w' :
  fits 50 (victory_type f) ->
  query_mcenter D mid f w = (Ok f', w') -> fits 50 (victory_type f').
Proof.
  intros Hf H.
  destruct (query_mcenter_total mid f w) as (f1 & w1 & H1 & _ & Hfit & _).
  rewrite H1 in H. inversion H; subst. auto.
Qed.

Lemma victory_types_fit_unchanged d d' :
  matches d' = matches d -> victory_types_fit d -> victory_types_fit d'.
Proof. unfold victory_types_fit. intros ->. auto. Qed.

Lemma keeps_fit_of_same_matches {A} (c : M A) :
  (forall T, keeps (fun d => matches d = T) c) -> keeps victory_types_fit c.
Proof.
  intros Hc w r w' H Hw.
  apply (victory_types_fit_unchanged (db w)); [| exact Hw].
  exact (Hc (matches (db w)) w r w' H eq_refl).
Qed.

#[local] Hint Resolve upsert_team_keeps_matches upsert_team_keeps_ids
  query_mcenter_keeps : keeps.

Lemma execute_upsert_match_keeps_fit row :
  fits 50 (match_victory_type row) -> keeps victory_types_fit (execute_upsert_match row).
Proof.
  intros Hrow w r w' H Hw. unfold execute_upsert_match in H.
  destruct (_ && _); inversion H; subst; [| exact Hw].
  unfold victory_types_fit. simpl.
  apply (iodku_Forall match_id match_update).
  - exact Hrow.
  - intros old _. exact Hrow.
  - exact Hw.
Qed.

(** X16. Every victory type in the matches table has at most 50
    characters, and [upsert_match_basic] keeps it so for every payload and
    every answer of the match center, whether it returns or raises. *)
Theorem stored_victory_types_fit m sid :
  victory_types_fit empty_db
  /\ keeps victory_types_fit (upsert_match_basic D m sid).
Proof.
  split; [constructor |].
  unfold upsert_match_basic.
  destruct (_to_int _ None) as [mid |]; [| apply keeps_ret].
  destruct (mid =? 0) eqn:E; [apply keeps_ret |].
  repeat match goal with
         | |- keeps _ (bind (lift (match_list_fields _)) _) => fail 1
         | |- keeps _ (bind _ _) =>
             apply keeps_bind;
             [ first [ solve [keeps_auto]
                     | solve [apply keeps_fit_of_same_matches; intros ?; keeps_auto]
                     | solve [apply get_or_create_venue_keeps; intros ? ? ? HH; exact HH] ]
             | intros ? ]
         end.
  apply (keeps_bind_with _ (fun f => fits 50 (victory_type f))).
  - apply keeps_lift.
  - intros w f w' H. apply lift_inv in H as [H _]. inversion H as [Hf].
    symmetry in Hf. eapply match_list_fields_fit. exact Hf.
  - intros f Hf.
    apply (keeps_bind_with _ (fun f => fits 50 (victory_type f))).
    + destruct (need_mcenter f); [apply query_mcenter_keeps | apply keeps_ret].
    + intros w f' w' H. destruct (need_mcenter f).
      * eapply query_mcenter_fit; eauto.
      * apply ret_inv in H as [H _]. inversion H; subst. exact Hf.
    + intros f' Hf'. keeps_auto. apply execute_upsert_match_keeps_fit. exact Hf'.
Qed.

(** X17. A match without a team cannot be stored.  [upsert_match_basic]
    passes the identifier 0, not null, for a team the payload does not
    identify; teams never holds a row 0, so the foreign key rejects the
    insert.  In a store without zero identifiers, a payload with a
    non-zero match identifier but without an identifier for team 1 or for
    team 2 makes the call raise, and the matches table stays as it was. *)
Theorem match_without_team_is_rejected m sid mid w r w' :
  no_zero_ids (db w) ->
  _to_int (dict_get m "matchId" ||| dict_get m "id") None = Some mid ->
  mid <> 0 ->
  payload_team_id m "team1" = Ok 0 \/ payload_team_id m "team2" = Ok 0 ->
  upsert_match_basic D m sid w = (r, w') ->
  (exists e, r = Raise e) /\ matches (db w') = matches (db w).
Proof.
  intros Hz Hid Hnz Hteam H.
  assert (Hr : exists e, r = Raise e).
  { destruct r as [[] | e]; [exfalso | eauto].
    unfold upsert_match_basic in H. rewrite Hid in H.
    destruct (mid =? 0) eqn:E; [lia |]. clear E.
    apply bind_ok_inv in H as (x1 & w1 & Hx1 & H). apply lift_inv in Hx1 as [Hx1 ->].
    apply bind_ok_inv in H as (x2 & w2 & Hx2 & H). apply lift_inv in Hx2 as [Hx2 ->].
    assert (Hzero : default 0 (_to_int x1 (Some 0)) = 0 \/ default 0 (_to_int x2 (Some 0)) = 0).
    { unfold payload_team_id in Hteam. cbv zeta in Hteam.
      destruct Hteam as [Ht | Ht]; [left | right].
      - destruct (py_get (dict_get m "team1" ||| VDict [] ||| VDict []) "teamId") as [a |];
          simpl in Hx1, Ht; [| discriminate].
        destruct (py_or_else a _) as [x |]; simpl in Hx1, Ht; congruence.
      - destruct (py_get (dict_get m "team2" ||| VDict [] ||| VDict []) "teamId") as [a |];
          simpl in Hx2, Ht; [| discriminate].
        destruct (py_or_else a _) as [x |]; simpl in Hx2, Ht; congruence. }
    clear Hx1 Hx2 Hteam.
    apply (bind_ok_keeps no_zero_ids) in H as (u1 & w3 & HI3 & H);
      [| keeps_auto | exact Hz].
    apply (bind_ok_keeps no_zero_ids) in H as (u2 & w4 & HI4 & H);
      [| keeps_auto | exact HI3].
    apply (bind_ok_keeps no_zero_ids) in H as (vg & w5 & HI5 & H); [| keeps_auto | exact HI4].
    apply (bind_ok_keeps no_zero_ids) in H as (vn & w6 & HI6 & H); [| keeps_auto | exact HI5].
    apply (bind_ok_keeps no_zero_ids) in H as (vc & w7 & HI7 & H); [| keeps_auto | exact HI6].
    apply (bind_ok_keeps no_zero_ids) in H as (vk & w8 & HI8 & H); [| keeps_auto | exact HI7].
    apply (bind_ok_keeps no_zero_ids) in H as (cap & w9 & HI9 & H); [| keeps_auto | exact HI8].
    apply (bind_ok_keeps no_zero_ids) in H as (vid & w10 & HI10 & H);
      [| apply get_or_create_venue_keeps; intros; apply no_zero_ids_venues; assumption
       | exact HI9].
    apply (bind_ok_keeps no_zero_ids) in H as (f & w11 & HI11 & H); [| keeps_auto | exact HI10].
    apply (bind_ok_keeps no_zero_ids) in H as (f' & w12 & HI12 & H);
      [| destruct (need_mcenter f); [apply query_mcenter_keeps | apply keeps_ret]
       | exact HI11].
    apply (bind_ok_keeps no_zero_ids) in H as (pm & w13 & HI13 & H); [| keeps_auto | exact HI12].
    apply (bind_ok_keeps no_zero_ids) in H as (pd & w14 & HI14 & H); [| keeps_auto | exact HI13].
    apply (bind_ok_keeps no_zero_ids) in H as (pf & w15 & HI15 & H); [| keeps_auto | exact HI14].
    apply (bind_ok_keeps no_zero_ids) in H as (pdesc & w16 & HI16 & H); [| keeps_auto | exact HI15].
    unfold execute_upsert_match in H. cbn [match_series_id match_team1_id match_team2_id
                                            match_venue_id fk_ok] in H.
    pose proof (has_team_zero _ HI16) as H0.
    destruct Hzero as [Hz0 | Hz0]; rewrite Hz0, H0 in H;
      rewrite ?andb_false_r in H; simpl in H; discriminate. }
  split; [exact Hr |].
  destruct Hr as [e ->].
  eapply (upsert_match_raising_keeps_matches D (matches (db w))); eauto.
Qed.

End MatchIntegrity.

Lemma query_mcenter_never_raises_witness :
  let f := {| winner_id := None; toss_winner_id := None; toss_decision := VNone;
              win_margin := VNone; victory_type := Some "In progress" |} in
  exists w', query_mcenter no_key 100 f initial_world = (Ok f, w')
             /\ requests_sent w' = 0%nat.
Proof.
  intros f.
  destruct (query_mcenter_never_raises no_key 100 f initial_world)
    as (f' & w' & Hrun & _ & _ & Hfatal).
  destruct Hfatal as (-> & Hreq & _); [left; reflexivity |].
  exists w'. split; [exact Hrun | exact Hreq].
Defined.

Lemma stored_victory_types_fit_witness :
  victory_types_fit (db (after (upsert_match_basic unreachable match_first None)
                               initial_world)).
Proof.
  apply (proj2 (stored_victory_types_fit unreachable match_first None) initial_world
           (fst (upsert_match_basic unreachable match_first None initial_world))).
  - apply surjective_pairing.
  - constructor.
Defined.

Lemma match_without_team_is_rejected_witness :
  let m := [("matchId", VInt 100); ("team1", VDict [("teamId", VInt 1)]);
            ("status", VStr "Preview")] in
  exists e w', upsert_match_basic unreachable m None initial_world = (Raise e, w')
               /\ matches (db w') = [].
Proof.
  intros m.
  remember (upsert_match_basic unreachable m None initial_world) as p eqn:E.
  destruct p as [r w']. symmetry in E.
  apply (match_without_team_is_rejected unreachable m None 100) in E as [[e ->] Hm].
  - exists e, w'. split; [reflexivity | exact Hm].
  - split; [| split; [| split]]; constructor.
  - reflexivity.
  - lia.
  - right. reflexivity.
Defined.

(** ** Which writers talk to the network *)

Lemma holds_ret {A} I (a : A) : holds I (ret a).
Proof. intros w r w' H Hw. inversion H; subst. exact Hw. Qed.

Lemma holds_raise {A} I e : holds I (@raise A e).
Proof. intros w r w' H Hw. inversion H; subst. exact Hw. Qed.

Lemma holds_lift {A} I (x : result A) : holds I (lift x).
Proof. intros w r w' H Hw. inversion H; subst. exact Hw. Qed.

Lemma holds_bind {A B} I (c : M A) (k : A -> M B) :
  holds I c -> (forall a, holds I (k a)) -> holds I (bind c k).
Proof.
  intros Hc Hk w r w' H Hw. unfold bind in H.
  destruct (c w) as [[a | e] w1] eqn:E.
  - eapply Hk; eauto.
  - inversion H; subst. eapply Hc; eauto.
Qed.

Lemma holds_bind_with {A B} I (Q : A -> Prop) (c : M A) (k : A -> M B) :
  holds I c ->
  (forall w a w', c w = (Ok a, w') -> Q a) ->
  (forall a, Q a -> holds I (k a)) ->
  holds I (bind c k).
Proof.
  intros Hc HQ Hk w r w' H Hw. unfold bind in H.
  destruct (c w) as [[a | e] w1] eqn:E.
  - eapply Hk; eauto.
  - inversion H; subst. eapply Hc; eauto.
Qed.

Lemma holds_for_each {A} I (l : list A) (body : A -> M unit) :
  (forall x, holds I (body x)) -> holds I (for_each l body).
Proof.
  intros Hb. induction l as [| x l IH]; simpl.
  - apply holds_ret.
  - apply holds_bind; auto.
Qed.

Lemma holds_print I m : fetch_only I -> holds I (print m).
Proof. intros (_ & _ & Hc) w r w' H Hw. inversion H; subst. apply Hc. exact Hw. Qed.

Lemma holds_commit I : fetch_only I -> holds I commit.
Proof. intros (_ & Hc & _) w r w' H Hw. inversion H; subst. apply Hc. exact Hw. Qed.

Lemma holds_write {A} I (a : A) (f : DB -> DB) :
  fetch_only I -> holds I (fun w => (Ok a, with_db f w)).
Proof. intros (Hd & _) w r w' H Hw. inversion H; subst. apply Hd. exact Hw. Qed.

Lemma holds_guarded_write {A} I (a : A) (g : World -> bool) (f : DB -> DB) (e : exn) :
  fetch_only I ->
  holds I (fun w => if g w then (Ok a, with_db f w) else (Raise e, w)).
Proof.
  intros (Hd & _) w r w' H Hw.
  destruct (g w); inversion H; subst; [apply Hd |]; exact Hw.
Qed.

Lemma holds_read {A} I (f : World -> A) : holds I (fun w => (Ok (f w), w)).
Proof. intros w r w' H Hw. inversion H; subst. exact Hw. Qed.

Ltac holds_auto :=
  repeat first
    [ apply holds_ret | apply holds_raise | apply holds_lift
    | apply holds_print; assumption | apply holds_commit; assumption
    | apply holds_write; assumption | apply holds_guarded_write; assumption
    | apply holds_bind; [| intros ?]
    | apply holds_for_each; intros ?
    | match goal with
      | |- holds _ (if ?b then _ else _) => destruct b eqn:?
      | |- holds _ (match ?x with _ => _ end) => destruct x eqn:?
      end ].

Section QuietWriters.
Context `{RT : PyRuntime} (D : Deployment) (I : World -> Prop).
Hypothesis quiet : fetch_only I.

Lemma upsert_team_holds team : holds I (upsert_team team).
Proof. unfold upsert_team. holds_auto. Qed.

Lemma upsert_series_holds s : holds I (upsert_series s).
Proof. unfold upsert_series. holds_auto. Qed.

Lemma get_or_create_venue_holds name city country capacity :
  holds I (get_or_create_venue name city country capacity).
Proof.
  unfold get_or_create_venue. holds_auto.
  intros w r w' H Hw. destruct quiet as (Hd & _).
  destruct (find _ (venues (db w))).
  - inversion H; subst. apply Hd. exact Hw.
  - destruct (existsb _ (venues (db w))); inversion H; subst; [| apply Hd]; exact Hw.
Qed.

Lemma resolve_team_id_holds name : holds I (resolve_team_id name).
Proof.
  unfold resolve_team_id. holds_auto.
  intros w r w' H Hw. inversion H; subst. exact Hw.
Qed.

Lemma insert_batting_score_holds mid innings_no team_id b order :
  holds I (insert_batting_score mid innings_no team_id b order).
Proof.
  unfold insert_batting_score. holds_auto; try apply resolve_team_id_holds.
  all: apply (holds_guarded_write I tt (fun w => has_match (db w) mid && has_player (db w) _));
    exact quiet.
Qed.

Lemma insert_bowling_figures_holds mid innings_no team_id bw :
  holds I (insert_bowling_figures mid innings_no team_id bw).
Proof.
  unfold insert_bowling_figures. holds_auto.
  all: apply (holds_guarded_write I tt (fun w => has_match (db w) mid && has_player (db w) _));
    exact quiet.
Qed.

Lemma insert_fielding_holds mid pid catches stumpings :
  holds I (insert_fielding mid pid catches stumpings).
Proof.
  unfold insert_fielding. holds_auto.
  all: apply (holds_guarded_write I tt (fun w => has_match (db w) mid && has_player (db w) pid));
    exact quiet.
Qed.

Lemma upsert_player_holds player team profile :
  holds I (upsert_player D player team (Some profile)).
Proof.
  unfold upsert_player. holds_auto.
  all: apply (holds_guarded_write I tt (fun w => has_team (db w) team)); exact quiet.
Qed.

Lemma upsert_match_basic_holds m sid :
  (forall f, match_list_fields m = Ok f -> need_mcenter f = false) ->
  holds I (upsert_match_basic D m sid).
Proof.
  intros Hfull. unfold upsert_match_basic.
  destruct (_to_int _ None) as [mid |]; [| apply holds_ret].
  destruct (mid =? 0) eqn:E; [apply holds_ret |].
  repeat match goal with
         | |- holds _ (bind (lift (match_list_fields _)) _) => fail 1
         | |- holds _ (bind _ _) =>
             apply holds_bind;
             [ first [ solve [apply get_or_create_venue_holds]
                     | solve [holds_auto; apply upsert_team_holds]
                     | solve [holds_auto] ]
             | intros ? ]
         end.
  apply (holds_bind_with I (fun f => need_mcenter f = false)).
  - apply holds_lift.
  - intros w f w' H. apply lift_inv in H as [H _]. auto.
  - intros f Hf. rewrite Hf. holds_auto.
Qed.

(** X18. Which writers talk to the network.  Take any property of the
    world that does not look at the store, the committed snapshot or the
    console (the request counter, the call counter, the trace, the clock,
    the limiter's fields).  It survives every call, returning or raising,
    of [upsert_team], [upsert_series], [get_or_create_venue],
    [resolve_team_id], the three fact inserts, [upsert_player] when the
    profile is passed in, and [upsert_match_basic] when the listed match
    already carries winner, toss winner, toss decision, margin and victory
    type: none of them sends a request or sleeps. *)
Theorem store_writers_send_no_request :
  (forall team, holds I (upsert_team team))
  /\ (forall s, holds I (upsert_series s))
  /\ (forall name city country capacity,
         holds I (get_or_create_venue name city country capacity))
  /\ (forall name, holds I (resolve_team_id name))
  /\ (forall mid innings_no team_id b order,
         holds I (insert_batting_score mid innings_no team_id b order))
  /\ (forall mid innings_no team_id bw,
         holds I (insert_bowling_figures mid innings_no team_id bw))
  /\ (forall mid pid catches stumpings,
         holds I (insert_fielding mid pid catches stumpings))
  /\ (forall player team profile,
         holds I (upsert_player D player team (Some profile)))
  /\ (forall m sid,
         (forall f, match_list_fields m = Ok f -> need_mcenter f = false) ->
         holds I (upsert_match_basic D m sid)).
Proof.
  repeat split.
  - apply upsert_team_holds.
  - apply upsert_series_holds.
  - apply get_or_create_venue_holds.
  - apply resolve_team_id_holds.
  - apply insert_batting_score_holds.
  - apply insert_bowling_figures_holds.
  - apply insert_fielding_holds.
  - apply upsert_player_holds.
  - apply upsert_match_basic_holds.
Qed.

End QuietWriters.

Lemma store_writers_send_no_request_witness :
  let finished :=
    [("matchId", VInt 100);
     ("team1", VDict [("teamId", VInt 1); ("teamName", VStr "India")]);
     ("team2", VDict [("teamId", VInt 2); ("teamName", VStr "Australia")]);
     ("matchWinner", VDict [("teamId", VInt 1)]);
     ("tossResults", VDict [("tossWinnerId", VInt 2); ("decision", VStr "Batting")]);
     ("result", VDict [("resultMargin", VStr "5"); ("resultType", VStr "wickets")])] in
  let w' := after (upsert_match_basic rate_limited finished None) initial_world in
  requests_sent w' = 0%nat /\ API_CALLS w' = 0 /\ length (matches (db w')) = 1%nat.
Proof.
  intros finished w'.
  assert (Hq : fetch_only (fun w => requests_sent w = 0%nat /\ API_CALLS w = 0)).
  { repeat split; intros; simpl; tauto. }
  destruct (store_writers_send_no_request rate_limited _ Hq)
    as (_ & _ & _ & _ & _ & _ & _ & _ & Hm).
  split; [| split].
  - apply (Hm finished None) with (w := initial_world)
                                  (r := fst (upsert_match_basic rate_limited finished None
                                               initial_world)).
    + intros f Hf. vm_compute in Hf. inversion Hf; subst. reflexivity.
    + apply surjective_pairing.
    + split; reflexivity.
  - apply (Hm finished None) with (w := initial_world)
                                  (r := fst (upsert_match_basic rate_limited finished None
                                               initial_world)).
    + intros f Hf. vm_compute in Hf. inversion Hf; subst. reflexivity.
    + apply surjective_pairing.
    + split; reflexivity.
  - reflexivity.
Defined.

(** ** Batting lines *)

Lemma py_int_never_divides v : py_int v <> Raise ZeroDivisionError.
Proof.
  destruct v; simpl; try discriminate.
  - unfold int_of_float. destruct (Prim2SF f); discriminate.
  - unfold int_of_string.
    destruct (strip_list is_num_space (string_to_list s)) as [| c l]; [discriminate |].
    destruct (char_eqb c "-"); [destruct (parse_digits 0 false l); discriminate |].
    destruct (char_eqb c "+"); [destruct (parse_digits 0 false l); discriminate |].
    destruct (parse_digits 0 false (c :: l)); discriminate.
Qed.

Lemma py_truediv_never_divides a b : b <> 0 -> py_truediv a b <> Raise ZeroDivisionError.
Proof.
  intros Hb. unfold py_truediv. destruct (b =? 0) eqn:E; [lia |].
  destruct (is_infinity _); discriminate.
Qed.

Lemma computed_strike_rate_never_divides runs balls :
  0 < balls -> computed_strike_rate runs balls <> Raise ZeroDivisionError.
Proof.
  intros Hb. unfold computed_strike_rate.
  pose proof (py_truediv_never_divides runs balls ltac:(lia)) as Hq.
  destruct (py_truediv runs balls) as [q | e]; simpl; [| congruence].
  unfold py_round2. destruct (Prim2SF (q * 100)%float); try discriminate.
  destruct (_ =? 0); [discriminate |].
  apply py_truediv_never_divides. lia.
Qed.

Section BattingEdges.
Context `{RT : PyRuntime}.

Lemma resolve_team_id_reads name w r w' :
  resolve_team_id name w = (r, w') ->
  w' = w /\ forall e, r = Raise e -> exists d, e = DbError d.
Proof.
  unfold resolve_team_id. destruct (negb (truthy name)).
  - intros H. inversion H; subst. split; [reflexivity | discriminate].
  - unfold bind, lift. destruct name; simpl; intros H; inversion H; subst;
      (split; [reflexivity |]); intros e He; inversion He; eauto.
Qed.

(** X19. A batting insert that raises has written nothing and has not
    divided by zero: the world is exactly as before the call, and the
    exception is never ZeroDivisionError, whatever runs and balls the
    payload carries (the strike rate is computed only when balls > 0). *)
Theorem batting_insert_fails_cleanly mid innings_no team_id b order w e w' :
  insert_batting_score mid innings_no team_id b order w = (Raise e, w') ->
  w' = w /\ e <> ZeroDivisionError.
Proof.
  unfold insert_batting_score. intros H.
  apply bind_inv in H as [(e' & Hc & He) | (pid & w1 & Hc & H)];
    apply lift_inv in Hc as [Hc ->].
  { inversion He; subst e'. split; [reflexivity |]. intros ->.
    symmetry in Hc. exact (py_int_never_divides _ Hc). }
  destruct (pid =? 0); [inversion H |].
  apply bind_inv in H as [(e' & Hc' & He) | (sr & w2 & Hsr & H)].
  { inversion He; subst e'.
    destruct (safe_float _ None); [inversion Hc' |].
    destruct (_ >? 0) eqn:Eb; [| inversion Hc'].
    apply bind_inv in Hc' as [(e' & Hc' & He') | (x & w2 & _ & Hc')];
      [| inversion Hc'].
    apply lift_inv in Hc' as [Hc' ->]. inversion He'; subst e'.
    split; [reflexivity |]. intros ->. symmetry in Hc'.
    apply computed_strike_rate_never_divides in Hc'; [exact Hc' | lia]. }
  assert (Hw2 : w2 = w).
  { destruct (safe_float _ None); [apply ret_inv in Hsr as [_ ->]; reflexivity |].
    destruct (_ >? 0); [| apply ret_inv in Hsr as [_ ->]; reflexivity].
    apply bind_ok_inv in Hsr as (x & w3 & Hx & Hr).
    apply lift_inv in Hx as [_ ->]. apply ret_inv in Hr as [_ ->]. reflexivity. }
  subst w2. clear Hsr.
  apply bind_inv in H as [(e' & Hc' & He) | (team & w3 & Hteam & H)].
  { inversion He; subst e'.
    destruct (truthy (if truthy team_id then _ else _)); [inversion Hc' |].
    apply bind_inv in Hc' as [(e' & Hc' & He') | (x & w2 & _ & Hc')];
      [| inversion Hc'].
    inversion He'; subst e'.
    apply resolve_team_id_reads in Hc' as [-> Hd].
    split; [reflexivity |]. intros ->.
    destruct (Hd _ eq_refl) as [d Hd']. discriminate Hd'. }
  assert (Hw3 : w3 = w).
  { destruct (truthy (if truthy team_id then _ else _));
      [apply ret_inv in Hteam as [_ ->]; reflexivity |].
    apply bind_ok_inv in Hteam as (t & w4 & Ht & Hr).
    apply ret_inv in Hr as [_ ->].
    apply resolve_team_id_reads in Ht as [-> _]. reflexivity. }
  subst w3. clear Hteam.
  apply bind_inv in H as [(e' & Hc' & He) | (is_out & w4 & Hout & H)];
    [apply lift_inv in Hc' as [Hc' ->] | apply lift_inv in Hout as [_ ->]].
  { inversion He; subst e'. split; [reflexivity |]. intros ->.
    unfold batting_is_out in Hc'. destruct (dict_has b "isOut"); [discriminate Hc' |].
    destruct (py_lower_of _) eqn:El; simpl in Hc'; [discriminate Hc' |].
    unfold py_lower_of in El.
    destruct (dict_get b "outDesc" ||| VStr EmptyString); congruence. }
  apply bind_inv in H as [(e' & Hc' & He) | (p_team & w5 & Hp & H)];
    [apply lift_inv in Hc' as [Hc' ->] | apply lift_inv in Hp as [_ ->]].
  { inversion He; subst e'. split; [reflexivity |]. intros ->.
    destruct team; simpl in Hc'; discriminate Hc'. }
  destruct (has_match (db w) mid && has_player (db w) pid); inversion H; subst.
  split; [reflexivity | discriminate].
Qed.


End BattingEdges.

Lemma batting_insert_fails_cleanly_witness :
  exists e,
    insert_batting_score 999 1 (VInt 2) [("id", VInt 7); ("runs", VInt 10); ("balls", VInt 0)]
                         None fixture_world
    = (Raise e, fixture_world)
    /\ e <> ZeroDivisionError.
Proof.
  remember (insert_batting_score 999 1 (VInt 2)
              [("id", VInt 7); ("runs", VInt 10); ("balls", VInt 0)] None fixture_world)
    as p eqn:E.
  assert (Hr : exists e, fst p = Raise e) by (subst p; vm_compute; eauto).
  destruct p as [r w']. destruct Hr as [e Hr]. simpl in Hr. subst r. symmetry in E.
  destruct (batting_insert_fails_cleanly _ _ _ _ _ _ _ _ E) as [-> Hne].
  exists e. split; [reflexivity | exact Hne].
Defined.


(** ** Referential integrity *)

Lemma keeps_guarded_write_with {A} (I : DB -> Prop) (a : A) (g : World -> bool)
    (f : DB -> DB) (e : exn) :
  (forall w, g w = true -> I (db w) -> I (f (db w))) ->
  keeps I (fun w => if g w then (Ok a, with_db f w) else (Raise e, w)).
Proof.
  intros Hf w r w' H Hw. destruct (g w) eqn:G; inversion H; subst; simpl; auto.
Qed.

Lemma fk_ok_mono (present present' : Z -> bool) ref :
  (forall k, present k = true -> present' k = true) ->
  fk_ok present ref = true -> fk_ok present' ref = true.
Proof. destruct ref; simpl; auto. Qed.

Lemma integrity_step d d' :
  referential_integrity d ->
  (forall k, has_team d k = true -> has_team d' k = true) ->
  (forall k, has_series d k = true -> has_series d' k = true) ->
  (forall k, has_venue d k = true -> has_venue d' k = true) ->
  (forall k, has_match d k = true -> has_match d' k = true) ->
  (forall k, has_player d k = true -> has_player d' k = true) ->
  (players d' = players d
   \/ Forall (fun r => fk_ok (has_team d') (player_team_id r) = true) (players d')) ->
  (matches d' = matches d
   \/ Forall (fun r => fk_ok (has_series d') (match_series_id r) = true
                       /\ fk_ok (has_team d') (match_team1_id r) = true
                       /\ fk_ok (has_team d') (match_team2_id r) = true
                       /\ fk_ok (has_venue d') (match_venue_id r) = true) (matches d')) ->
  (batting_stats d' = batting_stats d
   \/ Forall (fun r => has_match d' (bat_match_id r) = true
                       /\ has_player d' (bat_player_id r) = true) (batting_stats d')) ->
  (bowling_stats d' = bowling_stats d
   \/ Forall (fun r => has_match d' (bowl_match_id r) = true
                       /\ has_player d' (bowl_player_id r) = true) (bowling_stats d')) ->
  (fielding_stats d' = fielding_stats d
   \/ Forall (fun r => has_match d' (field_match_id r) = true
                       /\ has_player d' (field_player_id r) = true) (fielding_stats d')) ->
  referential_integrity d'.
Proof.
  intros ((Hp & Hm) & (Hb & Hw & Hf)) Mt Ms Mv Mm Mp Pp Pm Pb Pw Pf.
  split; [split | split; [| split]].
  - destruct Pp as [-> | Pp]; [| exact Pp].
    eapply List.Forall_impl; [| exact Hp]. intros r. apply fk_ok_mono. exact Mt.
  - destruct Pm as [-> | Pm]; [| exact Pm].
    eapply List.Forall_impl; [| exact Hm]. intros r (H1 & H2 & H3 & H4).
    repeat split; eapply fk_ok_mono; eauto.
  - destruct Pb as [-> | Pb]; [| exact Pb].
    eapply List.Forall_impl; [| exact Hb]. intros r (H1 & H2). auto.
  - destruct Pw as [-> | Pw]; [| exact Pw].
    eapply List.Forall_impl; [| exact Hw]. intros r (H1 & H2). auto.
  - destruct Pf as [-> | Pf]; [| exact Pf].
    eapply List.Forall_impl; [| exact Hf]. intros r (H1 & H2). auto.
Qed.

Lemma referential_integrity_empty : referential_integrity empty_db.
Proof. repeat split; constructor. Qed.

Section Integrity.
Context `{RT : PyRuntime} (D : Deployment).

Lemma upsert_team_keeps_integrity team : keeps referential_integrity (upsert_team team).
Proof.
  unfold upsert_team. keeps_auto. apply keeps_write. intros d Hd.
  apply (integrity_step d); auto.
  intros k. apply (iodku_has_key team_id team_update). reflexivity.
Qed.

Lemma upsert_series_keeps_integrity s : keeps referential_integrity (upsert_series s).
Proof.
  unfold upsert_series. keeps_auto. apply keeps_write. intros d Hd.
  apply (integrity_step d); auto.
  intros k. apply (iodku_has_key series_id series_update). reflexivity.
Qed.

Lemma get_or_create_venue_keeps_integrity name city country capacity :
  keeps referential_integrity (get_or_create_venue name city country capacity).
Proof.
  unfold get_or_create_venue. keeps_auto.
  intros w r w' H Hw.
  destruct (find _ (venues (db w))) as [row |].
  - inversion H; subst. cbn [db with_db].
    apply (integrity_step (db w)); auto.
    intros k. unfold has_venue. cbn [venues set_venues].
    rewrite !existsb_exists. intros (x & Hin & Hk).
    exists (update_capacity (venue_id row) (safe_capacity capacity) x).
    split; [apply in_map; exact Hin |].
    unfold update_capacity. destruct (venue_id x =? venue_id row); exact Hk.
  - destruct (existsb _ (venues (db w))); inversion H; subst; [exact Hw |].
    cbn [db with_db]. apply (integrity_step (db w)); auto.
    intros k. unfold has_venue. cbn [venues set_venues].
    rewrite existsb_app. intros ->. reflexivity.
Qed.

Lemma upsert_player_keeps_integrity player team enrich :
  keeps referential_integrity (upsert_player D player team enrich).
Proof.
  unfold upsert_player, extract_player_profile. keeps_auto.
  apply keeps_guarded_write_with with (g := fun w => has_team (db w) team).
  intros w Hg Hd.
  apply (integrity_step (db w)); auto.
  - intros k. apply (iodku_has_key player_id player_update). reflexivity.
  - right. cbn [players set_players].
    apply (iodku_Forall player_id player_update).
    + exact Hg.
    + intros old _. exact Hg.
    + apply Hd.
Qed.

Lemma execute_upsert_match_keeps_integrity row :
  keeps referential_integrity (execute_upsert_match row).
Proof.
  intros w r w' H Hw. unfold execute_upsert_match in H.
  destruct (_ && _) eqn:G; inversion H; subst; [| exact Hw].
  apply andb_prop in G as [G G4]. apply andb_prop in G as [G G3].
  apply andb_prop in G as [G1 G2].
  cbn [db with_db]. apply (integrity_step (db w)); auto.
  - intros k. apply (iodku_has_key match_id match_update). reflexivity.
  - right. cbn [matches set_matches].
    apply (iodku_Forall match_id match_update).
    + auto.
    + intros old _. cbn. auto.
    + apply Hw.
Qed.

Lemma upsert_match_basic_keeps_integrity m sid :
  keeps referential_integrity (upsert_match_basic D m sid).
Proof.
  unfold upsert_match_basic.
  destruct (_to_int _ None) as [mid |]; [| apply keeps_ret].
  destruct (mid =? 0) eqn:E; [apply keeps_ret |].
  repeat first
    [ apply upsert_team_keeps_integrity
    | apply get_or_create_venue_keeps_integrity
    | apply execute_upsert_match_keeps_integrity
    | apply query_mcenter_keeps
    | apply keeps_ret | apply keeps_lift
    | apply keeps_bind; [| intros ?]
    | match goal with
      | |- keeps _ (if ?b then _ else _) => destruct b eqn:?
      end ].
Qed.

Lemma insert_batting_score_keeps_integrity mid innings_no team_id b order :
  keeps referential_integrity (insert_batting_score mid innings_no team_id b order).
Proof.
  unfold insert_batting_score, resolve_team_id. keeps_auto.
  - intros w r w' H Hw. inversion H; subst. exact Hw.
  - apply keeps_guarded_write_with
      with (g := fun w => has_match (db w) mid && has_player (db w) a).
    intros w Hg Hd. apply andb_prop in Hg as [G1 G2].
    apply (integrity_step (db w)); auto.
    right. cbn [batting_stats set_batting].
    apply (iodku_Forall bat_id batting_update).
    + auto.
    + intros old Hold. exact Hold.
    + apply Hd.
Qed.

Lemma insert_bowling_figures_keeps_integrity mid innings_no team_id bw :
  keeps referential_integrity (insert_bowling_figures mid innings_no team_id bw).
Proof.
  unfold insert_bowling_figures. keeps_auto.
  apply keeps_guarded_write_with
    with (g := fun w => has_match (db w) mid && has_player (db w) a).
  intros w Hg Hd. apply andb_prop in Hg as [G1 G2].
  apply (integrity_step (db w)); auto.
  right. cbn [bowling_stats set_bowling].
  apply (iodku_Forall bowl_id bowling_update).
  - auto.
  - intros old Hold. exact Hold.
  - apply Hd.
Qed.

Lemma insert_fielding_keeps_integrity mid pid catches stumpings :
  keeps referential_integrity (insert_fielding mid pid catches stumpings).
Proof.
  unfold insert_fielding. keeps_auto.
  apply keeps_guarded_write_with
    with (g := fun w => has_match (db w) mid && has_player (db w) pid).
  intros w Hg Hd. apply andb_prop in Hg as [G1 G2].
  apply (integrity_step (db w)); auto.
  right. cbn [fielding_stats set_fielding].
  apply (iodku_Forall field_id fielding_update).
  - auto.
  - intros old Hold. exact Hold.
  - apply Hd.
Qed.

Lemma load_teams_and_players_keeps_integrity :
  keeps referential_integrity (load_teams_and_players D).
Proof.
  unfold load_teams_and_players, load_players_of, extract_teams, extract_players.
  repeat first
    [ apply upsert_team_keeps_integrity
    | apply upsert_player_keeps_integrity
    | apply keeps_ret | apply keeps_lift | apply keeps_print | apply keeps_commit
    | apply keeps_api_get
    | apply keeps_bind; [| intros ?]
    | apply keeps_for_each; intros ?
    | match goal with
      | |- keeps _ (if ?b then _ else _) => destruct b eqn:?
      end ].
  intros w r w' H Hw. inversion H; subst. exact Hw.
Qed.

(** X21. The foreign keys declared by [init_schema] are an invariant of
    the loaders.  They hold in the empty store, and every writer keeps
    them, whether it returns or raises: players point to stored teams,
    matches to stored series, teams and venues, batting, bowling and
    fielding rows to stored matches and players.  No writer removes a
    parent row or changes its key. *)
Theorem writers_keep_referential_integrity :
  referential_integrity empty_db
  /\ (forall team, keeps referential_integrity (upsert_team team))
  /\ (forall player team enrich,
         keeps referential_integrity (upsert_player D player team enrich))
  /\ (forall s, keeps referential_integrity (upsert_series s))
  /\ (forall name city country capacity,
         keeps referential_integrity (get_or_create_venue name city country capacity))
  /\ (forall m sid, keeps referential_integrity (upsert_match_basic D m sid))
  /\ (forall mid innings_no team_id b order,
         keeps referential_integrity (insert_batting_score mid innings_no team_id b order))
  /\ (forall mid innings_no team_id bw,
         keeps referential_integrity (insert_bowling_figures mid innings_no team_id bw))
  /\ (forall mid pid catches stumpings,
         keeps referential_integrity (insert_fielding mid pid catches stumpings))
  /\ keeps referential_integrity (load_teams_and_players D).
Proof.
  split; [apply referential_integrity_empty |].
  split; [apply upsert_team_keeps_integrity |].
  split; [apply upsert_player_keeps_integrity |].
  split; [apply upsert_series_keeps_integrity |].
  split; [apply get_or_create_venue_keeps_integrity |].
  split; [apply upsert_match_basic_keeps_integrity |].
  split; [apply insert_batting_score_keeps_integrity |].
  split; [apply insert_bowling_figures_keeps_integrity |].
  split; [apply insert_fielding_keeps_integrity |].
  apply load_teams_and_players_keeps_integrity.
Qed.

End Integrity.

Lemma writers_keep_referential_integrity_witness :
  referential_integrity
    (db (after (load_teams_and_players (deployment clean_roster_server) ;;
                upsert_match_basic (deployment clean_roster_server) match_first None)
               initial_world)).
Proof.
  destruct (writers_keep_referential_integrity (deployment clean_roster_server))
    as (H0 & _ & _ & _ & _ & Hm & _ & _ & _ & Hl).
  unfold after, bind.
  destruct (load_teams_and_players (deployment clean_roster_server) initial_world)
    as [[[] | e] w1] eqn:E1.
  - pose proof (Hl _ _ _ E1 H0) as H1. cbn [snd].
    eapply (Hm match_first None w1); [apply surjective_pairing | exact H1].
  - exact (Hl _ _ _ E1 H0).
Defined.

(** ** Partnerships: how many, and what they add up to *)

Lemma pair_step_unreadable st b e :
  batsman_entry b = Raise e -> pair_step st b = Raise e.
Proof.
  unfold batsman_entry, pair_step.
  destruct (py_get b "id") as [pid |]; simpl; [| congruence].
  destruct (py_get b "runs") as [r |]; simpl; [| congruence].
  destruct (py_int (r ||| VInt 0)) as [runs |]; simpl; [| congruence].
  destruct (py_get b "balls") as [bl |]; simpl; [| congruence].
  destruct (py_int (bl ||| VInt 0)) as [balls |]; simpl; [discriminate | congruence].
Qed.

Lemma pair_loop_unreadable rest e :
  batsman_entries rest = Raise e -> forall st, pair_loop st rest = Raise e.
Proof.
  induction rest as [| b rest IH]; simpl; [discriminate |].
  destruct (batsman_entry b) as [[[pid runs] balls] |] eqn:Eb; simpl.
  - destruct (batsman_entries rest) as [es |] eqn:Er; simpl; [discriminate |].
    intros H st. inversion H; subst.
    rewrite (pair_step_entry _ _ _ _ _ Eb). cbv zeta.
    destruct (length (current_pair st ++ [pid]) =? 2)%nat; simpl; apply IH; reflexivity.
  - intros H st. inversion H; subst. rewrite (pair_step_unreadable _ _ _ Eb). reflexivity.
Qed.

Lemma later_pairs_total prev es :
  length (later_pairs prev es) = length es
  /\ partnerships_runs (later_pairs prev es) = entries_runs es.
Proof.
  revert prev. induction es as [| [[pid runs] balls] es IH]; intros prev; simpl.
  - split; reflexivity.
  - destruct (IH pid) as [Hl Hr]. split; [now rewrite Hl |].
    unfold partnerships_runs in *. simpl. rewrite Hr. reflexivity.
Qed.

(** X22. The partnerships derived from a batting card.  When every entry
    can be read, [n] batsmen give [n - 1] partnerships (none for a lone
    batsman) and, from two batsmen on, the runs of the partnerships add up
    to the runs of the batsmen: no run is lost or counted twice.  When an
    entry cannot be read the function raises the exception of the first
    such entry; it never returns a partial list. *)
Theorem partnerships_conserve_runs (batsmen : list pyval) :
  match batsman_entries batsmen with
  | Ok entries =>
      exists ps,
        derive_partnerships_from_batsmen batsmen = Ok ps
        /\ length ps = (length entries - 1)%nat
        /\ ((2 <= length entries)%nat -> partnerships_runs ps = entries_runs entries)
  | Raise e => derive_partnerships_from_batsmen batsmen = Raise e
  end.
Proof.
  unfold derive_partnerships_from_batsmen.
  destruct (batsman_entries batsmen) as [entries | e] eqn:H.
  - destruct batsmen as [| b rest]; simpl in *.
    + inversion H; subst. exists []. repeat split.
    + destruct (batsman_entry b) as [[[pid runs] balls] |] eqn:Eb; simpl in H;
        [| discriminate].
      destruct (batsman_entries rest) as [es |] eqn:Er; simpl in H; [| discriminate].
      inversion H; subst.
      rewrite (pair_step_entry _ _ _ _ _ Eb). simpl.
      destruct (pair_loop_from rest es pid [] (0 + runs) (0 + balls) Er)
        as (st & Hst & Hps).
      rewrite Hst. simpl. rewrite Hps. simpl.
      eexists. split; [reflexivity |].
      destruct es as [| [[p r] bl] es']; simpl.
      * split; [reflexivity | lia].
      * destruct (later_pairs_total p es') as [Hl Hr].
        rewrite Hl. split; [lia |]. intros _.
        unfold partnerships_runs in *. simpl. rewrite Hr. unfold entries_runs. simpl. lia.
  - rewrite (pair_loop_unreadable _ _ H). reflexivity.
Qed.

Lemma partnerships_conserve_runs_witness :
  exists ps,
    derive_partnerships_from_batsmen four_batsmen = Ok ps
    /\ length ps = 3%nat /\ partnerships_runs ps = 65.
Proof.
  pose proof (partnerships_conserve_runs four_batsmen) as H.
  change (batsman_entries four_batsmen)
    with (@Ok (list (pyval * Z * Z))
            [(VInt 1, 30, 40); (VInt 2, 20, 30); (VInt 3, 10, 20); (VInt 4, 5, 10)]) in H.
  destruct H as (ps & Hrun & Hlen & Hruns).
  exists ps. split; [exact Hrun |]. split; [exact Hlen |].
  apply Hruns. simpl. lia.
Defined.

(** ** The bulk loader when nothing can be fetched *)

Section LoaderStops.
Context `{RT : PyRuntime} (D : Deployment).

Lemma api_get_try_committed url params w r w' :
  api_get_try D url params w = (r, w') -> committed w' = committed w.
Proof.
  unfold api_get_try, requests_get, raise_for_status, bind, print, ret, raise.
  destruct (http D url params (requests_sent w)) as [e | resp]; simpl.
  - intros H; inversion H; subst; reflexivity.
  - destruct ((400 <=? status_code resp) && (status_code resp <? 600)); simpl.
    + intros H; inversion H; subst; reflexivity.
    + destruct (json resp); simpl; intros H; inversion H; subst; reflexivity.
Qed.

Lemma api_get_loop_committed url params retries backoff :
  forall left attempt w r w',
    api_get_loop D left url params retries backoff attempt w = (r, w') ->
    committed w' = committed w.
Proof.
  induction left as [| left IH]; intros attempt w r w' H;
    simpl in H; unfold try_except in H;
    destruct (api_get_try D url params w) as [[v | e] w1] eqn:E;
    apply api_get_try_committed in E.
  - inversion H; subst. exact E.
  - destruct e; try (inversion H; subst; exact E).
    destruct (attempt + 1 >? retries);
      unfold bind, print, sleep, ret in H; simpl in H;
      try destruct (backoff * (attempt + 1) <? 0);
      inversion H; subst; simpl; exact E.
  - inversion H; subst. exact E.
  - destruct e; try (inversion H; subst; exact E).
    destruct (attempt + 1 >? retries).
    + unfold bind, print, ret in H; simpl in H. inversion H; subst; simpl; exact E.
    + unfold bind, print, sleep in H; simpl in H.
      destruct (backoff * (attempt + 1) <? 0).
      * inversion H; subst; simpl; exact E.
      * apply IH in H. simpl in H. congruence.
Qed.

(** X23. The bulk loader when nothing can be fetched.  Without an API key,
    or with the call cap reached, [load_teams_and_players] raises the
    RuntimeError of the GET wrapper and leaves the world exactly as it
    was.  When the key is set, the cap is not reached and every request
    for the team list fails on the network, it returns normally after six
    requests and twelve seconds of backoff, having written and committed
    nothing; the last line printed says that the teams were skipped. *)
Theorem load_stops_when_nothing_can_be_fetched w :
  (key_missing D = true \/ MAX_CALLS D <= API_CALLS w ->
   exists msg, load_teams_and_players D w = (Raise (RuntimeError msg), w))
  /\ (key_missing D = false -> API_CALLS w < MAX_CALLS D ->
      (forall i, exists e, http D teams_url None (requests_sent w + i) = NetFail e) ->
      exists w',
        load_teams_and_players D w = (Ok tt, w')
        /\ db w' = db w /\ committed w' = committed w
        /\ requests_sent w' = (requests_sent w + 6)%nat
        /\ API_CALLS w' = API_CALLS w
        /\ clock w' = clock w + 12000
        /\ last (console w') = Some LogSkipTeams).
Proof.
  unfold load_teams_and_players, extract_teams, api_get, api_get_with, bind. split.
  - intros [Hk | Hc].
    + rewrite Hk. eauto.
    + destruct (key_missing D); [eauto |].
      destruct (API_CALLS w >=? MAX_CALLS D) eqn:G; [eauto | lia].
  - intros Hk Hc Hfail. rewrite Hk.
    destruct (API_CALLS w >=? MAX_CALLS D) eqn:G; [lia |].
    destruct (api_get_loop_gives_up D teams_url None 5 800 ltac:(lia) 5%nat (Z.to_nat 5) 0 w)
      as (w1 & Hrun & H1 & H2 & H3 & H4 & H5); try reflexivity; try lia; try assumption.
    pose proof (api_get_loop_committed _ _ _ _ _ _ _ _ _ Hrun) as H6.
    change teams_url
      with "https://cricbuzz-cricket.p.rapidapi.com/teams/v1/international" in Hrun.
    rewrite Hrun. cbn [truthy negb]. unfold print.
    eexists. split; [reflexivity |]. cbn.
    split; [exact H4 |]. split; [exact H6 |]. split; [lia |]. split; [exact H2 |].
    split; [rewrite H3; reflexivity |]. apply last_snoc.
Qed.

End LoaderStops.

Lemma load_stops_when_nothing_can_be_fetched_witness :
  (exists msg, load_teams_and_players no_key initial_world
               = (Raise (RuntimeError msg), initial_world))
  /\ (exists w', load_teams_and_players unreachable initial_world = (Ok tt, w')
                 /\ db w' = empty_db /\ requests_sent w' = 6%nat /\ clock w' = 12000).
Proof.
  split.
  - apply (proj1 (load_stops_when_nothing_can_be_fetched no_key initial_world)).
    left. reflexivity.
  - destruct (proj2 (load_stops_when_nothing_can_be_fetched unreachable initial_world))
      as (w' & Hrun & Hdb & _ & Hreq & _ & Hclock & _).
    + reflexivity.
    + vm_compute. reflexivity.
    + intros i. exists ConnectionError. reflexivity.
    + exists w'. split; [exact Hrun |]. split; [exact Hdb |].
      split; [exact Hreq | exact Hclock].
Defined.

(** ** Dates that are already normalised *)

Section DateFixedPoint.
Context `{RT : PyRuntime}.

(** X24. A date that is already in the form YYYY-MM-DD is a fixed point
    of [_to_date]: normalising it again returns it unchanged, on every
    platform (the text is never parsed as a number or handed to
    [strftime]). *)
Theorem normalised_dates_are_fixed_points (d : string) :
  is_ymd d = true -> _to_date (VStr d) = Some d.
Proof.
  unfold is_ymd.
  destruct d as [| c0 [| c1 [| c2 [| c3 [| c4 [| c5 [| c6 [| c7 [| c8 [| c9 [| c10 d]]]]]]]]]]];
    cbn [string_to_list]; try discriminate.
  intros H. apply andb_prop in H as [H H7]. apply andb_prop in H as [_ H4].
  apply Ascii.eqb_eq in H4, H7. subst c4 c7.
  reflexivity.
Qed.

End DateFixedPoint.

Lemma normalised_dates_are_fixed_points_witness :
  _to_date (VStr "2024-01-15") = Some "2024-01-15".
Proof. apply normalised_dates_are_fixed_points. reflexivity. Defined.

(** ** Players: the team must exist, and a stored player is committed *)

Section PlayerFacts.
Context `{RT : PyRuntime} (D : Deployment).

Lemma api_get_committed url params w r w' :
  api_get D url params w = (r, w') -> committed w' = committed w.
Proof.
  unfold api_get, api_get_with.
  destruct (key_missing D); [intros H; inversion H; reflexivity |].
  destruct (API_CALLS w >=? MAX_CALLS D); [intros H; inversion H; reflexivity |].
  apply api_get_loop_committed.
Qed.

(** X25. A player is stored only under a stored team, and a stored player
    is committed.  For a payload with the identifier [pid <> 0] and any
    profile argument: when the call returns, the team existed, the players
    table holds a row for [pid] that points to that team, every other
    player is as before, and everything pending on the connection has been
    committed (the committed state is the connection's state); when the
    call raises, which it does whenever the team is not stored, nothing
    has been written or committed. *)
Theorem upsert_player_commits_or_rejects player team enrich pid w r w' :
  py_int (dict_get player "id" ||| dict_get player "playerId" ||| VInt 0) = Ok pid ->
  pid <> 0 ->
  upsert_player D player team enrich w = (r, w') ->
  match r with
  | Ok _ =>
      has_team (db w) team = true
      /\ committed w' = db w'
      /\ (exists row, stored_player (db w') pid = Some row
                      /\ player_team_id row = Some team)
      /\ (forall k, k <> pid -> stored_player (db w') k = stored_player (db w) k)
  | Raise _ => db w' = db w /\ committed w' = committed w
  end.
Proof.
  intros Hid Hnz H. unfold upsert_player in H.
  apply bind_inv in H as [(e & Hc & ->) | (pid' & w0 & Hc & H)];
    apply lift_inv in Hc as [Hc ->]; [split; reflexivity |].
  rewrite Hid in Hc. inversion Hc; subst pid'. clear Hc.
  destruct (pid =? 0) eqn:E; [lia |]. clear E.
  assert (Hpure : forall A (x : result A) (k : A -> M unit) w1,
             db w1 = db w -> committed w1 = committed w ->
             (forall a, x = Ok a -> k a w1 = (r, w') ->
                        match r with
                        | Ok _ =>
                            has_team (db w) team = true
                            /\ committed w' = db w'
                            /\ (exists row, stored_player (db w') pid = Some row
                                            /\ player_team_id row = Some team)
                            /\ (forall k, k <> pid ->
                                          stored_player (db w') k = stored_player (db w) k)
                        | Raise _ => db w' = db w /\ committed w' = committed w
                        end) ->
             bind (lift x) k w1 = (r, w') ->
             match r with
             | Ok _ =>
                 has_team (db w) team = true
                 /\ committed w' = db w'
                 /\ (exists row, stored_player (db w') pid = Some row
                                 /\ player_team_id row = Some team)
                 /\ (forall k, k <> pid ->
                               stored_player (db w') k = stored_player (db w) k)
             | Raise _ => db w' = db w /\ committed w' = committed w
             end).
  { intros A x k w1 Hd Hcm Hk Hb. unfold bind, lift in Hb.
    destruct x as [a | e]; [eapply Hk; eauto |].
    inversion Hb; subst. split; assumption. }
  apply bind_inv in H as [(e & Hc & ->) | (prof & w1 & Hprof & H)].
  { destruct enrich as [p |]; [inversion Hc |].
    apply bind_inv in Hc as [(e' & Hc & _) | (x & w2 & _ & Hc)]; [| inversion Hc].
    unfold extract_player_profile in Hc.
    split; [eapply api_get_outcome; eauto | eapply api_get_committed; eauto]. }
  assert (Hw1 : db w1 = db w /\ committed w1 = committed w).
  { destruct enrich as [p |]; [apply ret_inv in Hprof as [_ ->]; auto |].
    apply bind_ok_inv in Hprof as (x & w2 & Hx & Hr). apply ret_inv in Hr as [_ ->].
    unfold extract_player_profile in Hx.
    split; [eapply api_get_outcome; eauto | eapply api_get_committed; eauto]. }
  destruct Hw1 as [Hd Hcm]. clear Hprof.
  revert H. apply Hpure; [assumption | assumption |]. intros name _.
  apply Hpure; [assumption | assumption |]. intros role _.
  apply Hpure; [assumption | assumption |]. intros bat _.
  apply Hpure; [assumption | assumption |]. intros bowl _.
  apply Hpure; [assumption | assumption |]. intros country _.
  apply Hpure; [assumption | assumption |]. intros p_name _.
  apply Hpure; [assumption | assumption |]. intros p_role _.
  apply Hpure; [assumption | assumption |]. intros p_bat _.
  apply Hpure; [assumption | assumption |]. intros p_bowl _.
  apply Hpure; [assumption | assumption |]. intros p_country _.
  unfold bind, commit. rewrite Hd.
  destruct (has_team (db w) team) eqn:G; intros H; inversion H; subst; clear H.
  - split; [reflexivity |]. split; [reflexivity |].
    unfold stored_player. cbn [db with_db with_committed players set_players].
    rewrite Hd.
    match goal with
    | |- context [insert_on_duplicate_key_update _ _ ?row _] => set (new := row)
    end.
    split.
    + pose proof (iodku_find_key player_id player_update (fun _ _ => eq_refl) new
                    (players (db w))) as Hf.
      change (player_id new) with pid in Hf.
      eexists. split; [exact Hf |].
      destruct (find _ (players (db w))); reflexivity.
    + intros k Hk.
      apply (iodku_find_other player_id player_update (fun _ _ => eq_refl)). exact Hk.
  - split; assumption.
Qed.

End PlayerFacts.

Lemma upsert_player_commits_or_rejects_witness :
  (exists e w', upsert_player unreachable [("id", VInt 9); ("name", VStr "New")] 55
                  (Some (VDict [])) fixture_world = (Raise e, w')
                /\ db w' = fixture_db)
  /\ (exists row,
         stored_player
           (db (after (upsert_player unreachable [("id", VInt 9); ("name", VStr "New")] 2
                         (Some (VDict []))) fixture_world)) 9 = Some row
         /\ player_team_id row = Some 2).
Proof.
  split.
  - remember (upsert_player unreachable [("id", VInt 9); ("name", VStr "New")] 55
                (Some (VDict [])) fixture_world) as p eqn:E.
    assert (Hr : exists e, fst p = Raise e) by (subst p; vm_compute; eauto).
    destruct p as [r w']. destruct Hr as [e Hr]. simpl in Hr. subst r. symmetry in E.
    exists e, w'. split; [reflexivity |].
    apply (upsert_player_commits_or_rejects unreachable _ 55 _ 9) in E as [Hd _];
      [exact Hd | reflexivity | lia].
  - pose proof (upsert_player_commits_or_rejects unreachable
                  [("id", VInt 9); ("name", VStr "New")] 2 (Some (VDict [])) 9
                  fixture_world (Ok tt)
                  (after (upsert_player unreachable [("id", VInt 9); ("name", VStr "New")] 2
                            (Some (VDict []))) fixture_world)) as H.
    destruct H as (_ & _ & Hrow & _); [reflexivity | lia | reflexivity |].
    exact Hrow.
Defined.

(** ** Bowling and fielding rows are always appended *)

Section FactsAppend.
Context `{RT : PyRuntime}.

(** X26. Every bowling or fielding insert that succeeds appends a row: in
    a store whose AUTO_INCREMENT counter is ahead of the stored ids, a
    successful insert for a non-zero player id adds exactly one row at the
    end of its table, under the next id, for the given match and player;
    the counter stays ahead, and no other table is touched.  No stored row
    is ever updated, whatever match, player and innings the new row
    names. *)
Theorem bowling_and_fielding_rows_are_appended :
  (forall mid innings_no team_id bw pid w w',
      payload_player_id bw = Ok pid -> pid <> 0 ->
      bowling_ids_fresh (db w) ->
      insert_bowling_figures mid innings_no team_id bw w = (Ok tt, w') ->
      exists row,
        bowling_stats (db w') = (bowling_stats (db w) ++ [row])%list
        /\ bowl_id row = bowling_auto (db w)
        /\ bowl_match_id row = mid /\ bowl_player_id row = pid
        /\ bowl_innings_no row = innings_no
        /\ bowling_ids_fresh (db w')
        /\ outside_bowling (db w') = outside_bowling (db w))
  /\ (forall mid pid catches stumpings w w',
         pid <> 0 ->
         fielding_ids_fresh (db w) ->
         insert_fielding mid pid catches stumpings w = (Ok tt, w') ->
         exists row,
           fielding_stats (db w') = (fielding_stats (db w) ++ [row])%list
           /\ field_id row = fielding_auto (db w)
           /\ field_match_id row = mid /\ field_player_id row = pid
           /\ fielding_ids_fresh (db w')
           /\ outside_fielding (db w') = outside_fielding (db w)).
Proof.
  split.
  - intros mid innings_no team_id bw pid w w' Hpid Hnz Hfresh H.
    unfold insert_bowling_figures in H. unfold payload_player_id in Hpid.
    apply bind_ok_inv in H as (pid' & w0 & Hp & H).
    apply lift_inv in Hp as [Hp ->]. rewrite Hpid in Hp. inversion Hp; subst pid'.
    destruct (pid =? 0) eqn:E; [lia |]. clear E.
    apply bind_ok_inv in H as (p_team & w1 & Hpt & H).
    apply lift_inv in Hpt as [_ ->].
    destruct (has_match (db w) mid && has_player (db w) pid); [| discriminate].
    inversion H; subst w'. clear H. cbn [db with_db].
    assert (Hne : Forall (fun old => bowl_id old <> bowling_auto (db w))
                         (bowling_stats (db w))).
    { eapply List.Forall_impl; [| exact Hfresh]. simpl. intros r Hr. lia. }
    eexists. cbn [bowling_stats set_bowling].
    split; [apply (iodku_no_conflict bowl_id bowling_update); exact Hne |].
    cbn. repeat (split; [reflexivity |]). split; [| reflexivity].
    unfold bowling_ids_fresh. cbn [bowling_stats bowling_auto set_bowling].
    rewrite (iodku_no_conflict bowl_id bowling_update) by exact Hne.
    apply List.Forall_app. split.
    + eapply List.Forall_impl; [| exact Hfresh]. simpl. intros r Hr. lia.
    + constructor; [simpl; lia | constructor].
  - intros mid pid catches stumpings w w' Hnz Hfresh H.
    unfold insert_fielding in H.
    destruct (pid =? 0) eqn:E; [lia |]. clear E.
    destruct (has_match (db w) mid && has_player (db w) pid); [| discriminate].
    inversion H; subst w'. clear H. cbn [db with_db].
    assert (Hne : Forall (fun old => field_id old <> fielding_auto (db w))
                         (fielding_stats (db w))).
    { eapply List.Forall_impl; [| exact Hfresh]. simpl. intros r Hr. lia. }
    eexists. cbn [fielding_stats set_fielding].
    split; [apply (iodku_no_conflict field_id fielding_update); exact Hne |].
    cbn. repeat (split; [reflexivity |]). split; [| reflexivity].
    unfold fielding_ids_fresh. cbn [fielding_stats fielding_auto set_fielding].
    rewrite (iodku_no_conflict field_id fielding_update) by exact Hne.
    apply List.Forall_app. split.
    + eapply List.Forall_impl; [| exact Hfresh]. simpl. intros r Hr. lia.
    + constructor; [simpl; lia | constructor].
Qed.

End FactsAppend.

Lemma bowling_and_fielding_rows_are_appended_witness :
  let once := after (insert_fielding 100 7 (VInt 1) (VInt 0)) fixture_world in
  let twice := after (insert_fielding 100 7 (VInt 1) (VInt 0)) once in
  exists row, fielding_stats (db twice) = (fielding_stats (db once) ++ [row])%list
              /\ field_id row = 2.
Proof.
  intros once twice.
  destruct (proj2 bowling_and_fielding_rows_are_appended 100 7 (VInt 1) (VInt 0) once twice)
    as (row & Hrows & Hid & _).
  - lia.
  - repeat constructor.
  - reflexivity.
  - exists row. split; [exact Hrows | exact Hid].
Defined.

Lemma search_players_on_a_json_body_witness :
  exists w',
    search_players (deployment (always (ok_json (VList [VStr "kohli"])))) (VStr "kohli")
                   initial_world
    = (Raise AttributeError, w').
Proof.
  destruct (search_players_on_a_json_body
              (deployment (always (ok_json (VList [VStr "kohli"])))) (VStr "kohli")
              initial_world
              {| status_code := 200; text := "(json)"; json := Some (VList [VStr "kohli"]) |}
              (VList [VStr "kohli"]))
    as (w' & Hrun & _).
  - reflexivity.
  - simpl. lia.
  - reflexivity.
  - exists w'. exact Hrun.
Defined.
